(** * Satellite orbit tracking: propagator, time grid and close-approach scan

    Shallow embedding of the computational core of the three Python modules
    [satelity_modele.py], [satelity_serwisy.py] and [satelity_api.py].

    Number model.  Python [float] values are embedded as the real numbers of
    the Standard Library: every arithmetic operation is exact, there is no
    rounding, no infinity and no NaN.  What is kept from the Python run-time
    is its exceptional behaviour: [math.sqrt] and [math.asin] raise
    [ValueError] outside their domain, the power operator raises
    [OverflowError] when the power is beyond the largest finite float, and a
    division by a zero duration raises [ZeroDivisionError].

    Everything discrete is embedded exactly: [int] as [Z], [str] as [string]
    (code points below 256), [dict] as an insertion-ordered association
    list, [datetime] and [timedelta] as counts of microseconds together with
    the range limits of the [datetime] module.  The rational computations of
    the time grid are carried out in [Q], so that the grid functions and the
    token parser evaluate inside Rocq.

    Binary64.  Where a stated property is decided by rounding, module
    [Binary64] gives the same function on IEEE 754 binary64 numbers, with
    the operations of CPython; it evaluates inside Rocq and shows where the
    exact value and the value of the code part. *)

From Stdlib Require Import Reals Lra Lia ZArith QArith Qfield List String Ascii Bool.
From Stdlib Require Import Sorting.Sorted.
From Stdlib Require Floats.
Import ListNotations.

(* ================================================================== *)
(** * Exceptions and the result type *)
(* ================================================================== *)

(** The exception classes that the modelled code can raise: the three domain
    exceptions of [satelity_serwisy.py] and the built-in ones. *)
Inductive wyjatek : Type :=
  | BladWalidacjiCzasu
  | BladObliczenOrbitych
  | BladZasobuNieznaleziony
  | ValueError
  | ZeroDivisionError
  | OverflowError
  | KeyError.

(** A call either returns a value or raises. *)
Inductive wynik (A : Type) : Type :=
  | Zwraca (a : A)
  | Rzuca (e : wyjatek).

Arguments Zwraca {A} a.
Arguments Rzuca {A} e.

Definition bind {A B : Type} (c : wynik A) (k : A -> wynik B) : wynik B :=
  match c with
  | Zwraca a => k a
  | Rzuca e => Rzuca e
  end.

Notation "x <- c ;; k" := (bind c (fun x => k))
  (at level 61, c at next level, right associativity).

(** A [for] loop whose body may raise: the accumulator is threaded through
    the items in order and the first exception leaves the loop. *)
Fixpoint dla_kazdego {A S : Type} (f : S -> A -> wynik S) (xs : list A) (acc : S)
  : wynik S :=
  match xs with
  | [] => Zwraca acc
  | x :: rest => acc' <- f acc x ;; dla_kazdego f rest acc'
  end.

(* ================================================================== *)
(** * Python primitives *)
(* ================================================================== *)

Module Py.

Local Open Scope R_scope.

(** [math.radians] and [math.degrees]. *)
Definition radians (x : R) : R := x * (PI / 180).
Definition degrees (x : R) : R := x * (180 / PI).

(** [math.sqrt]: [ValueError] on a negative argument. *)
Definition math_sqrt (x : R) : wynik R :=
  if Rlt_dec x 0 then Rzuca ValueError else Zwraca (sqrt x).

(** [math.asin]: [ValueError] outside [[-1, 1]]. *)
Definition math_asin (x : R) : wynik R :=
  if Rle_dec (-1) x then
    if Rle_dec x 1 then Zwraca (asin x) else Rzuca ValueError
  else Rzuca ValueError.

(** [math.atan2 y x], the angle of the point [(x, y)] in [(-PI, PI]]. *)
Definition atan2 (y x : R) : R :=
  if Rlt_dec 0 x then atan (y / x)
  else if Rlt_dec x 0 then
    if Rle_dec 0 y then atan (y / x) + PI else atan (y / x) - PI
  else
    if Rlt_dec 0 y then PI / 2
    else if Rlt_dec y 0 then - (PI / 2)
    else 0.

(** The float operator [x % m] for a non-zero modulus: the remainder takes
    the sign of the modulus, [x - m * floor (x / m)].  Both uses in the code
    have a non-zero literal modulus ([2 * math.pi] and [360]). *)
Definition float_mod (x m : R) : R := x - m * IZR (Zfloor (x / m)).

(** The largest finite float, [sys.float_info.max]. *)
Definition FLOAT_MAX : R := IZR ((2 ^ 53 - 1) * 2 ^ 971).

(** The float operator [x ** n] for a literal exponent [n]: [OverflowError]
    when the power is beyond the largest finite float.  (Multiplication and
    addition never raise: in the floats they go to infinity silently.) *)
Definition float_pow (x : R) (n : nat) : wynik R :=
  if Rlt_dec FLOAT_MAX (Rabs (x ^ n)) then Rzuca OverflowError
  else Zwraca (x ^ n).

(** ** [dict] with integer keys: insertion-ordered association list *)

Definition dict (V : Type) : Type := list (Z * V).

(** [d[k] = v]: an existing key keeps its place and takes the new value, a
    new key goes to the end. *)
Fixpoint dict_set {V : Type} (d : dict V) (k : Z) (v : V) : dict V :=
  match d with
  | [] => [(k, v)]
  | (k', v') :: rest =>
      if Z.eqb k' k then (k', v) :: rest else (k', v') :: dict_set rest k v
  end.

Fixpoint dict_get {V : Type} (d : dict V) (k : Z) : option V :=
  match d with
  | [] => None
  | (k', v') :: rest => if Z.eqb k' k then Some v' else dict_get rest k
  end.

(** [d[k]] as an expression: [KeyError] on a missing key. *)
Definition dict_getitem {V : Type} (d : dict V) (k : Z) : wynik V :=
  match dict_get d k with
  | Some v => Zwraca v
  | None => Rzuca KeyError
  end.

Definition dict_keys {V : Type} (d : dict V) : list Z := map fst d.

(** [sorted] on a list of integers. *)
Fixpoint wstaw (x : Z) (l : list Z) : list Z :=
  match l with
  | [] => [x]
  | y :: rest => if Z.leb x y then x :: y :: rest else y :: wstaw x rest
  end.

Fixpoint sorted (l : list Z) : list Z :=
  match l with
  | [] => []
  | x :: rest => wstaw x (sorted rest)
  end.

(** The index pairs of the nested loops
    [for i, a in enumerate(ids): for b in ids[i+1:]], in iteration order. *)
Fixpoint pary (ids : list Z) : list (Z * Z) :=
  match ids with
  | [] => []
  | a :: rest => map (fun b => (a, b)) rest ++ pary rest
  end.

(** ** [datetime] and [timedelta] *)

(** An aware UTC [datetime] is the number of microseconds since the Unix
    epoch, a [timedelta] a number of microseconds.  A naive [datetime] is
    read as UTC by every function of the code before use, so both kinds are
    the same count here. *)
Definition datetime : Type := Z.
Definition timedelta : Type := Z.

Local Open Scope Z_scope.

(** 0001-01-01T00:00:00 and 9999-12-31T23:59:59.999999, in microseconds. *)
Definition DATETIME_MIN : Z := -62135596800000000.
Definition DATETIME_MAX : Z := 253402300799999999.

Definition w_zakresie_datetime (us : Z) : bool :=
  (DATETIME_MIN <=? us) && (us <=? DATETIME_MAX).

(** [timedelta(...)]: the number of whole days must have magnitude at most
    999999999, otherwise [OverflowError]. *)
Definition MIKROSEKUND_NA_DZIEN : Z := 86400000000.

Definition mk_timedelta (us : Z) : wynik timedelta :=
  if (-999999999 <=? us / MIKROSEKUND_NA_DZIEN)
     && (us / MIKROSEKUND_NA_DZIEN <=? 999999999)
  then Zwraca us else Rzuca OverflowError.

(** [dt + delta]: [OverflowError] when the sum leaves the [datetime] range. *)
Definition datetime_add (dt : datetime) (delta : timedelta) : wynik datetime :=
  if w_zakresie_datetime (dt + delta) then Zwraca (dt + delta)
  else Rzuca OverflowError.

(** [float.__round__] without digits: nearest integer, ties to even. *)
Definition py_round (q : Q) : Z :=
  let n := Qnum q in
  let d := Zpos (Qden q) in
  let f := n / d in
  let r := n mod d in
  if 2 * r <? d then f
  else if d <? 2 * r then f + 1
  else if Z.even f then f else f + 1.

(** [timedelta.total_seconds()] and [datetime.timestamp()] of an aware
    [datetime]: seconds as a fraction with denominator 10^6. *)
Definition total_seconds_Q (delta : timedelta) : Q := Qmake delta 1000000.
Definition timestamp_Q (dt : datetime) : Q := Qmake dt 1000000.

(** [datetime.fromtimestamp(t, tz=timezone.utc)]: [t] is rounded to a whole
    number of microseconds (ties to even); a value outside years 1..9999
    raises. *)
Definition fromtimestamp (t : Q) : wynik datetime :=
  let us := py_round (t * inject_Z 1000000)%Q in
  if w_zakresie_datetime us then Zwraca us else Rzuca ValueError.

(** [total_seconds()] as a float. *)
Definition total_seconds (delta : timedelta) : R := (IZR delta / 1000000)%R.

End Py.

(* ================================================================== *)
(** * [satelity_modele.py]: constants and domain data *)
(* ================================================================== *)

Module Modele.

Import Py.
Local Open Scope R_scope.

Definition PARAMETR_GRAWIT_ZIEMI : R := 398600.4418.
Definition SREDNICA_BAZOWA_ZIEMI : R := 6371.0.
Definition TOLERANCJA_ZBLIZENIA : R := 0.01.
Definition EPSILON_NUMERYCZNY : R := 1e-9.

(** [TypObiektu.AKTYWNY.value] *)
Definition AKTYWNY : string := "active".

(** Geodetic coordinates of an object. *)
Record WspolrzedneGeodezyjne : Type := {
  szer_geogr : R;
  dlug_geogr : R;
  wysokosc_npm : R
}.

Definition do_kartezjanskich (self : WspolrzedneGeodezyjne) : R * R * R :=
  let promien_calkowity := SREDNICA_BAZOWA_ZIEMI + wysokosc_npm self in
  let lat_rad := radians (szer_geogr self) in
  let lon_rad := radians (dlug_geogr self) in
  let x_ecef := promien_calkowity * cos lat_rad * cos lon_rad in
  let y_ecef := promien_calkowity * cos lat_rad * sin lon_rad in
  let z_ecef := promien_calkowity * sin lat_rad in
  (x_ecef, y_ecef, z_ecef).

Definition dystans_do (self inne : WspolrzedneGeodezyjne) : wynik R :=
  let '(x1, y1, z1) := do_kartezjanskich self in
  let '(x2, y2, z2) := do_kartezjanskich inne in
  dx2 <- float_pow (x2 - x1) 2 ;;
  dy2 <- float_pow (y2 - y1) 2 ;;
  dz2 <- float_pow (z2 - z1) 2 ;;
  math_sqrt (dx2 + dy2 + dz2).

(** Keplerian parameters of an orbit. *)
Record ParametryOrbitalne : Type := {
  polOs_wielka : R;
  inklinacja_kat : R;
  wezl_wstepujacy : R
}.

Definition oblicz_okres_orbitalny (self : ParametryOrbitalne) : wynik R :=
  szescian <- float_pow (polOs_wielka self) 3 ;;
  pierwiastek <- math_sqrt (szescian / PARAMETR_GRAWIT_ZIEMI) ;;
  Zwraca (2 * PI * pierwiastek).

Definition oblicz_predkosc_katowa (self : ParametryOrbitalne) : wynik R :=
  T <- oblicz_okres_orbitalny self ;;
  Zwraca (if Rlt_dec EPSILON_NUMERYCZNY T then 2 * PI / T else 0.0).

(** A proximity event. *)
Record ZdarzeniePrzestrz : Type := {
  obiekt_id_a : Z;
  obiekt_id_b : Z;
  moment_czasu : datetime;
  lokalizacja : WspolrzedneGeodezyjne;
  dystans_min : R
}.

(** Rows of the two catalogue tables.  [orbita_ref] is the orbit row that
    the relationship of the same name resolves to. *)
Record ModelOrbityBD : Type := {
  orb_id_rekordu : Z;
  wysokosc_km : R;
  kat_inklinacji : R;
  wezel_wst : R
}.

Record ModelObiektuBD : Type := {
  id_rekordu : Z;
  data_wprowadzenia : datetime;
  stan_operacyjny : string;
  pozycja_startowa_lon : R;
  id_orbity_powiazanej : Z;
  orbita_ref : ModelOrbityBD
}.

End Modele.

(* ================================================================== *)
(** * [satelity_serwisy.py]: propagator, validator, services *)
(* ================================================================== *)

Module Serwisy.

Import Py Modele.
Local Open Scope R_scope.

(** The two abstract roles of the module. *)
Class PropagatorOrbity : Type := {
  oblicz_pozycje :
    ParametryOrbitalne -> datetime -> R -> datetime -> wynik WspolrzedneGeodezyjne
}.

Class WalidatorCzasowy : Type := {
  waliduj_znacznik : string -> wynik datetime
}.

(** ** [PropagatorKeplerowski] *)

Definition _normalizuj_dlugosc (dlugosc_deg : R) : R :=
  float_mod (dlugosc_deg + 180) 360 - 180.

Definition propaguj_pozycje (parametry : ParametryOrbitalne)
    (czas_od_epoki dlug_poczatkowa : R) : wynik WspolrzedneGeodezyjne :=
  let inklinacja_rad := radians (inklinacja_kat parametry) in
  let raan_rad := radians (wezl_wstepujacy parametry) in
  let dlug_pocz_rad := radians dlug_poczatkowa in
  omega_kat <- oblicz_predkosc_katowa parametry ;;
  let anomalia_prawdziwa :=
    float_mod (omega_kat * czas_od_epoki + dlug_pocz_rad) (2 * PI) in
  szer_orb <- math_asin (sin inklinacja_rad * sin anomalia_prawdziwa) ;;
  let dlug_wsp :=
    atan2 (cos inklinacja_rad * sin anomalia_prawdziwa) (cos anomalia_prawdziwa)
    + raan_rad in
  let szer_geo := degrees szer_orb in
  let dlug_geo := _normalizuj_dlugosc (degrees dlug_wsp) in
  let wysokosc := polOs_wielka parametry - SREDNICA_BAZOWA_ZIEMI in
  Zwraca {| szer_geogr := szer_geo;
            dlug_geogr := dlug_geo;
            wysokosc_npm := wysokosc |}.

(** [PropagatorKeplerowski.oblicz_pozycje].  The [isinstance] tests hold by
    typing and the time-zone normalisation is the identity on UTC counts. *)
Definition oblicz_pozycje_kepler (param_orb : ParametryOrbitalne)
    (moment : datetime) (dlugosc_pocz : R) (data_startowa : datetime)
  : wynik WspolrzedneGeodezyjne :=
  let delta_t := total_seconds (moment - data_startowa)%Z in
  if Rlt_dec delta_t 0 then Rzuca BladObliczenOrbitych
  else
    omega <- oblicz_predkosc_katowa param_orb ;;
    if Rlt_dec (Rabs omega) EPSILON_NUMERYCZNY then Rzuca BladObliczenOrbitych
    else propaguj_pozycje param_orb delta_t dlugosc_pocz.

#[export] Instance PropagatorKeplerowski : PropagatorOrbity :=
  {| oblicz_pozycje := oblicz_pozycje_kepler |}.

(** ** [WalidatorISO8601]

    [dateutil.parser.isoparse] is a library function: it is a parameter of
    the validator, [None] standing for its [ValueError]. *)
Definition WalidatorISO8601 (isoparse : string -> option datetime)
  : WalidatorCzasowy :=
  {| waliduj_znacznik := fun znacznik_czasowy =>
       match isoparse znacznik_czasowy with
       | Some dt => Zwraca dt
       | None => Rzuca BladWalidacjiCzasu
       end |}.

(** ** The database session, as far as the services read it *)

Record Session : Type := {
  tab_obiekty : list ModelObiektuBD;
  tab_orbity : list ModelOrbityBD
}.

Section Uslugi.

Context {propagator : PropagatorOrbity} {walidator : WalidatorCzasowy}.

(** [SerwisObliczenOrbitalalnych.oblicz_pozycje_obiektu] *)
Definition oblicz_pozycje_obiektu (sesja_bd : Session) (id_obiektu : Z)
    (znacznik_czasu : string) : wynik WspolrzedneGeodezyjne :=
  moment <- waliduj_znacznik znacznik_czasu ;;
  match find (fun o => Z.eqb (id_rekordu o) id_obiektu) (tab_obiekty sesja_bd) with
  | None => Rzuca BladZasobuNieznaleziony
  | Some obiekt =>
      match find (fun r => Z.eqb (orb_id_rekordu r) (id_orbity_powiazanej obiekt))
                 (tab_orbity sesja_bd) with
      | None => Rzuca BladZasobuNieznaleziony
      | Some orbita =>
          let params :=
            {| polOs_wielka := wysokosc_km orbita + SREDNICA_BAZOWA_ZIEMI;
               inklinacja_kat := kat_inklinacji orbita;
               wezl_wstepujacy := wezel_wst orbita |} in
          oblicz_pozycje params moment (pozycja_startowa_lon obiekt)
                         (data_wprowadzenia obiekt)
      end
  end.

(** [SerwisAnalizyZdarzen] of this module; [prog_zblizenia] is the attribute
    of the same name (default [TOLERANCJA_ZBLIZENIA]). *)
Variable prog_zblizenia : R.

(** The first loop of [wykryj_kolizje]: positions of the objects; an
    exception of any class is caught, logged, and the object skipped. *)
Definition zbierz_pozycje (sesja_bd : Session) (znacznik_czasu : string)
    (obiekty : list ModelObiektuBD) : dict WspolrzedneGeodezyjne :=
  fold_left
    (fun pozycje obj =>
       match oblicz_pozycje_obiektu sesja_bd (id_rekordu obj) znacznik_czasu with
       | Zwraca poz => dict_set pozycje (id_rekordu obj) poz
       | Rzuca _ => pozycje
       end)
    obiekty [].

(** The body of the nested loops of [wykryj_kolizje] for one pair. *)
Definition sprawdz_pare_kolizji (pozycje : dict WspolrzedneGeodezyjne)
    (znacznik_czasu : string) (zdarzenia : list ZdarzeniePrzestrz)
    (para : Z * Z) : wynik (list ZdarzeniePrzestrz) :=
  let '(id_a, id_b) := para in
  poz_a <- dict_getitem pozycje id_a ;;
  poz_b <- dict_getitem pozycje id_b ;;
  dystans <- dystans_do poz_a poz_b ;;
  if Rle_dec dystans prog_zblizenia then
    let sr_lat := (szer_geogr poz_a + szer_geogr poz_b) / 2 in
    let sr_lon := (dlug_geogr poz_a + dlug_geogr poz_b) / 2 in
    let sr_alt := (wysokosc_npm poz_a + wysokosc_npm poz_b) / 2 in
    moment <- waliduj_znacznik znacznik_czasu ;;
    Zwraca (zdarzenia ++
            [ {| obiekt_id_a := id_a;
                 obiekt_id_b := id_b;
                 moment_czasu := moment;
                 lokalizacja := {| szer_geogr := sr_lat;
                                   dlug_geogr := sr_lon;
                                   wysokosc_npm := sr_alt |};
                 dystans_min := dystans |} ])
  else Zwraca zdarzenia.

(** [SerwisAnalizyZdarzen.wykryj_kolizje].  [filtr_orbit] is the optional
    orbit id; [None] and [0] are both falsy and leave the query unfiltered. *)
Definition wykryj_kolizje (sesja_bd : Session) (znacznik_czasu : string)
    (filtr_orbit : option Z) : wynik (list ZdarzeniePrzestrz) :=
  let query :=
    filter (fun o => String.eqb (stan_operacyjny o) "active") (tab_obiekty sesja_bd) in
  let query :=
    match filtr_orbit with
    | Some f =>
        if Z.eqb f 0 then query
        else filter (fun o => Z.eqb (id_orbity_powiazanej o) f) query
    | None => query
    end in
  let obiekty := query in
  if (Z.of_nat (List.length obiekty) <? 2)%Z then Zwraca []
  else
    let pozycje := zbierz_pozycje sesja_bd znacznik_czasu obiekty in
    let ids := dict_keys pozycje in
    dla_kazdego (sprawdz_pare_kolizji pozycje znacznik_czasu) (pary ids) [].

End Uslugi.

End Serwisy.

(* ================================================================== *)
(** * [satelity_api.py]: position service, time grid, interval scan *)
(* ================================================================== *)

Module Api.

Import Py Modele.

(** [SerwisObliczenOrbitalalnych.oblicz_pozycje_w_czasie]: [None] when the
    object had not been introduced yet.  The propagator of this service is
    the module-level [PropagatorKeplerowski()]. *)
Definition oblicz_pozycje_w_czasie (model_obiektu : ModelObiektuBD)
    (znacznik_czasu : datetime) : wynik (option WspolrzedneGeodezyjne) :=
  let data_wprowadzenia := data_wprowadzenia model_obiektu in
  if (znacznik_czasu <? data_wprowadzenia)%Z then Zwraca None
  else
    let orbita := orbita_ref model_obiektu in
    let params :=
      {| polOs_wielka := (SREDNICA_BAZOWA_ZIEMI + wysokosc_km orbita)%R;
         inklinacja_kat := kat_inklinacji orbita;
         wezl_wstepujacy := wezel_wst orbita |} in
    let delta_czasu := total_seconds (znacznik_czasu - data_wprowadzenia)%Z in
    wspolrzedne <- Serwisy.propaguj_pozycje params delta_czasu
                     (pozycja_startowa_lon model_obiektu) ;;
    Zwraca (Some wspolrzedne).

(** ** [SerwisAnalizyZdarzen.parsuj_precyzje] *)

Local Open Scope string_scope.

(** [\d] on code points below 256: the ten ASCII digits. *)
Definition czy_cyfra (c : ascii) : bool :=
  (48 <=? nat_of_ascii c)%nat && (nat_of_ascii c <=? 57)%nat.

(** The longest prefix of digits, and what follows it. *)
Fixpoint wez_cyfry (s : string) : string * string :=
  match s with
  | EmptyString => ("", "")
  | String c rest =>
      if czy_cyfra c then
        let '(cyfry, reszta) := wez_cyfry rest in (String c cyfry, reszta)
      else ("", s)
  end.

(** The alternatives of the second group, in the order of the pattern. *)
Definition JEDNOSTKI : list string := ["ms"; "s"; "m"; "h"; "d"].

(** What [$] accepts after the second group: the end of the text, or one
    line feed that is the last character of the text. *)
Definition koniec_tekstu (s : string) : bool :=
  String.eqb s "" || String.eqb s (String (ascii_of_nat 10) "").

(** The text after a literal prefix, if the text starts with it. *)
Fixpoint usun_prefiks (prefiks s : string) : option string :=
  match prefiks with
  | EmptyString => Some s
  | String c prefiks' =>
      match s with
      | EmptyString => None
      | String c' s' => if Ascii.eqb c c' then usun_prefiks prefiks' s' else None
      end
  end.

(** One alternative of the second group followed by [$]. *)
Definition jednostka_do_konca (reszta j : string) : bool :=
  match usun_prefiks j reszta with
  | Some ogon => koniec_tekstu ogon
  | None => false
  end.

(** [re.match(r'^(\d+)(ms|s|m|h|d)$', tekst)]: the two groups of the match.
    A digit can never start a unit, so the first group is the whole run of
    leading digits; the alternatives are then tried from left to right. *)
Definition dopasuj_wzorzec (tekst : string) : option (string * string) :=
  let '(cyfry, reszta) := wez_cyfry tekst in
  if String.eqb cyfry "" then None
  else
    match find (jednostka_do_konca reszta) JEDNOSTKI with
    | Some j => Some (cyfry, j)
    | None => None
    end.

(** [int] on a run of ASCII digits. *)
Definition int_z_cyfr (s : string) : Z :=
  fold_left (fun acc c => (acc * 10 + (Z.of_nat (nat_of_ascii c) - 48))%Z)
            (list_ascii_of_string s) 0%Z.

(** The table [mapowanie] applied to the unit. *)
Definition mapowanie (jednostka : string) (v : Z) : wynik timedelta :=
  if String.eqb jednostka "ms" then mk_timedelta (v * 1000)
  else if String.eqb jednostka "s" then mk_timedelta (v * 1000000)
  else if String.eqb jednostka "m" then mk_timedelta (v * 60000000)
  else if String.eqb jednostka "h" then mk_timedelta (v * 3600000000)
  else if String.eqb jednostka "d" then mk_timedelta (v * 86400000000)
  else Rzuca KeyError.

Definition parsuj_precyzje (tekst_precyzji : string) : wynik timedelta :=
  match dopasuj_wzorzec tekst_precyzji with
  | None => Rzuca ValueError
  | Some (grupa1, jednostka) =>
      let wartosc := int_z_cyfr grupa1 in
      if (wartosc <? 1)%Z then Rzuca ValueError
      else mapowanie jednostka wartosc
  end.

Local Close Scope string_scope.

(** ** [SerwisAnalizyZdarzen.zaokraglij_do_siatki] *)

Definition zaokraglij_do_siatki (dt : datetime) (delta : timedelta)
  : wynik datetime :=
  let timestamp := timestamp_Q dt in
  let delta_sekund := total_seconds_Q delta in
  if Qeq_bool delta_sekund 0 then Rzuca ZeroDivisionError
  else
    let zaokraglony :=
      (inject_Z (py_round (timestamp / delta_sekund)) * delta_sekund)%Q in
    fromtimestamp zaokraglony.

(** ** [SerwisAnalizyZdarzen.wykryj_zdarzenia_w_przedziale] *)

Section Analiza.

(** The attribute [prog_wykrywania], set to [TOLERANCJA_ZBLIZENIA] by the
    constructor. *)
Variable prog_wykrywania : R.

(** Body of the loop over the objects: inactive objects are skipped, an
    object without a position leaves the map as it is. *)
Definition dodaj_pozycje (czas_obecny : datetime)
    (pozycje_map : dict WspolrzedneGeodezyjne) (obiekt : ModelObiektuBD)
  : wynik (dict WspolrzedneGeodezyjne) :=
  if negb (String.eqb (stan_operacyjny obiekt) AKTYWNY) then Zwraca pozycje_map
  else
    pozycja <- oblicz_pozycje_w_czasie obiekt czas_obecny ;;
    match pozycja with
    | Some p => Zwraca (dict_set pozycje_map (id_rekordu obiekt) p)
    | None => Zwraca pozycje_map
    end.

(** First part of the body of the [while] loop: the position map of one
    tick. *)
Definition pozycje_kroku (obiekty : list ModelObiektuBD) (czas_obecny : datetime)
  : wynik (dict WspolrzedneGeodezyjne) :=
  dla_kazdego (dodaj_pozycje czas_obecny) obiekty [].

(** Body of the nested pair loops for one pair. *)
Definition sprawdz_pare (pozycje_map : dict WspolrzedneGeodezyjne)
    (czas_obecny : datetime) (zdarzenia : list ZdarzeniePrzestrz)
    (para : Z * Z) : wynik (list ZdarzeniePrzestrz) :=
  let '(id_a, id_b) := para in
  poz_a <- dict_getitem pozycje_map id_a ;;
  poz_b <- dict_getitem pozycje_map id_b ;;
  dystans <- dystans_do poz_a poz_b ;;
  if Rlt_dec dystans prog_wykrywania then
    Zwraca (zdarzenia ++
            [ {| obiekt_id_a := Z.min id_a id_b;
                 obiekt_id_b := Z.max id_a id_b;
                 moment_czasu := czas_obecny;
                 lokalizacja := poz_a;
                 dystans_min := dystans |} ])
  else Zwraca zdarzenia.

(** The analysis of one tick: positions, then the pairs of the sorted ids. *)
Definition krok_siatki (obiekty : list ModelObiektuBD) (czas_obecny : datetime)
    (zdarzenia : list ZdarzeniePrzestrz) : wynik (list ZdarzeniePrzestrz) :=
  pozycje_map <- pozycje_kroku obiekty czas_obecny ;;
  let ids_aktywne := sorted (dict_keys pozycje_map) in
  dla_kazdego (sprawdz_pare pozycje_map czas_obecny) (pary ids_aktywne) zdarzenia.

(** The [while czas_obecny <= czas_koniec] loop.  [paliwo] bounds the number
    of tests of the loop condition; [None] means the bound was too small. *)
Fixpoint petla_siatki (paliwo : nat) (obiekty : list ModelObiektuBD)
    (czas_obecny czas_koniec : datetime) (delta_czasu : timedelta)
    (zdarzenia : list ZdarzeniePrzestrz)
  : option (wynik (list ZdarzeniePrzestrz)) :=
  match paliwo with
  | O => None
  | S n =>
      if (czas_obecny <=? czas_koniec)%Z then
        match krok_siatki obiekty czas_obecny zdarzenia with
        | Rzuca e => Some (Rzuca e)
        | Zwraca zdarzenia' =>
            match datetime_add czas_obecny delta_czasu with
            | Rzuca e => Some (Rzuca e)
            | Zwraca nastepny =>
                petla_siatki n obiekty nastepny czas_koniec delta_czasu zdarzenia'
            end
        end
      else Some (Zwraca zdarzenia)
  end.

(** A number of condition tests that the loop cannot exceed: forward steps
    reach [czas_koniec], backward steps leave the [datetime] range. *)
Definition paliwo_siatki (czas_start czas_koniec : datetime)
    (delta_czasu : timedelta) : nat :=
  if (0 <? delta_czasu)%Z
  then S (Z.to_nat ((czas_koniec - czas_start) / delta_czasu + 1))
  else S (Z.to_nat ((czas_start - DATETIME_MIN) / (- delta_czasu) + 1)).

Definition wykryj_zdarzenia_w_przedziale (obiekty : list ModelObiektuBD)
    (czas_start czas_koniec : datetime) (delta_czasu : timedelta)
  : option (wynik (list ZdarzeniePrzestrz)) :=
  match zaokraglij_do_siatki czas_start delta_czasu with
  | Rzuca e => Some (Rzuca e)
  | Zwraca czas_start' =>
      match zaokraglij_do_siatki czas_koniec delta_czasu with
      | Rzuca e => Some (Rzuca e)
      | Zwraca czas_koniec' =>
          petla_siatki (paliwo_siatki czas_start' czas_koniec' delta_czasu)
                       obiekty czas_start' czas_koniec' delta_czasu []
      end
  end.

End Analiza.

End Api.

(* ================================================================== *)
(** * Closed forms used in the statements *)
(* ================================================================== *)

Module Wzory.

Import Py Modele.
Local Open Scope R_scope.

(** A semi-major axis that the propagator accepts: not negative, so that the
    square root of the period is defined, and with a cube that is a float. *)
Definition os_dopuszczalna (a : R) : Prop := 0 <= a /\ a ^ 3 <= FLOAT_MAX.

(** A coordinate whose distance from the centre of the Earth is at most
    [granica]. *)
Definition promien_ograniczony (granica : R) (p : WspolrzedneGeodezyjne) : Prop :=
  Rabs (SREDNICA_BAZOWA_ZIEMI + wysokosc_npm p) <= granica.

(** The orbital period [2 PI sqrt (a^3 / mu)]. *)
Definition okres (a : R) : R := 2 * PI * sqrt (a ^ 3 / 398600.4418).

(** The unguarded angular velocity [2 PI / (2 PI sqrt (a^3 / mu))]. *)
Definition predkosc_katowa (a : R) : R := 2 * PI / (2 * PI * sqrt (a ^ 3 / 398600.4418)).

(** The angular velocity with the epsilon guard of the code. *)
Definition predkosc_katowa_z_progiem (a : R) : R :=
  if Rlt_dec 1e-9 (okres a) then predkosc_katowa a else 0.

(** The orbital-plane argument [u]. *)
Definition argument_orbity (omega t l0 : R) : R :=
  float_mod (omega * t + radians l0) (2 * PI).

(** The coordinate of the propagation algorithm for an angular velocity
    [omega]: latitude, normalised longitude, altitude. *)
Definition wspolrzedne (omega : R) (p : ParametryOrbitalne) (t l0 : R)
  : WspolrzedneGeodezyjne :=
  let i_rad := radians (inklinacja_kat p) in
  let raan_rad := radians (wezl_wstepujacy p) in
  let u := argument_orbity omega t l0 in
  {| szer_geogr := degrees (asin (sin i_rad * sin u));
     dlug_geogr :=
       Serwisy._normalizuj_dlugosc
         (degrees (atan2 (cos i_rad * sin u) (cos u) + raan_rad));
     wysokosc_npm := polOs_wielka p - 6371.0 |}.

(** The midpoint of two coordinates, component by component. *)
Definition punkt_srodkowy (p q : WspolrzedneGeodezyjne) : WspolrzedneGeodezyjne :=
  {| szer_geogr := (szer_geogr p + szer_geogr q) / 2;
     dlug_geogr := (dlug_geogr p + dlug_geogr q) / 2;
     wysokosc_npm := (wysokosc_npm p + wysokosc_npm q) / 2 |}.

(** The Euclidean distance of the Cartesian forms. *)
Definition odleglosc (p q : WspolrzedneGeodezyjne) : R :=
  let '(x1, y1, z1) := do_kartezjanskich p in
  let '(x2, y2, z2) := do_kartezjanskich q in
  sqrt ((x2 - x1) ^ 2 + (y2 - y1) ^ 2 + (z2 - z1) ^ 2).

(** The orbital parameters that the position service builds for a
    catalogue object, and the coordinate it then obtains at instant [t]. *)
Definition parametry_obiektu (o : ModelObiektuBD) : ParametryOrbitalne :=
  {| polOs_wielka := SREDNICA_BAZOWA_ZIEMI + wysokosc_km (orbita_ref o);
     inklinacja_kat := kat_inklinacji (orbita_ref o);
     wezl_wstepujacy := wezel_wst (orbita_ref o) |}.

Definition pozycja_obiektu (o : ModelObiektuBD) (t : datetime)
  : WspolrzedneGeodezyjne :=
  wspolrzedne (predkosc_katowa_z_progiem (polOs_wielka (parametry_obiektu o)))
              (parametry_obiektu o)
              (total_seconds (t - data_wprowadzenia o)%Z)
              (pozycja_startowa_lon o).

(** The grid line chosen for [dt]: the rounded quotient times the step. *)
Definition zaokraglenie (dt : datetime) (delta : timedelta) : Z :=
  (py_round (timestamp_Q dt / total_seconds_Q delta) * delta)%Z.

(** The events that one pair of ids contributes at a tick with position map
    [m]: one event when both ids have a position and the distance is below
    the threshold, none otherwise. *)
Definition zdarzenia_pary (prog : R) (m : dict WspolrzedneGeodezyjne)
    (t : datetime) (para : Z * Z) : list ZdarzeniePrzestrz :=
  match dict_get m (fst para), dict_get m (snd para) with
  | Some pa, Some pb =>
      if Rlt_dec (odleglosc pa pb) prog then
        [ {| obiekt_id_a := Z.min (fst para) (snd para);
             obiekt_id_b := Z.max (fst para) (snd para);
             moment_czasu := t;
             lokalizacja := pa;
             dystans_min := odleglosc pa pb |} ]
      else []
  | _, _ => []
  end.

(** All events of one tick, in the order of the pair loops. *)
Definition zdarzenia_kroku (prog : R) (m : dict WspolrzedneGeodezyjne)
    (t : datetime) : list ZdarzeniePrzestrz :=
  flat_map (zdarzenia_pary prog m t) (pary (sorted (dict_keys m))).

(** Every distance that the pair loops need at a tick with position map [m]
    is computed: none of the squares overflows. *)
Definition odleglosci_obliczone (m : dict WspolrzedneGeodezyjne) : Prop :=
  forall a b pa pb,
    (a < b)%Z -> dict_get m a = Some pa -> dict_get m b = Some pb ->
    dystans_do pa pb = Zwraca (odleglosc pa pb).

(** [t] is a tick of the scan of [[czas_start, czas_koniec]] with a forward
    step: a grid point between the two snapped ends. *)
Definition tyk_siatki (czas_start czas_koniec : datetime) (delta : timedelta)
    (t : datetime) : Prop :=
  exists s k n,
    Api.zaokraglij_do_siatki czas_start delta = Zwraca s /\
    Api.zaokraglij_do_siatki czas_koniec delta = Zwraca k /\
    (0 <= n)%Z /\ t = (s + n * delta)%Z /\ (t <= k)%Z.

(** ** Precision tokens *)

(** A line feed, the one character that [$] lets follow the token. *)
Definition LF : string := String (ascii_of_nat 10) EmptyString.

(** A non-empty run of ASCII digits. *)
Definition same_cyfry (s : string) : Prop :=
  s <> EmptyString /\ Forall (fun c => Api.czy_cyfra c = true) (list_ascii_of_string s).

(** Microseconds in one unit of the token. *)
Definition mnoznik (j : string) : Z :=
  if String.eqb j "ms" then 1000
  else if String.eqb j "s" then 1000000
  else if String.eqb j "m" then 60000000
  else if String.eqb j "h" then 3600000000
  else 86400000000.

(** A text that does not start with a digit. *)
Definition bez_cyfry_na_poczatku (r : string) : Prop :=
  match r with
  | EmptyString => True
  | String c _ => Api.czy_cyfra c = false
  end.

End Wzory.

(* ================================================================== *)
(** * Sample catalogues *)
(* ================================================================== *)

Module Przyklady.

Import Py Modele.
Local Open Scope R_scope.

(** An orbit 550 km above the surface, inclined by 51.6 degrees. *)
Definition orbita_leo : ModelOrbityBD :=
  {| orb_id_rekordu := 1; wysokosc_km := 550; kat_inklinacji := 51.6; wezel_wst := 0 |}.

(** An orbit row whose altitude cancels the Earth radius: the semi-major
    axis is 0 and the period is below the epsilon. *)
Definition orbita_zdegenerowana : ModelOrbityBD :=
  {| orb_id_rekordu := 2; wysokosc_km := -6371.0; kat_inklinacji := 0; wezel_wst := 0 |}.

Definition obiekt (id : Z) (epoka : datetime) (stan : string) (orbita : ModelOrbityBD)
  : ModelObiektuBD :=
  {| id_rekordu := id;
     data_wprowadzenia := epoka;
     stan_operacyjny := stan;
     pozycja_startowa_lon := 0;
     id_orbity_powiazanej := orb_id_rekordu orbita;
     orbita_ref := orbita |}.

Definition GODZINA : timedelta := 3600000000%Z.
Definition MINUTA : timedelta := 60000000%Z.

(** Two active objects on the same orbit with the same start, one active
    object introduced an hour after the Unix epoch, one inactive object. *)
Definition katalog : list ModelObiektuBD :=
  [ obiekt 2 0%Z "active" orbita_leo;
    obiekt 3 GODZINA "active" orbita_leo;
    obiekt 1 0%Z "active" orbita_leo;
    obiekt 4 0%Z "inactive" orbita_leo ].

(** Two active objects on the degenerate orbit. *)
Definition katalog_zdegenerowany : list ModelObiektuBD :=
  [ obiekt 1 0%Z "active" orbita_zdegenerowana;
    obiekt 2 0%Z "active" orbita_zdegenerowana ].

(** The event between objects 1 and 2 of [katalog] at instant [t]. *)
Definition zdarzenie_leo (t : datetime) : ZdarzeniePrzestrz :=
  {| obiekt_id_a := 1;
     obiekt_id_b := 2;
     moment_czasu := t;
     lokalizacja := Wzory.pozycja_obiektu (obiekt 1 0%Z "active" orbita_leo) t;
     dystans_min := 0 |}.

(** The event between the two objects of [katalog_zdegenerowany]. *)
Definition zdarzenie_zdegenerowane (t : datetime) : ZdarzeniePrzestrz :=
  {| obiekt_id_a := 1;
     obiekt_id_b := 2;
     moment_czasu := t;
     lokalizacja := Wzory.pozycja_obiektu (obiekt 1 0%Z "active" orbita_zdegenerowana) t;
     dystans_min := 0 |}.

(** The parameters of the degenerate-orbit counterexample of the
    propagation formula: one millimetre of semi-major axis, polar orbit, and
    the elapsed time after which the unguarded angular velocity has turned
    the object by a quarter of a revolution. *)
Definition parametry_milimetr : ParametryOrbitalne :=
  {| polOs_wielka := 1e-6; inklinacja_kat := 90; wezl_wstepujacy := 0 |}.

Definition czas_cwierc_obrotu : R := PI / 2 * sqrt (1e-6 ^ 3 / 398600.4418).

End Przyklady.

(* ================================================================== *)
(** * [satelity_modele.py]: limits, enumerations and schemas *)
(* ================================================================== *)

Module Schematy.

Import Py Modele.
Local Open Scope R_scope.

Definition MINIMALNA_WYSOKOSC_ORBITY : R := 160.0.
Definition MAKSYMALNA_WYSOKOSC_ORBITY : R := 40000.0.

(** [KategoriaPrecyzji] and the [value] of its members. *)
Inductive KategoriaPrecyzji : Type :=
  | MILISEKUNDY
  | SEKUNDY
  | MINUTY
  | GODZINY
  | DNI.

Definition KategoriaPrecyzji_value (k : KategoriaPrecyzji) : string :=
  match k with
  | MILISEKUNDY => "ms"
  | SEKUNDY => "s"
  | MINUTY => "m"
  | GODZINY => "h"
  | DNI => "d"
  end.

(** Comparisons of floats as truth values. *)
Definition mniejsze (x y : R) : bool := if Rlt_dec x y then true else false.
Definition nie_wieksze (x y : R) : bool := if Rle_dec x y then true else false.

(** [SchematOrbitWejscie]: the fields, and the [Field] constraints that an
    instance has passed ([gt], [ge], [le], [lt], [min_length],
    [max_length]). *)
Module SchematOrbitWejscie.

Record t : Type := {
  identyfikator_orbity : string;
  wysokosc_km : R;
  kat_inklinacji : R;
  wezel_wst : R
}.

Definition waliduj (dane : t) : bool :=
  (1 <=? String.length (identyfikator_orbity dane))%nat
  && (String.length (identyfikator_orbity dane) <=? 100)%nat
  && mniejsze MINIMALNA_WYSOKOSC_ORBITY (wysokosc_km dane)
  && nie_wieksze (wysokosc_km dane) MAKSYMALNA_WYSOKOSC_ORBITY
  && nie_wieksze 0 (kat_inklinacji dane)
  && nie_wieksze (kat_inklinacji dane) 180
  && nie_wieksze 0 (wezel_wst dane)
  && mniejsze (wezel_wst dane) 360.

End SchematOrbitWejscie.

(** The row that [utworz_orbite] and [aktualizuj_orbite] store for a
    validated input, under the id [id] of the record. *)
Definition wiersz_orbity (id : Z) (dane_wej : SchematOrbitWejscie.t) : ModelOrbityBD :=
  {| orb_id_rekordu := id;
     wysokosc_km := SchematOrbitWejscie.wysokosc_km dane_wej;
     kat_inklinacji := SchematOrbitWejscie.kat_inklinacji dane_wej;
     wezel_wst := SchematOrbitWejscie.wezel_wst dane_wej |}.

(** [SchematPozycjiWyjscie] *)
Record SchematPozycjiWyjscie : Type := {
  szerokosc : R;
  dlugosc : R;
  wysokosc : R
}.

(** [SchematZdarzeniaKolizji] *)
Record SchematZdarzeniaKolizji : Type := {
  satelita1 : Z;
  satelita2 : Z;
  czas : string;
  pozycja : SchematPozycjiWyjscie
}.

End Schematy.

(* ================================================================== *)
(** * [satelity_serwisy.py]: helper functions *)
(* ================================================================== *)

Module Pomocnicze.

Import Py Modele Schematy.
Local Open Scope R_scope.

(** [oblicz_roznice_czasu]; the default of [kategoria] is [SEKUNDY].  The
    table [konwersje] has an entry for each member of the enumeration. *)
Definition oblicz_roznice_czasu (czas_start czas_koniec : datetime)
    (kategoria : KategoriaPrecyzji) : R :=
  let delta := (czas_koniec - czas_start)%Z in
  let sekundy := total_seconds delta in
  match kategoria with
  | MILISEKUNDY => sekundy * 1000
  | SEKUNDY => sekundy
  | MINUTY => sekundy / 60
  | GODZINY => sekundy / 3600
  | DNI => sekundy / 86400
  end.

Definition waliduj_parametry_orbitalne (wysokosc inklinacja raan : R) : bool :=
  if negb (nie_wieksze MINIMALNA_WYSOKOSC_ORBITY wysokosc
           && nie_wieksze wysokosc MAKSYMALNA_WYSOKOSC_ORBITY)
  then false
  else if negb (nie_wieksze 0 inklinacja && nie_wieksze inklinacja 180)
  then false
  else if negb (nie_wieksze 0 raan && mniejsze raan 360)
  then false
  else true.

End Pomocnicze.

(* ================================================================== *)
(** * [satelity_api.py]: validators and endpoints *)
(* ================================================================== *)

Module Endpointy.

Import Py Modele Schematy.

(** What a call of an endpoint function ends with: the response value, an
    [HTTPException], or another exception that leaves the function. *)
Inductive odpowiedz (A : Type) : Type :=
  | Odpowiedz (a : A)
  | HTTPException (status_code : Z) (detail : string)
  | Wyjatek (e : wyjatek).

Arguments Odpowiedz {A} a.
Arguments HTTPException {A} status_code detail.
Arguments Wyjatek {A} e.

(** The sort key of [wykryj_zblizenia] and the order of Python tuples. *)
Definition klucz (z : ZdarzeniePrzestrz) : Z * Z * Z :=
  (moment_czasu z, obiekt_id_a z, obiekt_id_b z).

Definition krotka_mniejsza (k1 k2 : Z * Z * Z) : bool :=
  let '(t1, a1, b1) := k1 in
  let '(t2, a2, b2) := k2 in
  if (t1 =? t2)%Z then
    if (a1 =? a2)%Z then (b1 <? b2)%Z else (a1 <? a2)%Z
  else (t1 <? t2)%Z.

(** [list.sort(key=...)]: the stable sort, by insertion. *)
Fixpoint wstaw_zdarzenie (z : ZdarzeniePrzestrz) (l : list ZdarzeniePrzestrz)
  : list ZdarzeniePrzestrz :=
  match l with
  | [] => [z]
  | y :: rest =>
      if krotka_mniejsza (klucz y) (klucz z) then y :: wstaw_zdarzenie z rest
      else z :: y :: rest
  end.

Fixpoint list_sort (l : list ZdarzeniePrzestrz) : list ZdarzeniePrzestrz :=
  match l with
  | [] => []
  | z :: rest => wstaw_zdarzenie z (list_sort rest)
  end.

Section Aplikacja.

(** The library functions of the endpoints: the built-in [int] on a text
    ([None] for its [ValueError]), [dateutil.parser.isoparse] ([None] for
    its [ValueError]) and [strftime] with the format of the responses,
    ["%Y-%m-%dT%H:%M:%SZ"]. *)
Variable int : string -> option Z.
Variable isoparse : string -> option datetime.
Variable strftime : datetime -> string.

(** [waliduj_identyfikator_dodatni]: the [HTTPException] raised inside the
    [try] is not a [ValueError] and passes the handler. *)
Definition waliduj_identyfikator_dodatni (id_str : string) : odpowiedz Z :=
  match int id_str with
  | Some id_int =>
      if (id_int <=? 0)%Z
      then HTTPException 400 "Nieprawidłowy format identyfikatora"
      else Odpowiedz id_int
  | None => HTTPException 400 "Nieprawidłowy format identyfikatora"
  end.

(** [GET /satelity/{id}/pozycja] *)
Definition oblicz_pozycje_obiektu (id_zasobu timestamp : string)
    (sesja : Serwisy.Session) : odpowiedz SchematPozycjiWyjscie :=
  match waliduj_identyfikator_dodatni id_zasobu with
  | HTTPException status_code detail =>
      if (status_code =? 400)%Z
      then HTTPException 400 "Nieprawidłowy identyfikator lub znacznik czasu"
      else HTTPException status_code detail
  | Wyjatek e => Wyjatek e
  | Odpowiedz id_val =>
      match find (fun o => (id_rekordu o =? id_val)%Z) (Serwisy.tab_obiekty sesja) with
      | None => HTTPException 404 "Satellite not found"
      | Some obiekt =>
          match Serwisy.waliduj_znacznik
                  (WalidatorCzasowy := Serwisy.WalidatorISO8601 isoparse) timestamp with
          | Rzuca BladWalidacjiCzasu =>
              HTTPException 400 "Nieprawidłowy format znacznika czasu"
          | Rzuca e => Wyjatek e
          | Zwraca znacznik =>
              let data_wprowadzenia := data_wprowadzenia obiekt in
              if (znacznik <? data_wprowadzenia)%Z
              then HTTPException 400 "Znacznik czasu przed datą wprowadzenia"
              else
                match Api.oblicz_pozycje_w_czasie obiekt znacznik with
                | Rzuca e => Wyjatek e
                | Zwraca None => HTTPException 400 "Nie można obliczyć pozycji"
                | Zwraca (Some wspolrzedne) =>
                    Odpowiedz {| szerokosc := szer_geogr wspolrzedne;
                                 dlugosc := dlug_geogr wspolrzedne;
                                 wysokosc := wysokosc_npm wspolrzedne |}
                end
          end
      end
  end.

(** The conversion of an event in the response of [GET /zblizenia]. *)
Definition zdarzenie_wyjsciowe (z : ZdarzeniePrzestrz) : SchematZdarzeniaKolizji :=
  {| satelita1 := obiekt_id_a z;
     satelita2 := obiekt_id_b z;
     czas := strftime (moment_czasu z);
     pozycja := {| szerokosc := szer_geogr (lokalizacja z);
                   dlugosc := dlug_geogr (lokalizacja z);
                   wysokosc := wysokosc_npm (lokalizacja z) |} |}.

(** The one answer of [GET /zblizenia] to every failure. *)
Definition blad_zblizen {A : Type} : odpowiedz A :=
  HTTPException 400 "Nieprawidłowy format znacznika czasu".

(** The rows of [sesja.query(ModelObiektuBD).join(ModelOrbityBD).all()]: the
    objects whose orbit is in the catalogue of orbits. *)
Definition obiekty_z_orbitami (sesja : Serwisy.Session) : list ModelObiektuBD :=
  filter (fun o => existsb (fun r => (orb_id_rekordu r =? id_orbity_powiazanej o)%Z)
                           (Serwisy.tab_orbity sesja))
         (Serwisy.tab_obiekty sesja).

(** [GET /zblizenia].  The detector is the module-level one, with the
    threshold [TOLERANCJA_ZBLIZENIA]; [None] stands for a scan that the
    fuel of the loop did not cover. *)
Definition wykryj_zblizenia (start_date end_date precision : string)
    (sesja : Serwisy.Session) : option (odpowiedz (list SchematZdarzeniaKolizji)) :=
  let walidator := Serwisy.WalidatorISO8601 isoparse in
  match Serwisy.waliduj_znacznik (WalidatorCzasowy := walidator) start_date with
  | Rzuca _ => Some blad_zblizen
  | Zwraca dt_start =>
      match Serwisy.waliduj_znacznik (WalidatorCzasowy := walidator) end_date with
      | Rzuca _ => Some blad_zblizen
      | Zwraca dt_koniec =>
          if (dt_koniec <=? dt_start)%Z then Some blad_zblizen
          else
            match Api.parsuj_precyzje precision with
            | Rzuca _ => Some blad_zblizen
            | Zwraca delta_czasu =>
                let obiekty := obiekty_z_orbitami sesja in
                match Api.wykryj_zdarzenia_w_przedziale TOLERANCJA_ZBLIZENIA
                        obiekty dt_start dt_koniec delta_czasu with
                | None => None
                | Some (Rzuca _) => Some blad_zblizen
                | Some (Zwraca zdarzenia) =>
                    let zdarzenia := list_sort zdarzenia in
                    Some (Odpowiedz (map zdarzenie_wyjsciowe zdarzenia))
                end
            end
      end
  end.

End Aplikacja.

End Endpointy.

(* ================================================================== *)
(** * Orders used in the statements about the endpoints *)
(* ================================================================== *)

Module Porzadki.

Import Py Modele.

(** The lexicographic order of the pairs of ids. *)
Definition para_mniejsza (p q : Z * Z) : Prop :=
  (fst p < fst q)%Z \/ (fst p = fst q /\ (snd p < snd q)%Z).

(** One event comes strictly before another in the order of the sort key
    of the endpoint. *)
Definition klucz_rosnie (x y : ZdarzeniePrzestrz) : Prop :=
  Endpointy.krotka_mniejsza (Endpointy.klucz x) (Endpointy.klucz y) = true.

End Porzadki.

(* ================================================================== *)
(** * Sample requests *)
(* ================================================================== *)

Module Probki.

Import Py Modele Schematy.
Local Open Scope R_scope.

(** A validated orbit input, and an active object on its row. *)
Definition dane_leo : SchematOrbitWejscie.t :=
  {| SchematOrbitWejscie.identyfikator_orbity := "LEO-550";
     SchematOrbitWejscie.wysokosc_km := 550;
     SchematOrbitWejscie.kat_inklinacji := 51.6;
     SchematOrbitWejscie.wezel_wst := 0 |}.

Definition obiekt_leo (id : Z) (epoka : datetime) : ModelObiektuBD :=
  Przyklady.obiekt id epoka "active" (wiersz_orbity 1 dane_leo).

(** A catalogue with two objects on that orbit, introduced at the Unix
    epoch. *)
Definition sesja_leo : Serwisy.Session :=
  {| Serwisy.tab_obiekty := [obiekt_leo 2 0%Z; obiekt_leo 1 0%Z];
     Serwisy.tab_orbity := [wiersz_orbity 1 dane_leo] |}.

(** A library function for the samples: every timestamp text of a request
    reads as the instant [dt]. *)
Definition isoparse_staly (dt : datetime) : string -> option datetime :=
  fun _ => Some dt.

End Probki.

(* ================================================================== *)
(** * The same functions in binary64 *)
(* ================================================================== *)

(** The exact-real definitions above leave rounding out.  For the two
    functions whose stated properties rounding decides, the normalisation of
    the longitude and the snapping to the time grid, this module gives the
    computation as CPython performs it on IEEE 754 binary64 numbers: the
    primitive floats of Rocq with their correctly rounded [+], [-], [*] and
    [/], and exact integer arithmetic for the operations that are exact in
    C ([fmod], [modf], [round]) or correctly rounded from integers (the true
    division of two [int]). *)
Module Binary64.

Import Stdlib.Floats.PrimFloat Stdlib.Floats.SpecFloat Stdlib.Floats.FloatOps.
Import Py.
Local Open Scope Z_scope.

(** The binary64 number nearest to [m * 2^e] (ties to even); it is
    [m * 2^e] itself when that is a binary64 number. *)
Definition z_ulamka (m e : Z) (szero : bool) : float :=
  SF2Prim (binary_normalize prec emax m e szero).

Definition czy_ujemna (x : float) : bool := (x <? 0)%float.

(** C [fmod(x, y)]: the exact remainder of the division truncated towards
    zero, with the sign of [x]. *)
Definition fmod (x y : float) : float :=
  match Prim2SF x, Prim2SF y with
  | S754_nan, _ | _, S754_nan => nan
  | S754_infinity _, _ => nan
  | _, S754_zero _ => nan
  | S754_zero _, _ => x
  | S754_finite _ _ _, S754_infinity _ => x
  | S754_finite sx mx ex, S754_finite _ my ey =>
      let e := Z.min ex ey in
      let r := (Zpos mx * 2 ^ (ex - e)) mod (Zpos my * 2 ^ (ey - e)) in
      z_ulamka (if sx then - r else r) e sx
  end.

(** [x % y] on two [float]: [float_rem] of CPython. *)
Definition float_mod (x y : float) : wynik float :=
  if (y =? 0)%float then Rzuca ZeroDivisionError
  else
    let reszta := fmod x y in
    if (reszta =? 0)%float then Zwraca (if get_sign y then neg_zero else zero)
    else if xorb (czy_ujemna y) (czy_ujemna reszta) then Zwraca (reszta + y)%float
    else Zwraca reszta.

(** [PropagatorKeplerowski._normalizuj_dlugosc] *)
Definition _normalizuj_dlugosc (dlugosc_deg : float) : wynik float :=
  reszta <- float_mod (dlugosc_deg + 180)%float 360%float ;;
  Zwraca (reszta - 180)%float.

(** [a / b] on two [int]: the quotient correctly rounded, by a quotient of
    at least 55 bits with a sticky bit for the remainder. *)
Definition int_truediv (a b : Z) : wynik float :=
  if b =? 0 then Rzuca ZeroDivisionError
  else
    let ujemny := xorb (a <? 0) (b <? 0) in
    let k := Z.max 0 (55 + Z.log2 (Z.abs b) - Z.log2 (Z.abs a) + 1) in
    let q := (Z.abs a * 2 ^ k) / Z.abs b in
    let r := (Z.abs a * 2 ^ k) mod Z.abs b in
    let m := 2 * q + (if r =? 0 then 0 else 1) in
    let x := z_ulamka (if ujemny then - m else m) (- k - 1) (b <? 0) in
    if is_infinity x then Rzuca OverflowError else Zwraca x.

(** [datetime.timestamp()] of an aware [datetime] and
    [timedelta.total_seconds()]: microseconds divided by [10**6]. *)
Definition timestamp (dt : datetime) : wynik float := int_truediv dt 1000000.
Definition total_seconds (delta : timedelta) : wynik float := int_truediv delta 1000000.

(** [x / y] on two [float]. *)
Definition float_div (x y : float) : wynik float :=
  if (y =? 0)%float then Rzuca ZeroDivisionError else Zwraca (x / y)%float.

(** A finite number rounded to the nearest integer, ties to even. *)
Definition zaokraglij_parzyscie (s : bool) (m : positive) (e : Z) : Z :=
  let k :=
    if 0 <=? e then Zpos m * 2 ^ e
    else
      let d := 2 ^ (- e) in
      let f := Zpos m / d in
      let r := Zpos m mod d in
      if 2 * r <? d then f
      else if d <? 2 * r then f + 1
      else if Z.even f then f else f + 1 in
  if s then - k else k.

(** [round(x)] on a [float], without digits. *)
Definition py_round (x : float) : wynik Z :=
  match Prim2SF x with
  | S754_nan => Rzuca ValueError
  | S754_infinity _ => Rzuca OverflowError
  | S754_zero _ => Zwraca 0
  | S754_finite s m e => Zwraca (zaokraglij_parzyscie s m e)
  end.

(** [k * x] for an [int] and a [float]: the [int] is converted first. *)
Definition int_mul_float (k : Z) (x : float) : wynik float :=
  let kf := z_ulamka k 0 false in
  if is_infinity kf then Rzuca OverflowError else Zwraca (kf * x)%float.

(** [datetime.fromtimestamp(t, tz=timezone.utc)]: [modf], the fraction
    times [1e6] rounded to an integer (ties to even), and the carry; seconds
    beyond the 64-bit [time_t] raise [OverflowError], a year outside 1..9999
    raises [ValueError]. *)
Definition fromtimestamp (t : float) : wynik datetime :=
  match Prim2SF t with
  | S754_nan => Rzuca ValueError
  | S754_infinity _ => Rzuca OverflowError
  | S754_zero _ => Zwraca 0
  | S754_finite s m e =>
      let calkowita := if 0 <=? e then Zpos m * 2 ^ e else Zpos m / 2 ^ (- e) in
      let ulamek := if 0 <=? e then 0 else Zpos m mod 2 ^ (- e) in
      let intpart := if s then - calkowita else calkowita in
      let floatpart := z_ulamka (if s then - ulamek else ulamek) e s in
      match py_round (floatpart * 1000000)%float with
      | Rzuca err => Rzuca err
      | Zwraca us =>
          let wynik_us :=
            if 1000000 <=? us then (intpart + 1) * 1000000 + (us - 1000000)
            else if us <? 0 then (intpart - 1) * 1000000 + (us + 1000000)
            else intpart * 1000000 + us in
          if (intpart <? - 2 ^ 63) || (2 ^ 63 <=? intpart) then Rzuca OverflowError
          else if w_zakresie_datetime wynik_us then Zwraca wynik_us
          else Rzuca ValueError
      end
  end.

(** [SerwisAnalizyZdarzen.zaokraglij_do_siatki] *)
Definition zaokraglij_do_siatki (dt : datetime) (delta : timedelta)
  : wynik datetime :=
  timestamp <- timestamp dt ;;
  delta_sekund <- total_seconds delta ;;
  iloraz <- float_div timestamp delta_sekund ;;
  k <- py_round iloraz ;;
  zaokraglony <- int_mul_float k delta_sekund ;;
  fromtimestamp zaokraglony.

End Binary64.

(* ================================================================== *)
(** * Facts about the Python primitives *)
(* ================================================================== *)

Section FaktyLiczbowe.

Import Py Modele.
Local Open Scope R_scope.

Lemma bind_zwraca (A B : Type) (c : wynik A) (k : A -> wynik B) (b : B) :
  bind c k = Zwraca b -> exists a, c = Zwraca a /\ k a = Zwraca b.
Proof.
  destruct c as [a | e]; simpl; intros H.
  - exists a; split; [reflexivity | exact H].
  - discriminate H.
Qed.

(** A positive modulus gives a remainder in [[0, m)]. *)
Lemma float_mod_zakres (x m : R) : 0 < m -> 0 <= float_mod x m < m.
Proof.
  intros Hm. unfold float_mod.
  destruct (Zfloor_bound (x / m)) as [Hlo Hhi].
  assert (Hx : x = m * (x / m)) by (field; lra).
  split.
  - apply Rmult_le_compat_l with (r := m) in Hlo; lra.
  - apply Rmult_lt_compat_l with (r := m) in Hhi; lra.
Qed.

(** A value already in [[0, m)] is its own remainder. *)
Lemma float_mod_maly (x m : R) : 0 <= x < m -> float_mod x m = x.
Proof.
  intros [Hlo Hhi]. unfold float_mod.
  assert (Hm : 0 < m) by lra.
  assert (Hf : Zfloor (x / m) = 0%Z).
  { apply Zfloor_eq. simpl. split.
    - apply Rmult_le_pos; [lra | left; apply Rinv_0_lt_compat; lra].
    - apply Rmult_lt_reg_r with (r := m); [lra |].
      unfold Rdiv. rewrite Rmult_assoc, Rinv_l by lra. lra. }
  rewrite Hf. simpl. lra.
Qed.

Lemma math_sqrt_nieujemny (x : R) : 0 <= x -> math_sqrt x = Zwraca (sqrt x).
Proof.
  intros Hx. unfold math_sqrt. destruct (Rlt_dec x 0) as [Hneg | _]; [lra | reflexivity].
Qed.

Lemma math_sqrt_ujemny (x : R) : x < 0 -> math_sqrt x = Rzuca ValueError.
Proof.
  intros Hx. unfold math_sqrt. destruct (Rlt_dec x 0) as [_ | Hn]; [reflexivity | lra].
Qed.

Lemma math_asin_w_dziedzinie (x : R) : -1 <= x <= 1 -> math_asin x = Zwraca (asin x).
Proof.
  intros [Hlo Hhi]. unfold math_asin.
  destruct (Rle_dec (-1) x) as [_ | Hn]; [| lra].
  destruct (Rle_dec x 1) as [_ | Hn]; [reflexivity | lra].
Qed.

(** The product of two sines is a legal argument of [asin]. *)
Lemma iloczyn_sinusow_zakres (x y : R) : -1 <= sin x * sin y <= 1.
Proof.
  pose proof (SIN_bound x) as [Hx1 Hx2].
  pose proof (SIN_bound y) as [Hy1 Hy2].
  split; nra.
Qed.

Lemma math_asin_iloczyn_sinusow (x y : R) :
  math_asin (sin x * sin y) = Zwraca (asin (sin x * sin y)).
Proof. apply math_asin_w_dziedzinie, iloczyn_sinusow_zakres. Qed.

Lemma dwa_pi_dodatnie : 0 < 2 * PI.
Proof. pose proof PI_RGT_0. lra. Qed.

(** ** The power operator *)

Lemma FLOAT_MAX_zakres : 1e308 <= FLOAT_MAX < 1e309.
Proof.
  unfold FLOAT_MAX.
  set (z := ((2 ^ 53 - 1) * 2 ^ 971)%Z).
  assert (H1 : (10 ^ 308 <= z)%Z) by (vm_compute; discriminate).
  assert (H2 : (z < 10 ^ 309)%Z) by (vm_compute; reflexivity).
  apply IZR_le in H1. apply IZR_lt in H2. lra.
Qed.

Lemma float_pow_w_zakresie (x : R) (n : nat) :
  Rabs (x ^ n) <= FLOAT_MAX -> float_pow x n = Zwraca (x ^ n).
Proof.
  intros H. unfold float_pow.
  destruct (Rlt_dec FLOAT_MAX (Rabs (x ^ n))) as [Hgt | _]; [lra | reflexivity].
Qed.

Lemma float_pow_przepelnienie (x : R) (n : nat) :
  FLOAT_MAX < Rabs (x ^ n) -> float_pow x n = Rzuca OverflowError.
Proof.
  intros H. unfold float_pow.
  destruct (Rlt_dec FLOAT_MAX (Rabs (x ^ n))) as [_ | Hn]; [reflexivity | contradiction].
Qed.

Lemma float_pow_przypadki (x : R) (n : nat) :
  float_pow x n = Zwraca (x ^ n) \/ float_pow x n = Rzuca OverflowError.
Proof.
  unfold float_pow. destruct (Rlt_dec FLOAT_MAX (Rabs (x ^ n))); auto.
Qed.

(** ** The distance *)

(** The radicand of the distance is a sum of squares, so [math.sqrt]
    returns: the distance is the Euclidean one unless a square overflows. *)
Lemma dystans_do_przypadki (p q : WspolrzedneGeodezyjne) :
  dystans_do p q = Zwraca (Wzory.odleglosc p q) \/
  dystans_do p q = Rzuca OverflowError.
Proof.
  unfold dystans_do, Wzory.odleglosc.
  destruct (do_kartezjanskich p) as [[x1 y1] z1].
  destruct (do_kartezjanskich q) as [[x2 y2] z2].
  destruct (float_pow_przypadki (x2 - x1) 2) as [-> | ->]; [| auto].
  destruct (float_pow_przypadki (y2 - y1) 2) as [-> | ->]; [| auto].
  destruct (float_pow_przypadki (z2 - z1) 2) as [-> | ->]; [| auto].
  left. simpl bind. apply math_sqrt_nieujemny.
  pose proof (pow2_ge_0 (x2 - x1)). pose proof (pow2_ge_0 (y2 - y1)).
  pose proof (pow2_ge_0 (z2 - z1)). lra.
Qed.

Lemma dystans_do_zwraca (p q : WspolrzedneGeodezyjne) (d : R) :
  dystans_do p q = Zwraca d -> d = Wzory.odleglosc p q.
Proof.
  destruct (dystans_do_przypadki p q) as [-> | ->]; intros H.
  - inversion H; reflexivity.
  - discriminate H.
Qed.

Lemma wspolrzedna_ograniczona (r u v : R) :
  -1 <= u <= 1 -> -1 <= v <= 1 -> Rabs (r * u * v) <= Rabs r.
Proof.
  intros Hu Hv. rewrite !Rabs_mult.
  assert (Hau : Rabs u <= 1) by (apply Rabs_le; lra).
  assert (Hav : Rabs v <= 1) by (apply Rabs_le; lra).
  pose proof (Rabs_pos r). pose proof (Rabs_pos u). pose proof (Rabs_pos v).
  assert (Rabs r * Rabs u <= Rabs r) by nra.
  nra.
Qed.

Lemma kwadrat_roznicy_w_zakresie (granica x1 x2 : R) :
  granica <= 1e150 -> Rabs x1 <= granica -> Rabs x2 <= granica ->
  Rabs ((x2 - x1) ^ 2) <= FLOAT_MAX.
Proof.
  intros Hg H1 H2. destruct FLOAT_MAX_zakres as [Hmax _].
  rewrite Rabs_pos_eq by apply pow2_ge_0.
  assert (Hd : Rabs (x2 - x1) <= 2e150).
  { unfold Rminus. eapply Rle_trans; [apply Rabs_triang |].
    rewrite Rabs_Ropp. lra. }
  assert (Hsq : (x2 - x1) ^ 2 = Rabs (x2 - x1) * Rabs (x2 - x1)).
  { rewrite <- Rabs_mult, Rabs_pos_eq; [ring |].
    replace ((x2 - x1) * (x2 - x1)) with ((x2 - x1) ^ 2) by ring. apply pow2_ge_0. }
  rewrite Hsq. pose proof (Rabs_pos (x2 - x1)).
  assert (Rabs (x2 - x1) * Rabs (x2 - x1) <= 2e150 * 2e150) by nra.
  lra.
Qed.

(** Between coordinates that are not astronomically far from the Earth no
    square overflows and the distance is the Euclidean one. *)
Lemma dystans_do_ograniczone (granica : R) (p q : WspolrzedneGeodezyjne) :
  granica <= 1e150 ->
  Wzory.promien_ograniczony granica p -> Wzory.promien_ograniczony granica q ->
  dystans_do p q = Zwraca (Wzory.odleglosc p q).
Proof.
  unfold Wzory.promien_ograniczony. intros Hg Hp Hq.
  unfold dystans_do, Wzory.odleglosc, do_kartezjanskich.
  set (rp := SREDNICA_BAZOWA_ZIEMI + wysokosc_npm p) in *.
  set (rq := SREDNICA_BAZOWA_ZIEMI + wysokosc_npm q) in *.
  pose proof (COS_bound (radians (szer_geogr p))) as Hc1.
  pose proof (COS_bound (radians (dlug_geogr p))) as Hc2.
  pose proof (SIN_bound (radians (dlug_geogr p))) as Hs2.
  pose proof (SIN_bound (radians (szer_geogr p))) as Hs1.
  pose proof (COS_bound (radians (szer_geogr q))) as Hc3.
  pose proof (COS_bound (radians (dlug_geogr q))) as Hc4.
  pose proof (SIN_bound (radians (dlug_geogr q))) as Hs4.
  pose proof (SIN_bound (radians (szer_geogr q))) as Hs3.
  assert (Hone : -1 <= 1 <= 1) by lra.
  rewrite !float_pow_w_zakresie.
  - simpl bind. apply math_sqrt_nieujemny.
    match goal with |- 0 <= ?a ^ 2 + ?b ^ 2 + ?c ^ 2 =>
      pose proof (pow2_ge_0 a); pose proof (pow2_ge_0 b); pose proof (pow2_ge_0 c)
    end. lra.
  - apply (kwadrat_roznicy_w_zakresie granica); [exact Hg | |].
    + replace (rp * sin (radians (szer_geogr p)))
        with (rp * sin (radians (szer_geogr p)) * 1) by ring.
      eapply Rle_trans; [apply wspolrzedna_ograniczona; assumption | exact Hp].
    + replace (rq * sin (radians (szer_geogr q)))
        with (rq * sin (radians (szer_geogr q)) * 1) by ring.
      eapply Rle_trans; [apply wspolrzedna_ograniczona; assumption | exact Hq].
  - apply (kwadrat_roznicy_w_zakresie granica); [exact Hg | |].
    + eapply Rle_trans; [apply wspolrzedna_ograniczona; assumption | exact Hp].
    + eapply Rle_trans; [apply wspolrzedna_ograniczona; assumption | exact Hq].
  - apply (kwadrat_roznicy_w_zakresie granica); [exact Hg | |].
    + eapply Rle_trans; [apply wspolrzedna_ograniczona; assumption | exact Hp].
    + eapply Rle_trans; [apply wspolrzedna_ograniczona; assumption | exact Hq].
Qed.

Lemma odleglosc_do_siebie (p : WspolrzedneGeodezyjne) : Wzory.odleglosc p p = 0.
Proof.
  unfold Wzory.odleglosc.
  destruct (do_kartezjanskich p) as [[x1 y1] z1].
  replace ((x1 - x1) ^ 2 + (y1 - y1) ^ 2 + (z1 - z1) ^ 2) with 0 by ring.
  apply sqrt_0.
Qed.

(** The distance of a coordinate to itself is computed, and is 0. *)
Lemma dystans_do_siebie (p : WspolrzedneGeodezyjne) : dystans_do p p = Zwraca 0.
Proof.
  rewrite <- (odleglosc_do_siebie p).
  unfold dystans_do, Wzory.odleglosc.
  destruct (do_kartezjanskich p) as [[x1 y1] z1].
  destruct FLOAT_MAX_zakres as [Hmax _].
  assert (Hz : forall x : R, Rabs ((x - x) ^ 2) <= FLOAT_MAX).
  { intros x. replace ((x - x) ^ 2) with 0 by ring. rewrite Rabs_R0. lra. }
  rewrite !float_pow_w_zakresie by apply Hz.
  simpl bind. apply math_sqrt_nieujemny.
  replace ((x1 - x1) ^ 2 + (y1 - y1) ^ 2 + (z1 - z1) ^ 2) with 0 by ring. lra.
Qed.

Lemma atan_znak_dodatni (x : R) : 0 < x -> 0 < atan x.
Proof. intros Hx. rewrite <- atan_0. apply atan_increasing. exact Hx. Qed.

Lemma atan_znak_ujemny (x : R) : x < 0 -> atan x < 0.
Proof. intros Hx. rewrite <- atan_0. apply atan_increasing. exact Hx. Qed.

(** [atan2] is the angle of the point [(x, y)]: it lies in [(-PI, PI]] and
    its cosine and sine are the normalised coordinates. *)
Lemma atan2_zakres (y x : R) : - PI < atan2 y x <= PI.
Proof.
  unfold atan2. pose proof PI_RGT_0 as Hpi.
  destruct (Rlt_dec 0 x) as [Hx | Hx].
  - pose proof (atan_bound (y / x)). lra.
  - destruct (Rlt_dec x 0) as [Hx' | Hx'].
    + assert (Hinv : / x < 0) by (apply Rinv_lt_0_compat; exact Hx').
      destruct (Rle_dec 0 y) as [Hy | Hy].
      * pose proof (atan_bound (y / x)).
        destruct (Req_dec y 0) as [-> | Hne].
        -- unfold Rdiv. rewrite Rmult_0_l, atan_0. lra.
        -- assert (y / x < 0) by (unfold Rdiv; nra).
           pose proof (atan_znak_ujemny (y / x) H0). lra.
      * pose proof (atan_bound (y / x)).
        assert (0 < y / x) by (unfold Rdiv; nra).
        pose proof (atan_znak_dodatni (y / x) H0). lra.
    + destruct (Rlt_dec 0 y); [lra |]. destruct (Rlt_dec y 0); lra.
Qed.

(** [sqrt (1 + (y/x)^2) = sqrt (x^2 + y^2) / |x|] *)
Lemma pierwiastek_ilorazu (y x : R) :
  x <> 0 -> sqrt (1 + (y / x)²) = sqrt (x² + y²) / Rabs x.
Proof.
  intros Hx.
  assert (Hx2 : 0 < x²) by (apply Rsqr_pos_lt; exact Hx).
  replace (1 + (y / x)²) with ((x² + y²) / x²)
    by (unfold Rsqr; field; exact Hx).
  rewrite sqrt_div_alt by exact Hx2.
  rewrite sqrt_Rsqr_abs. reflexivity.
Qed.

Lemma atan2_biegunowe (y x : R) :
  x <> 0 \/ y <> 0 ->
  cos (atan2 y x) = x / sqrt (x² + y²) /\
  sin (atan2 y x) = y / sqrt (x² + y²).
Proof.
  intros Hxy. unfold atan2.
  assert (Hr : 0 < sqrt (x² + y²)).
  { apply sqrt_lt_R0. destruct Hxy as [H | H].
    - pose proof (Rsqr_pos_lt x H). pose proof (Rle_0_sqr y). lra.
    - pose proof (Rsqr_pos_lt y H). pose proof (Rle_0_sqr x). lra. }
  destruct (Rlt_dec 0 x) as [Hx | Hx].
  - rewrite cos_atan, sin_atan, pierwiastek_ilorazu by lra.
    rewrite Rabs_pos_eq by lra. split; field; lra.
  - destruct (Rlt_dec x 0) as [Hx' | Hx'].
    + assert (Hpol : cos (atan (y / x)) = - x / sqrt (x² + y²) /\
                     sin (atan (y / x)) = - y / sqrt (x² + y²)).
      { rewrite cos_atan, sin_atan, pierwiastek_ilorazu by lra.
        rewrite Rabs_left by lra. split; field; lra. }
      destruct Hpol as [Hc Hs].
      destruct (Rle_dec 0 y) as [Hy | Hy].
      * rewrite neg_cos, neg_sin, Hc, Hs. split; field; lra.
      * unfold Rminus. rewrite cos_plus, sin_plus, cos_neg, sin_neg, cos_PI, sin_PI, Hc, Hs.
        split; field; lra.
    + assert (x = 0) by lra. subst x.
      assert (Hy0 : y <> 0) by (destruct Hxy; [lra | assumption]).
      assert (Hsq : sqrt (0² + y²) = Rabs y).
      { rewrite Rsqr_0, Rplus_0_l. apply sqrt_Rsqr_abs. }
      rewrite Hsq in *.
      destruct (Rlt_dec 0 y) as [Hy | Hy].
      * rewrite cos_PI2, sin_PI2, Rabs_pos_eq by lra. split; field; lra.
      * destruct (Rlt_dec y 0) as [Hy' | Hy']; [| lra].
        rewrite cos_neg, sin_neg, cos_PI2, sin_PI2, Rabs_left by lra.
        split; field; lra.
Qed.

(** The remainder differs from the dividend by a whole number of moduli. *)
Lemma float_mod_wielokrotnosc (x m : R) :
  exists k : Z, x = float_mod x m + m * IZR k.
Proof. exists (Zfloor (x / m)). unfold float_mod. ring. Qed.

End FaktyLiczbowe.

(* ================================================================== *)
(** * The Keplerian propagator *)
(* ================================================================== *)

Section Propagator.

Import Py Modele Serwisy.
Local Open Scope R_scope.

Lemma iloraz_szescianu_znak (a : R) : 0 <= a -> 0 <= a ^ 3 / PARAMETR_GRAWIT_ZIEMI.
Proof.
  intros Ha. unfold PARAMETR_GRAWIT_ZIEMI.
  apply Rmult_le_pos.
  - apply pow_le; exact Ha.
  - left; apply Rinv_0_lt_compat; lra.
Qed.

Lemma iloraz_szescianu_ujemny (a : R) : a < 0 -> a ^ 3 / PARAMETR_GRAWIT_ZIEMI < 0.
Proof.
  intros Ha. unfold PARAMETR_GRAWIT_ZIEMI.
  assert (H2 : 0 < a * a) by nra.
  assert (Hm : a * (a * a) < 0) by nra.
  assert (H3 : a ^ 3 < 0) by (simpl; lra).
  assert (Hinv : 0 < / 398600.4418) by (apply Rinv_0_lt_compat; lra).
  unfold Rdiv. nra.
Qed.

Lemma oblicz_okres_orbitalny_wzor (p : ParametryOrbitalne) :
  Wzory.os_dopuszczalna (polOs_wielka p) ->
  oblicz_okres_orbitalny p = Zwraca (Wzory.okres (polOs_wielka p)).
Proof.
  intros [Ha Hmax]. unfold oblicz_okres_orbitalny.
  rewrite float_pow_w_zakresie
    by (rewrite Rabs_pos_eq; [exact Hmax | apply pow_le; exact Ha]).
  simpl bind.
  rewrite math_sqrt_nieujemny by (apply iloraz_szescianu_znak; exact Ha).
  reflexivity.
Qed.

Lemma oblicz_predkosc_katowa_wzor (p : ParametryOrbitalne) :
  Wzory.os_dopuszczalna (polOs_wielka p) ->
  oblicz_predkosc_katowa p =
  Zwraca (Wzory.predkosc_katowa_z_progiem (polOs_wielka p)).
Proof.
  intros Ha. unfold oblicz_predkosc_katowa.
  rewrite oblicz_okres_orbitalny_wzor by exact Ha. simpl.
  unfold Wzory.predkosc_katowa_z_progiem, EPSILON_NUMERYCZNY.
  destruct (Rlt_dec 1e-9 (Wzory.okres (polOs_wielka p))); f_equal.
  lra.
Qed.

(** A negative semi-major axis makes [math.sqrt] raise in the period. *)
Lemma oblicz_predkosc_katowa_ujemna (p : ParametryOrbitalne) :
  polOs_wielka p < 0 -> Rabs (polOs_wielka p ^ 3) <= FLOAT_MAX ->
  oblicz_predkosc_katowa p = Rzuca ValueError.
Proof.
  intros Ha Hmax. unfold oblicz_predkosc_katowa, oblicz_okres_orbitalny.
  rewrite float_pow_w_zakresie by exact Hmax. simpl bind.
  rewrite math_sqrt_ujemny by (apply iloraz_szescianu_ujemny; exact Ha).
  reflexivity.
Qed.

(** A cube beyond the largest float makes the power raise in the period. *)
Lemma oblicz_predkosc_katowa_przepelnienie (p : ParametryOrbitalne) :
  FLOAT_MAX < Rabs (polOs_wielka p ^ 3) ->
  oblicz_predkosc_katowa p = Rzuca OverflowError.
Proof.
  intros Hmax. unfold oblicz_predkosc_katowa, oblicz_okres_orbitalny.
  rewrite float_pow_przepelnienie by exact Hmax. reflexivity.
Qed.

(** Outside the accepted semi-major axes the angular velocity raises. *)
Lemma oblicz_predkosc_katowa_niedopuszczalna (p : ParametryOrbitalne) :
  ~ Wzory.os_dopuszczalna (polOs_wielka p) ->
  exists e, oblicz_predkosc_katowa p = Rzuca e.
Proof.
  intros Hn. destruct (Rlt_dec FLOAT_MAX (Rabs (polOs_wielka p ^ 3))) as [Hbig | Hsmall].
  - exists OverflowError. apply oblicz_predkosc_katowa_przepelnienie. exact Hbig.
  - exists ValueError. apply oblicz_predkosc_katowa_ujemna; [| lra].
    destruct (Rlt_dec (polOs_wielka p) 0) as [Hneg | Hpos]; [exact Hneg |].
    exfalso. apply Hn. split; [lra |].
    rewrite Rabs_pos_eq in Hsmall by (apply pow_le; lra). lra.
Qed.

(** The propagation for a known angular velocity. *)
Lemma propaguj_pozycje_dla_predkosci (p : ParametryOrbitalne) (omega t l0 : R) :
  oblicz_predkosc_katowa p = Zwraca omega ->
  propaguj_pozycje p t l0 = Zwraca (Wzory.wspolrzedne omega p t l0).
Proof.
  intros Hom. unfold propaguj_pozycje. rewrite Hom. simpl.
  rewrite math_asin_iloczyn_sinusow. simpl.
  unfold Wzory.wspolrzedne, Wzory.argument_orbity, SREDNICA_BAZOWA_ZIEMI.
  reflexivity.
Qed.

Lemma propaguj_pozycje_wzor (p : ParametryOrbitalne) (t l0 : R) :
  Wzory.os_dopuszczalna (polOs_wielka p) ->
  propaguj_pozycje p t l0 =
  Zwraca (Wzory.wspolrzedne (Wzory.predkosc_katowa_z_progiem (polOs_wielka p)) p t l0).
Proof.
  intros Ha. apply propaguj_pozycje_dla_predkosci, oblicz_predkosc_katowa_wzor, Ha.
Qed.

Lemma propaguj_pozycje_niedopuszczalna (p : ParametryOrbitalne) (t l0 : R) :
  ~ Wzory.os_dopuszczalna (polOs_wielka p) ->
  exists e, propaguj_pozycje p t l0 = Rzuca e.
Proof.
  intros Hn. destruct (oblicz_predkosc_katowa_niedopuszczalna p Hn) as [e He].
  exists e. unfold propaguj_pozycje. rewrite He. reflexivity.
Qed.

(** The propagation returns exactly on the accepted semi-major axes. *)
Lemma propaguj_pozycje_przypadki (p : ParametryOrbitalne) (t l0 : R) :
  (Wzory.os_dopuszczalna (polOs_wielka p) /\
   propaguj_pozycje p t l0 =
   Zwraca (Wzory.wspolrzedne (Wzory.predkosc_katowa_z_progiem (polOs_wielka p)) p t l0))
  \/
  (~ Wzory.os_dopuszczalna (polOs_wielka p) /\
   exists e, propaguj_pozycje p t l0 = Rzuca e).
Proof.
  destruct (Rle_dec 0 (polOs_wielka p)) as [Ha | Ha];
    [destruct (Rle_dec (polOs_wielka p ^ 3) FLOAT_MAX) as [Hm | Hm] |].
  - left. split; [split; assumption | apply propaguj_pozycje_wzor; split; assumption].
  - right. assert (Hn : ~ Wzory.os_dopuszczalna (polOs_wielka p)) by (intros [_ H]; contradiction).
    split; [exact Hn | apply propaguj_pozycje_niedopuszczalna; exact Hn].
  - right. assert (Hn : ~ Wzory.os_dopuszczalna (polOs_wielka p)) by (intros [H _]; contradiction).
    split; [exact Hn | apply propaguj_pozycje_niedopuszczalna; exact Hn].
Qed.

(** The Earth-bound orbits of the catalogue are accepted. *)
Lemma os_dopuszczalna_mala (a : R) : 0 <= a <= 1e100 -> Wzory.os_dopuszczalna a.
Proof.
  intros [Hlo Hhi]. destruct FLOAT_MAX_zakres as [Hmax _]. split; [exact Hlo |].
  assert (H2 : a * a <= 1e100 * 1e100) by nra.
  assert (H3 : a * (a * a) <= 1e100 * (1e100 * 1e100)) by (apply Rmult_le_compat; nra).
  simpl. lra.
Qed.

(** Above the Earth radius the period is far above the epsilon. *)
Lemma okres_powyzej_progu (a : R) : 6371 < a -> 1e-9 < Wzory.okres a.
Proof.
  intros Ha. unfold Wzory.okres.
  assert (H3 : 1 <= a ^ 3 / 398600.4418).
  { assert (H2 : 6371 * 6371 <= a * a) by nra.
    assert (Hm : 6371 * (6371 * 6371) <= a * (a * a))
      by (apply Rmult_le_compat; lra).
    assert (Hc : 398600.4418 <= a ^ 3) by (simpl; lra).
    apply Rmult_le_reg_r with (r := 398600.4418); [lra |].
    unfold Rdiv. rewrite Rmult_assoc, Rinv_l by lra. lra. }
  assert (Hs : 1 <= sqrt (a ^ 3 / 398600.4418)).
  { rewrite <- sqrt_1 at 1. apply sqrt_le_1_alt. exact H3. }
  pose proof PI_RGT_0. pose proof PI2_3_2. nra.
Qed.

Lemma normalizuj_dlugosc_zakres (x : R) :
  -180 <= _normalizuj_dlugosc x < 180.
Proof.
  unfold _normalizuj_dlugosc.
  destruct (float_mod_zakres (x + 180) 360) as [Hlo Hhi]; lra.
Qed.

(** The latitude of a returned coordinate lies in [[-90, 90]]. *)
Lemma propaguj_pozycje_szerokosc (p : ParametryOrbitalne) (t l0 : R)
    (c : WspolrzedneGeodezyjne) :
  propaguj_pozycje p t l0 = Zwraca c -> -90 <= szer_geogr c <= 90.
Proof.
  intros H. destruct (propaguj_pozycje_przypadki p t l0) as [[_ Hw] | [_ [e He]]].
  - rewrite Hw in H. inversion H; subst c. simpl.
    pose proof (asin_bound (sin (radians (inklinacja_kat p)) *
                            sin (Wzory.argument_orbity
                                   (Wzory.predkosc_katowa_z_progiem (polOs_wielka p))
                                   t l0))) as [Hlo Hhi].
    pose proof PI_RGT_0 as Hpi. unfold degrees.
    assert (Hk : 0 < 180 / PI) by (apply Rdiv_lt_0_compat; lra).
    assert (Hq : PI / 2 * (180 / PI) = 90) by (field; lra).
    split; nra.
  - rewrite He in H. discriminate H.
Qed.

(** The altitude of a returned coordinate is the semi-major axis less the
    Earth radius, so its distance from the centre is the semi-major axis. *)
Lemma propaguj_pozycje_promien (p : ParametryOrbitalne) (t l0 : R)
    (c : WspolrzedneGeodezyjne) :
  propaguj_pozycje p t l0 = Zwraca c ->
  Wzory.os_dopuszczalna (polOs_wielka p) /\
  SREDNICA_BAZOWA_ZIEMI + wysokosc_npm c = polOs_wielka p.
Proof.
  intros H. destruct (propaguj_pozycje_przypadki p t l0) as [[Ha Hw] | [_ [e He]]].
  - rewrite Hw in H. inversion H; subst c. simpl. split; [exact Ha |].
    unfold SREDNICA_BAZOWA_ZIEMI. lra.
  - rewrite He in H. discriminate H.
Qed.

End Propagator.

(* ================================================================== *)
(** * Dictionaries, sorting and the pair loops *)
(* ================================================================== *)

Section Pojemniki.

Import Py.
Local Open Scope Z_scope.

Variable V : Type.

Lemma dict_get_set_ten_sam (d : dict V) (k : Z) (v : V) :
  dict_get (dict_set d k v) k = Some v.
Proof.
  induction d as [| [k' v'] rest IH]; simpl.
  - rewrite Z.eqb_refl. reflexivity.
  - destruct (k' =? k) eqn:E; simpl; rewrite E; [reflexivity | exact IH].
Qed.

Lemma dict_get_set_inny (d : dict V) (k k' : Z) (v : V) :
  k <> k' -> dict_get (dict_set d k v) k' = dict_get d k'.
Proof.
  intros Hne. induction d as [| [k0 v0] rest IH]; simpl.
  - destruct (k =? k') eqn:E; [apply Z.eqb_eq in E; contradiction | reflexivity].
  - destruct (k0 =? k) eqn:E; simpl.
    + apply Z.eqb_eq in E; subst k0.
      destruct (k =? k') eqn:E'; [apply Z.eqb_eq in E'; contradiction | reflexivity].
    + destruct (k0 =? k'); [reflexivity | exact IH].
Qed.

Lemma dict_keys_set (d : dict V) (k : Z) (v : V) (x : Z) :
  In x (dict_keys (dict_set d k v)) <-> x = k \/ In x (dict_keys d).
Proof.
  unfold dict_keys. induction d as [| [k' v'] rest IH]; simpl.
  - intuition.
  - destruct (k' =? k) eqn:E; simpl.
    + apply Z.eqb_eq in E; subst k'. intuition.
    + rewrite IH. intuition.
Qed.

Lemma dict_get_klucz (d : dict V) (k : Z) :
  In k (dict_keys d) <-> exists v, dict_get d k = Some v.
Proof.
  unfold dict_keys. induction d as [| [k' v'] rest IH]; simpl.
  - split; [intros [] | intros [v H]; discriminate H].
  - destruct (k' =? k) eqn:E.
    + apply Z.eqb_eq in E. split; [intros _; eauto | intros _; left; exact E].
    + apply Z.eqb_neq in E. rewrite <- IH. intuition.
Qed.

(** Keys stay distinct under assignment. *)
Lemma dict_set_NoDup (d : dict V) (k : Z) (v : V) :
  NoDup (dict_keys d) -> NoDup (dict_keys (dict_set d k v)).
Proof.
  unfold dict_keys. induction d as [| [k' v'] rest IH]; simpl; intros Hnd.
  - constructor; [intros [] | constructor].
  - inversion Hnd as [| x l Hnotin Hrest]; subst.
    destruct (k' =? k) eqn:E; simpl.
    + constructor; assumption.
    + apply Z.eqb_neq in E. constructor.
      * intros Hin. apply (dict_keys_set rest k v k') in Hin.
        destruct Hin as [Heq | Hin]; [congruence | contradiction].
      * apply IH; exact Hrest.
Qed.

Lemma dict_getitem_klucz (d : dict V) (k : Z) (v : V) :
  dict_get d k = Some v -> dict_getitem d k = Zwraca v.
Proof. intros H. unfold dict_getitem. rewrite H. reflexivity. Qed.

End Pojemniki.

Section Sortowanie.

Import Py.
Local Open Scope Z_scope.

Lemma wstaw_In (x y : Z) (l : list Z) : In y (wstaw x l) <-> y = x \/ In y l.
Proof.
  induction l as [| z rest IH]; simpl.
  - intuition.
  - destruct (x <=? z); simpl; [intuition | rewrite IH; intuition].
Qed.

Lemma sorted_In (x : Z) (l : list Z) : In x (sorted l) <-> In x l.
Proof.
  induction l as [| y rest IH]; simpl.
  - reflexivity.
  - rewrite wstaw_In, IH. intuition.
Qed.

Lemma wstaw_posortowane (x : Z) (l : list Z) :
  ~ In x l -> StronglySorted Z.lt l -> StronglySorted Z.lt (wstaw x l).
Proof.
  intros Hnotin Hs. induction Hs as [| z rest Hrest IH Hall]; simpl.
  - constructor; constructor.
  - assert (Hxz : x <> z) by (intros ->; apply Hnotin; left; reflexivity).
    assert (Hxr : ~ In x rest) by (intros Hin; apply Hnotin; right; exact Hin).
    destruct (x <=? z) eqn:E.
    + apply Z.leb_le in E. constructor.
      * constructor; assumption.
      * constructor; [lia |].
        rewrite Forall_forall in *. intros w Hw. specialize (Hall w Hw). lia.
    + apply Z.leb_gt in E. constructor.
      * apply IH; exact Hxr.
      * rewrite Forall_forall in *. intros w Hw.
        apply wstaw_In in Hw. destruct Hw as [-> | Hw]; [lia | apply Hall; exact Hw].
Qed.

(** [sorted] of distinct integers is strictly ascending. *)
Lemma sorted_rosnaca (l : list Z) : NoDup l -> StronglySorted Z.lt (sorted l).
Proof.
  induction 1 as [| x rest Hnotin Hnd IH]; simpl.
  - constructor.
  - apply wstaw_posortowane; [rewrite sorted_In; exact Hnotin | exact IH].
Qed.

(** Every pair of the loops takes its two ids from the list. *)
Lemma pary_In (l : list Z) (a b : Z) : In (a, b) (pary l) -> In a l /\ In b l.
Proof.
  induction l as [| x rest IH]; simpl; [intros [] |].
  rewrite in_app_iff, in_map_iff. intros [[y [Heq Hy]] | Hin].
  - inversion Heq; subst. auto.
  - destruct (IH Hin). auto.
Qed.

(** On a strictly ascending list the pairs are exactly the [a < b]. *)
Lemma pary_rosnace (l : list Z) (a b : Z) :
  StronglySorted Z.lt l -> In (a, b) (pary l) -> a < b.
Proof.
  induction 1 as [| x rest Hrest IH Hall]; simpl; [intros [] |].
  rewrite in_app_iff, in_map_iff. intros [[y [Heq Hy]] | Hin].
  - inversion Heq; subst. rewrite Forall_forall in Hall. apply Hall; exact Hy.
  - apply IH; exact Hin.
Qed.

Lemma pary_kompletne (l : list Z) (a b : Z) :
  StronglySorted Z.lt l -> In a l -> In b l -> a < b -> In (a, b) (pary l).
Proof.
  induction 1 as [| x rest Hrest IH Hall]; simpl; [intros [] |].
  rewrite Forall_forall in Hall.
  intros [Ha | Ha] [Hb | Hb] Hlt; rewrite in_app_iff, in_map_iff.
  - lia.
  - subst x. left. exists b. auto.
  - subst x. specialize (Hall a Ha). lia.
  - right. apply IH; assumption.
Qed.

End Sortowanie.

(* ================================================================== *)
(** * One tick of the interval scan *)
(* ================================================================== *)

Section Krok.

Import Py Modele Api Wzory.

Variable prog : R.

Lemma dla_kazdego_app (A S : Type) (f : S -> A -> wynik S) (l1 l2 : list A) (acc : S) :
  dla_kazdego f (l1 ++ l2) acc =
  bind (dla_kazdego f l1 acc) (dla_kazdego f l2).
Proof.
  revert acc. induction l1 as [| x rest IH]; intros acc; simpl; [reflexivity |].
  destruct (f acc x) as [acc' | e]; simpl; [apply IH | reflexivity].
Qed.

(** An object whose epoch is after the instant has no position there. *)
Lemma oblicz_pozycje_w_czasie_przed_epoka (o : ModelObiektuBD) (t : datetime) :
  (t < data_wprowadzenia o)%Z -> oblicz_pozycje_w_czasie o t = Zwraca None.
Proof.
  intros Hlt. unfold oblicz_pozycje_w_czasie.
  apply Z.ltb_lt in Hlt. rewrite Hlt. reflexivity.
Qed.

(** From its epoch on, an object has a position or the propagation raises:
    [None] is returned only before the epoch. *)
Lemma oblicz_pozycje_w_czasie_po_epoce (o : ModelObiektuBD) (t : datetime) :
  (data_wprowadzenia o <= t)%Z ->
  oblicz_pozycje_w_czasie o t =
  bind (Serwisy.propaguj_pozycje
          {| polOs_wielka := (SREDNICA_BAZOWA_ZIEMI + wysokosc_km (orbita_ref o))%R;
             inklinacja_kat := kat_inklinacji (orbita_ref o);
             wezl_wstepujacy := wezel_wst (orbita_ref o) |}
          (total_seconds (t - data_wprowadzenia o)%Z)
          (pozycja_startowa_lon o))
       (fun w => Zwraca (Some w)).
Proof.
  intros Hle. unfold oblicz_pozycje_w_czasie.
  apply Z.ltb_ge in Hle. rewrite Hle. reflexivity.
Qed.

Lemma dodaj_pozycje_przed_epoka (o : ModelObiektuBD) (t : datetime)
    (m : dict WspolrzedneGeodezyjne) :
  (t < data_wprowadzenia o)%Z -> dodaj_pozycje t m o = Zwraca m.
Proof.
  intros Hlt. unfold dodaj_pozycje.
  destruct (negb (stan_operacyjny o =? AKTYWNY)%string); [reflexivity |].
  rewrite oblicz_pozycje_w_czasie_przed_epoka by exact Hlt. reflexivity.
Qed.

(** What one step of the object loop can do to the map. *)
Lemma dodaj_pozycje_przypadki (o : ModelObiektuBD) (t : datetime)
    (m m' : dict WspolrzedneGeodezyjne) :
  dodaj_pozycje t m o = Zwraca m' ->
  m' = m \/
  exists p, stan_operacyjny o = AKTYWNY /\
            oblicz_pozycje_w_czasie o t = Zwraca (Some p) /\
            m' = dict_set m (id_rekordu o) p.
Proof.
  unfold dodaj_pozycje.
  destruct (stan_operacyjny o =? AKTYWNY)%string eqn:Es; simpl.
  - apply String.eqb_eq in Es.
    destruct (oblicz_pozycje_w_czasie o t) as [[p |] | e]; simpl; intros H;
      inversion H; subst; eauto.
  - intros H; inversion H; auto.
Qed.

Lemma dodaj_pozycje_NoDup (o : ModelObiektuBD) (t : datetime)
    (m m' : dict WspolrzedneGeodezyjne) :
  dodaj_pozycje t m o = Zwraca m' -> NoDup (dict_keys m) -> NoDup (dict_keys m').
Proof.
  intros H Hnd. destruct (dodaj_pozycje_przypadki _ _ _ _ H) as [-> | [p [_ [_ ->]]]].
  - exact Hnd.
  - apply dict_set_NoDup; exact Hnd.
Qed.

Lemma petla_obiektow_NoDup (obiekty : list ModelObiektuBD) (t : datetime)
    (m m' : dict WspolrzedneGeodezyjne) :
  dla_kazdego (dodaj_pozycje t) obiekty m = Zwraca m' ->
  NoDup (dict_keys m) -> NoDup (dict_keys m').
Proof.
  revert m. induction obiekty as [| o rest IH]; simpl; intros m H Hnd.
  - inversion H; subst; exact Hnd.
  - apply bind_zwraca in H. destruct H as [m1 [H1 H2]].
    apply (IH m1 H2). apply (dodaj_pozycje_NoDup _ _ _ _ H1 Hnd).
Qed.

(** The ids of the position map are distinct. *)
Lemma pozycje_kroku_NoDup (obiekty : list ModelObiektuBD) (t : datetime)
    (m : dict WspolrzedneGeodezyjne) :
  pozycje_kroku obiekty t = Zwraca m -> NoDup (dict_keys m).
Proof.
  intros H. apply (petla_obiektow_NoDup _ _ _ _ H). constructor.
Qed.

Lemma petla_obiektow_wpis (obiekty : list ModelObiektuBD) (t : datetime)
    (m m' : dict WspolrzedneGeodezyjne) (id : Z) (p : WspolrzedneGeodezyjne) :
  dla_kazdego (dodaj_pozycje t) obiekty m = Zwraca m' ->
  dict_get m' id = Some p ->
  dict_get m id = Some p \/
  exists o, In o obiekty /\ id_rekordu o = id /\ stan_operacyjny o = AKTYWNY /\
            oblicz_pozycje_w_czasie o t = Zwraca (Some p).
Proof.
  revert m. induction obiekty as [| o rest IH]; simpl; intros m H Hget.
  - inversion H; subst; auto.
  - apply bind_zwraca in H. destruct H as [m1 [H1 H2]].
    destruct (IH m1 H2 Hget) as [Hm1 | [o' [Hin Ho']]].
    + destruct (dodaj_pozycje_przypadki _ _ _ _ H1) as [-> | [q [Hs [Hq ->]]]]; [auto |].
      destruct (Z.eq_dec (id_rekordu o) id) as [Heq | Hne].
      * subst id. rewrite dict_get_set_ten_sam in Hm1. inversion Hm1; subst q.
        right. exists o. auto.
      * rewrite dict_get_set_inny in Hm1 by exact Hne. auto.
    + right. exists o'. split; [right; exact Hin | exact Ho'].
Qed.

(** Every entry of the position map is the position, at this tick, of an
    active object of the catalogue with that id. *)
Lemma pozycje_kroku_wpis (obiekty : list ModelObiektuBD) (t : datetime)
    (m : dict WspolrzedneGeodezyjne) (id : Z) (p : WspolrzedneGeodezyjne) :
  pozycje_kroku obiekty t = Zwraca m ->
  dict_get m id = Some p ->
  exists o, In o obiekty /\ id_rekordu o = id /\ stan_operacyjny o = AKTYWNY /\
            oblicz_pozycje_w_czasie o t = Zwraca (Some p).
Proof.
  intros H Hget. destruct (petla_obiektow_wpis _ _ _ _ _ _ H Hget) as [Hn | Ho].
  - discriminate Hn.
  - exact Ho.
Qed.

(** An object before its epoch can be dropped from the catalogue without
    changing the position map of the tick. *)
Lemma pozycje_kroku_pomija (l1 l2 : list ModelObiektuBD) (o : ModelObiektuBD)
    (t : datetime) :
  (t < data_wprowadzenia o)%Z ->
  pozycje_kroku (l1 ++ o :: l2) t = pozycje_kroku (l1 ++ l2) t.
Proof.
  intros Hlt. unfold pozycje_kroku. rewrite !dla_kazdego_app.
  destruct (dla_kazdego (dodaj_pozycje t) l1 []) as [m | e]; simpl; [| reflexivity].
  rewrite dodaj_pozycje_przed_epoka by exact Hlt. reflexivity.
Qed.

(** ** The pair loops *)

Lemma sprawdz_pare_przypadki (m : dict WspolrzedneGeodezyjne) (t : datetime)
    (acc : list ZdarzeniePrzestrz) (a b : Z) :
  In a (dict_keys m) -> In b (dict_keys m) ->
  sprawdz_pare prog m t acc (a, b) = Zwraca (acc ++ zdarzenia_pary prog m t (a, b)) \/
  sprawdz_pare prog m t acc (a, b) = Rzuca OverflowError.
Proof.
  intros Ha Hb.
  apply dict_get_klucz in Ha. destruct Ha as [pa Hpa].
  apply dict_get_klucz in Hb. destruct Hb as [pb Hpb].
  unfold sprawdz_pare, zdarzenia_pary. simpl fst. simpl snd.
  rewrite (dict_getitem_klucz _ _ _ _ Hpa), (dict_getitem_klucz _ _ _ _ Hpb), Hpa, Hpb.
  simpl bind.
  destruct (dystans_do_przypadki pa pb) as [-> | ->]; [left | right; reflexivity].
  simpl bind.
  destruct (Rlt_dec (odleglosc pa pb) prog); [reflexivity |].
  rewrite app_nil_r. reflexivity.
Qed.

(** A returning pair body has computed the distance of the pair. *)
Lemma sprawdz_pare_zwraca (m : dict WspolrzedneGeodezyjne) (t : datetime)
    (acc acc' : list ZdarzeniePrzestrz) (a b : Z) (pa pb : WspolrzedneGeodezyjne) :
  dict_get m a = Some pa -> dict_get m b = Some pb ->
  sprawdz_pare prog m t acc (a, b) = Zwraca acc' ->
  dystans_do pa pb = Zwraca (odleglosc pa pb).
Proof.
  intros Hpa Hpb. unfold sprawdz_pare.
  rewrite (dict_getitem_klucz _ _ _ _ Hpa), (dict_getitem_klucz _ _ _ _ Hpb).
  simpl bind.
  destruct (dystans_do_przypadki pa pb) as [E | E]; rewrite E; [reflexivity |].
  simpl. discriminate.
Qed.

(** When the pair loops return, they have computed every distance and
    appended the events of the pairs, in order. *)
Lemma petla_par_zwraca (m : dict WspolrzedneGeodezyjne) (t : datetime)
    (ps : list (Z * Z)) (acc zd : list ZdarzeniePrzestrz) :
  (forall a b, In (a, b) ps -> In a (dict_keys m) /\ In b (dict_keys m)) ->
  dla_kazdego (sprawdz_pare prog m t) ps acc = Zwraca zd ->
  zd = acc ++ flat_map (zdarzenia_pary prog m t) ps /\
  (forall a b pa pb, In (a, b) ps ->
      dict_get m a = Some pa -> dict_get m b = Some pb ->
      dystans_do pa pb = Zwraca (odleglosc pa pb)).
Proof.
  revert acc. induction ps as [| [a b] rest IH]; intros acc Hkeys H.
  - simpl in H. inversion H; subst. simpl. rewrite app_nil_r.
    split; [reflexivity | intros a b pa pb []].
  - destruct (Hkeys a b (or_introl eq_refl)) as [Ha Hb].
    cbn [dla_kazdego flat_map] in *.
    destruct (sprawdz_pare prog m t acc (a, b)) as [acc' |] eqn:Epair;
      [| discriminate H].
    cbn [bind] in H.
    destruct (IH _ (fun a' b' Hin => Hkeys a' b' (or_intror Hin)) H) as [Hzd Hdist].
    split.
    + destruct (sprawdz_pare_przypadki m t acc a b Ha Hb) as [E | E];
        rewrite E in Epair; [| discriminate Epair].
      inversion Epair; subst acc'. rewrite Hzd, app_assoc. reflexivity.
    + intros a' b' pa pb [Heq | Hin] Hpa Hpb.
      * inversion Heq; subst a' b'.
        apply (sprawdz_pare_zwraca m t acc acc' a b pa pb Hpa Hpb Epair).
      * apply (Hdist a' b' pa pb Hin Hpa Hpb).
Qed.

(** They return when no distance overflows. *)
Lemma petla_par_wzor (m : dict WspolrzedneGeodezyjne) (t : datetime)
    (ps : list (Z * Z)) (acc : list ZdarzeniePrzestrz) :
  (forall a b, In (a, b) ps -> In a (dict_keys m) /\ In b (dict_keys m)) ->
  (forall a b pa pb, dict_get m a = Some pa -> dict_get m b = Some pb ->
                     dystans_do pa pb = Zwraca (odleglosc pa pb)) ->
  dla_kazdego (sprawdz_pare prog m t) ps acc =
  Zwraca (acc ++ flat_map (zdarzenia_pary prog m t) ps).
Proof.
  intros Hkeys Hdist. revert acc Hkeys.
  induction ps as [| [a b] rest IH]; intros acc Hkeys.
  - simpl. rewrite app_nil_r. reflexivity.
  - destruct (Hkeys a b (or_introl eq_refl)) as [Ha Hb].
    cbn [dla_kazdego flat_map].
    destruct (sprawdz_pare_przypadki m t acc a b Ha Hb) as [E | E].
    + rewrite E. cbn [bind].
      rewrite IH by (intros a' b' Hin; apply Hkeys; right; exact Hin).
      rewrite app_assoc. reflexivity.
    + exfalso. apply dict_get_klucz in Ha. destruct Ha as [pa Hpa].
      apply dict_get_klucz in Hb. destruct Hb as [pb Hpb].
      unfold sprawdz_pare in E.
      rewrite (dict_getitem_klucz _ _ _ _ Hpa), (dict_getitem_klucz _ _ _ _ Hpb) in E.
      simpl bind in E. rewrite (Hdist a b pa pb Hpa Hpb) in E. simpl bind in E.
      destruct (Rlt_dec (odleglosc pa pb) prog); discriminate E.
Qed.

Lemma pary_kroku_w_mapie (m : dict WspolrzedneGeodezyjne) (a b : Z) :
  In (a, b) (pary (sorted (dict_keys m))) ->
  In a (dict_keys m) /\ In b (dict_keys m).
Proof.
  intros Hin. apply pary_In in Hin. rewrite !sorted_In in Hin. exact Hin.
Qed.

(** When the analysis of a tick returns, it has computed the distances of
    the tick and appended its events to the accumulated events. *)
Lemma krok_siatki_zwraca (obiekty : list ModelObiektuBD) (t : datetime)
    (acc zd : list ZdarzeniePrzestrz) :
  krok_siatki prog obiekty t acc = Zwraca zd ->
  exists m, pozycje_kroku obiekty t = Zwraca m /\
            odleglosci_obliczone m /\
            zd = acc ++ zdarzenia_kroku prog m t.
Proof.
  unfold krok_siatki.
  destruct (pozycje_kroku obiekty t) as [m | e] eqn:Em; simpl; [| discriminate].
  intros H. exists m. split; [reflexivity |].
  destruct (petla_par_zwraca m t _ acc zd (pary_kroku_w_mapie m) H) as [Hzd Hdist].
  split; [| exact Hzd].
  intros a b pa pb Hlt Hpa Hpb. apply (Hdist a b pa pb); try assumption.
  apply pary_kompletne; try assumption.
  - apply sorted_rosnaca. apply (pozycje_kroku_NoDup _ _ _ Em).
  - rewrite sorted_In. apply dict_get_klucz. eauto.
  - rewrite sorted_In. apply dict_get_klucz. eauto.
Qed.

(** It returns when the positions are obtained and no distance overflows. *)
Lemma krok_siatki_wzor (obiekty : list ModelObiektuBD) (t : datetime)
    (acc : list ZdarzeniePrzestrz) (m : dict WspolrzedneGeodezyjne) :
  pozycje_kroku obiekty t = Zwraca m ->
  (forall a b pa pb, dict_get m a = Some pa -> dict_get m b = Some pb ->
                     dystans_do pa pb = Zwraca (odleglosc pa pb)) ->
  krok_siatki prog obiekty t acc = Zwraca (acc ++ zdarzenia_kroku prog m t).
Proof.
  intros Hm Hdist. unfold krok_siatki. rewrite Hm. simpl.
  unfold zdarzenia_kroku. apply petla_par_wzor; [| exact Hdist].
  apply pary_kroku_w_mapie.
Qed.

End Krok.

(* ================================================================== *)
(** * The events of a tick and the loop over the grid *)
(* ================================================================== *)

Section Petla.

Import Py Modele Api Wzory.

Variable prog : R.

(** The events of a tick, described pair by pair: one event for each pair
    of ids [a < b] of the map whose positions are closer than the
    threshold, carrying the ids in this order and the position of [a]. *)
Lemma zdarzenia_kroku_In (m : dict WspolrzedneGeodezyjne) (t : datetime)
    (z : ZdarzeniePrzestrz) :
  NoDup (dict_keys m) ->
  (In z (zdarzenia_kroku prog m t) <->
   exists a b pa pb,
     (a < b)%Z /\ dict_get m a = Some pa /\ dict_get m b = Some pb /\
     (odleglosc pa pb < prog)%R /\
     z = {| obiekt_id_a := a; obiekt_id_b := b; moment_czasu := t;
            lokalizacja := pa; dystans_min := odleglosc pa pb |}).
Proof.
  intros Hnd. unfold zdarzenia_kroku. rewrite in_flat_map.
  pose proof (sorted_rosnaca _ Hnd) as Hsort.
  split.
  - intros [[a b] [Hpair Hz]].
    pose proof (pary_rosnace _ _ _ Hsort Hpair) as Hlt.
    unfold zdarzenia_pary in Hz. simpl fst in Hz. simpl snd in Hz.
    destruct (dict_get m a) as [pa |] eqn:Ea; [| destruct Hz].
    destruct (dict_get m b) as [pb |] eqn:Eb; [| destruct Hz].
    destruct (Rlt_dec (odleglosc pa pb) prog) as [Hd | Hd]; [| destruct Hz].
    destruct Hz as [Hz | []].
    exists a, b, pa, pb. repeat split; try assumption.
    rewrite Z.min_l, Z.max_r in Hz by lia. symmetry; exact Hz.
  - intros [a [b [pa [pb [Hlt [Ea [Eb [Hd Hz]]]]]]]].
    exists (a, b). split.
    + apply pary_kompletne; try assumption; rewrite sorted_In;
        apply dict_get_klucz; eauto.
    + unfold zdarzenia_pary. simpl fst. simpl snd. rewrite Ea, Eb.
      destruct (Rlt_dec (odleglosc pa pb) prog) as [_ | Hn]; [| contradiction].
      left. rewrite Z.min_l, Z.max_r by lia. symmetry; exact Hz.
Qed.

Lemma zdarzenia_kroku_moment (m : dict WspolrzedneGeodezyjne) (t : datetime)
    (z : ZdarzeniePrzestrz) :
  In z (zdarzenia_kroku prog m t) -> moment_czasu z = t.
Proof.
  unfold zdarzenia_kroku. rewrite in_flat_map. intros [[a b] [_ Hz]].
  unfold zdarzenia_pary in Hz.
  destruct (dict_get m (fst (a, b))); [| destruct Hz].
  destruct (dict_get m (snd (a, b))); [| destruct Hz].
  destruct (Rlt_dec _ prog); [| destruct Hz].
  destruct Hz as [<- | []]. reflexivity.
Qed.

(** One unfolding of the loop with fuel left. *)
Lemma petla_siatki_krok (n : nat) (obiekty : list ModelObiektuBD)
    (t k : datetime) (d : timedelta) (acc zd : list ZdarzeniePrzestrz) :
  petla_siatki prog (S n) obiekty t k d acc = Some (Zwraca zd) ->
  ((k < t)%Z /\ zd = acc) \/
  ((t <= k)%Z /\
   exists m, pozycje_kroku obiekty t = Zwraca m /\
             odleglosci_obliczone m /\
             datetime_add t d = Zwraca (t + d)%Z /\
             petla_siatki prog n obiekty (t + d)%Z k d
                          (acc ++ zdarzenia_kroku prog m t) = Some (Zwraca zd)).
Proof.
  cbn [petla_siatki]. destruct (t <=? k)%Z eqn:E.
  - apply Z.leb_le in E.
    destruct (krok_siatki prog obiekty t acc) as [acc' | e] eqn:Ek; [| discriminate].
    apply krok_siatki_zwraca in Ek. destruct Ek as [m [Hm [Hdist ->]]].
    unfold datetime_add.
    destruct (w_zakresie_datetime (t + d)); [| discriminate].
    intros H. right. split; [exact E |]. exists m. auto.
  - apply Z.leb_gt in E. intros H. inversion H; subst. left. auto.
Qed.

(** Every event of the result was already accumulated or is an event of the
    analysis at its own instant. *)
Lemma petla_siatki_poprawna (n : nat) (obiekty : list ModelObiektuBD)
    (t k : datetime) (d : timedelta) (acc zd : list ZdarzeniePrzestrz)
    (z : ZdarzeniePrzestrz) :
  petla_siatki prog n obiekty t k d acc = Some (Zwraca zd) ->
  In z zd ->
  In z acc \/
  exists m, pozycje_kroku obiekty (moment_czasu z) = Zwraca m /\
            In z (zdarzenia_kroku prog m (moment_czasu z)).
Proof.
  revert t acc. induction n as [| n IH]; intros t acc H Hin; [discriminate H |].
  apply petla_siatki_krok in H.
  destruct H as [[_ ->] | [_ [m [Hm [_ [_ Hrec]]]]]]; [auto |].
  destruct (IH _ _ Hrec Hin) as [Hacc | Hz]; [| auto].
  apply in_app_or in Hacc. destruct Hacc as [Hacc | Hnew]; [auto |].
  right. exists m. rewrite (zdarzenia_kroku_moment _ _ _ Hnew). auto.
Qed.

(** With a forward step, every grid point up to the end is analysed and all
    its events are in the result. *)
Lemma petla_siatki_kompletna (n : nat) (obiekty : list ModelObiektuBD)
    (t k : datetime) (d : timedelta) (acc zd : list ZdarzeniePrzestrz) :
  (0 < d)%Z ->
  petla_siatki prog n obiekty t k d acc = Some (Zwraca zd) ->
  incl acc zd /\
  forall i, (0 <= i)%Z -> (t + i * d <= k)%Z ->
    exists m, pozycje_kroku obiekty (t + i * d)%Z = Zwraca m /\
              odleglosci_obliczone m /\
              incl (zdarzenia_kroku prog m (t + i * d)%Z) zd.
Proof.
  intros Hd. revert t acc. induction n as [| n IH]; intros t acc H; [discriminate H |].
  apply petla_siatki_krok in H.
  destruct H as [[Hlt ->] | [Hle [m [Hm [Hdist [_ Hrec]]]]]].
  - split; [apply incl_refl |]. intros i Hi Hik. nia.
  - destruct (IH _ _ Hrec) as [Hincl Hticks]. split.
    + intros z Hz. apply Hincl. apply in_or_app. left; exact Hz.
    + intros i Hi Hik. destruct (Z.eq_dec i 0) as [-> | Hne].
      * exists m. replace (t + 0 * d)%Z with t by lia. split; [exact Hm |].
        split; [exact Hdist |].
        intros z Hz. apply Hincl. apply in_or_app. right; exact Hz.
      * destruct (Hticks (i - 1)%Z) as [m' [Hm' [Hdist' Hin']]]; [lia | nia |].
        exists m'. replace (t + i * d)%Z with (t + d + (i - 1) * d)%Z by ring.
        auto.
Qed.

(** The fuel of the scan is enough in both directions of the step. *)
Lemma petla_siatki_konczy_naprzod (n : nat) (obiekty : list ModelObiektuBD)
    (t k : datetime) (d : timedelta) (acc : list ZdarzeniePrzestrz) :
  (0 < d)%Z ->
  (Z.to_nat ((k - t) / d + 1) < n)%nat ->
  petla_siatki prog n obiekty t k d acc <> None.
Proof.
  intros Hd. revert t acc. induction n as [| n IH]; intros t acc Hn; [lia |].
  cbn [petla_siatki]. destruct (t <=? k)%Z eqn:E; [| discriminate].
  apply Z.leb_le in E.
  destruct (krok_siatki prog obiekty t acc) as [acc' | e]; [| discriminate].
  unfold datetime_add. destruct (w_zakresie_datetime (t + d)); [| discriminate].
  apply IH.
  assert (Hq : ((k - (t + d)) / d = (k - t) / d - 1)%Z).
  { replace (k - (t + d))%Z with ((k - t) + (-1) * d)%Z by ring.
    rewrite Z.div_add by lia. lia. }
  rewrite Hq.
  assert (0 <= (k - t) / d)%Z by (apply Z.div_pos; lia).
  lia.
Qed.

Lemma petla_siatki_konczy_wstecz (n : nat) (obiekty : list ModelObiektuBD)
    (t k : datetime) (d : timedelta) (acc : list ZdarzeniePrzestrz) :
  (d < 0)%Z -> (DATETIME_MIN <= t)%Z ->
  (Z.to_nat ((t - DATETIME_MIN) / (- d) + 1) < n)%nat ->
  petla_siatki prog n obiekty t k d acc <> None.
Proof.
  intros Hd. revert t acc. induction n as [| n IH]; intros t acc Ht Hn; [lia |].
  cbn [petla_siatki]. destruct (t <=? k)%Z eqn:E; [| discriminate].
  destruct (krok_siatki prog obiekty t acc) as [acc' | e]; [| discriminate].
  unfold datetime_add, w_zakresie_datetime.
  destruct (DATETIME_MIN <=? t + d)%Z eqn:Emin; simpl; [| discriminate].
  destruct (t + d <=? DATETIME_MAX)%Z; [| discriminate].
  apply Z.leb_le in Emin.
  apply IH; [exact Emin |].
  assert (Hq : ((t + d - DATETIME_MIN) / (- d) = (t - DATETIME_MIN) / (- d) - 1)%Z).
  { replace (t + d - DATETIME_MIN)%Z with ((t - DATETIME_MIN) + (-1) * (- d))%Z by ring.
    rewrite Z.div_add by lia. lia. }
  rewrite Hq.
  assert (0 <= (t - DATETIME_MIN) / (- d))%Z by (apply Z.div_pos; lia).
  lia.
Qed.

End Petla.

(* ================================================================== *)
(** * The time grid *)
(* ================================================================== *)

Section Siatka.

Import Py Modele Api Wzory.
Local Open Scope Z_scope.

(** [py_round] picks an integer at distance at most one half. *)
Lemma py_round_najblizsza (q : Q) :
  2 * Z.abs (py_round q * Zpos (Qden q) - Qnum q) <= Zpos (Qden q).
Proof.
  unfold py_round.
  set (d := Zpos (Qden q)). set (n := Qnum q).
  assert (Hd : 0 < d) by (unfold d; lia).
  pose proof (Z.div_mod n d ltac:(lia)) as Hdm.
  pose proof (Z.mod_pos_bound n d Hd) as Hr.
  destruct (2 * (n mod d) <? d) eqn:E1.
  - apply Z.ltb_lt in E1. nia.
  - apply Z.ltb_ge in E1. destruct (d <? 2 * (n mod d)) eqn:E2.
    + apply Z.ltb_lt in E2. nia.
    + apply Z.ltb_ge in E2. destruct (Z.even (n / d)); nia.
Qed.

(** On a tie the even neighbour is taken. *)
Lemma py_round_remis (q : Q) :
  2 * (Qnum q mod Zpos (Qden q)) = Zpos (Qden q) -> Z.even (py_round q) = true.
Proof.
  intros Htie. unfold py_round. rewrite Htie, Z.ltb_irrefl.
  destruct (Z.even (Qnum q / Zpos (Qden q))) eqn:E; [exact E |].
  rewrite Z.even_add, E. reflexivity.
Qed.

Lemma py_round_calkowita (q : Q) (k : Z) : (q == inject_Z k)%Q -> py_round q = k.
Proof.
  unfold Qeq, py_round. simpl. intros H.
  rewrite Z.mul_1_r in H. rewrite H.
  rewrite Z.div_mul by discriminate.
  rewrite Z.mod_mul by discriminate.
  simpl. reflexivity.
Qed.

Lemma total_seconds_Q_zero (delta : timedelta) :
  Qeq_bool (total_seconds_Q delta) 0 = (delta =? 0).
Proof.
  unfold Qeq_bool, total_seconds_Q. simpl. rewrite Z.mul_1_r.
  destruct delta; reflexivity.
Qed.

(** The quotient of a grid point by the step is its index. *)
Lemma iloraz_na_siatce (k delta : Z) :
  delta <> 0 ->
  (timestamp_Q (k * delta)%Z / total_seconds_Q delta == inject_Z k)%Q.
Proof.
  intros Hd. unfold timestamp_Q, total_seconds_Q.
  rewrite !Qmake_Qdiv, inject_Z_mult.
  field.
  intros H. apply Hd. apply inject_Z_injective. exact H.
Qed.

(** [k] steps, in seconds, are a whole number of microseconds. *)
Lemma siatka_w_mikrosekundach (k delta : Z) :
  (inject_Z k * total_seconds_Q delta * inject_Z 1000000
   == inject_Z (k * delta)%Z)%Q.
Proof.
  unfold total_seconds_Q. rewrite Qmake_Qdiv, inject_Z_mult.
  field.
Qed.

(** Snapping in closed form: division by a zero step raises, the grid line
    must be a [datetime]. *)
Lemma zaokraglij_do_siatki_wzor (dt : datetime) (delta : timedelta) :
  zaokraglij_do_siatki dt delta =
  if delta =? 0 then Rzuca ZeroDivisionError
  else if w_zakresie_datetime (zaokraglenie dt delta)
       then Zwraca (zaokraglenie dt delta) else Rzuca ValueError.
Proof.
  unfold zaokraglij_do_siatki. rewrite total_seconds_Q_zero.
  destruct (delta =? 0); [reflexivity |].
  unfold fromtimestamp.
  rewrite (py_round_calkowita _ _ (siatka_w_mikrosekundach _ delta)).
  reflexivity.
Qed.

Lemma zaokraglenie_na_siatce (k delta : Z) :
  delta <> 0 -> zaokraglenie (k * delta) delta = k * delta.
Proof.
  intros Hd. unfold zaokraglenie.
  rewrite (py_round_calkowita _ _ (iloraz_na_siatce k delta Hd)). reflexivity.
Qed.

(** The snapped instant is the nearest grid line: at most half a step away. *)
Lemma zaokraglenie_blisko (dt : datetime) (delta : timedelta) :
  delta <> 0 -> 2 * Z.abs (zaokraglenie dt delta - dt) <= Z.abs delta.
Proof.
  intros Hd. unfold zaokraglenie.
  assert (Hq : (timestamp_Q dt / total_seconds_Q delta
                == inject_Z dt / inject_Z delta)%Q).
  { unfold timestamp_Q, total_seconds_Q. rewrite !Qmake_Qdiv. field.
    intros H. apply Hd. apply inject_Z_injective. exact H. }
  generalize dependent (timestamp_Q dt / total_seconds_Q delta)%Q.
  intros q Hq.
  pose proof (py_round_najblizsza q) as Hn.
  assert (Hcross : Qnum q * delta = dt * Zpos (Qden q)).
  { assert (Hq' : (q * inject_Z delta == inject_Z dt)%Q).
    { rewrite Hq. field. intros H. apply Hd. apply inject_Z_injective. exact H. }
    unfold Qeq in Hq'. simpl in Hq'. rewrite Pos.mul_1_r in Hq'. lia. }
  set (k := py_round q) in *. set (n := Qnum q) in *. set (d := Zpos (Qden q)) in *.
  assert (Hdpos : 0 < d) by (unfold d; lia).
  assert (Hmul : (k * delta - dt) * d = (k * d - n) * delta) by nia.
  assert (Habs : Z.abs (k * delta - dt) * d = Z.abs (k * d - n) * Z.abs delta).
  { rewrite <- Z.abs_mul, <- Hmul, Z.abs_mul. rewrite (Z.abs_eq d) by lia. reflexivity. }
  assert (Hadelta : 0 < Z.abs delta) by lia.
  nia.
Qed.

End Siatka.

(* ================================================================== *)
(** * The precision parser *)
(* ================================================================== *)

Section Parser.

Import Py Modele Api Wzory.
Local Open Scope string_scope.

Lemma usun_prefiks_Some (p s r : string) :
  usun_prefiks p s = Some r <-> s = p ++ r.
Proof.
  revert s. induction p as [| c p IH]; intros s; simpl.
  - split; [intros H; inversion H; reflexivity | intros ->; reflexivity].
  - destruct s as [| c' s']; [split; discriminate |].
    destruct (Ascii.eqb c c') eqn:E.
    + apply Ascii.eqb_eq in E. subst c'. rewrite IH.
      split; [intros ->; reflexivity | intros H; inversion H; reflexivity].
    + apply Ascii.eqb_neq in E. split; [discriminate |].
      intros H; congruence.
Qed.

Lemma dopisz_pusty (s : string) : s ++ "" = s.
Proof. induction s as [| c s IH]; simpl; [reflexivity | rewrite IH; reflexivity]. Qed.

Lemma koniec_tekstu_iff (s : string) : koniec_tekstu s = true <-> s = "" \/ s = LF.
Proof.
  unfold koniec_tekstu. rewrite orb_true_iff, !String.eqb_eq. reflexivity.
Qed.

Lemma dopisz_skroc (p a b : string) : p ++ a = p ++ b -> a = b.
Proof.
  induction p as [| c p IH]; simpl; intros H; [exact H |].
  injection H as H. apply IH; exact H.
Qed.

Lemma jednostka_do_konca_iff (reszta j : string) :
  jednostka_do_konca reszta j = true <-> reszta = j \/ reszta = j ++ LF.
Proof.
  unfold jednostka_do_konca.
  destruct (usun_prefiks j reszta) as [ogon |] eqn:E.
  - apply usun_prefiks_Some in E. subst reszta. rewrite koniec_tekstu_iff.
    split; intros [H | H].
    + subst ogon. left. apply dopisz_pusty.
    + subst ogon. right. reflexivity.
    + left. apply (dopisz_skroc j). rewrite dopisz_pusty. exact H.
    + right. apply (dopisz_skroc j). exact H.
  - split; [discriminate |].
    intros [H | H]; subst reszta.
    + rewrite (proj2 (usun_prefiks_Some j j "")) in E by (symmetry; apply dopisz_pusty).
      discriminate.
    + rewrite (proj2 (usun_prefiks_Some j (j ++ LF) LF)) in E by reflexivity.
      discriminate.
Qed.

Lemma wez_cyfry_rozklad (t c r : string) :
  wez_cyfry t = (c, r) ->
  t = c ++ r /\ Forall (fun x => czy_cyfra x = true) (list_ascii_of_string c)
  /\ bez_cyfry_na_poczatku r.
Proof.
  revert c r. induction t as [| x t IH]; simpl; intros c r H.
  - inversion H; subst. simpl. auto.
  - destruct (czy_cyfra x) eqn:E.
    + destruct (wez_cyfry t) as [c' r'] eqn:Et. inversion H; subst.
      destruct (IH c' r eq_refl) as [-> [Hall Hr]].
      simpl. repeat split; auto.
    + inversion H; subst. simpl. auto.
Qed.

Lemma wez_cyfry_token (c r : string) :
  Forall (fun x => czy_cyfra x = true) (list_ascii_of_string c) ->
  bez_cyfry_na_poczatku r ->
  wez_cyfry (c ++ r) = (c, r).
Proof.
  intros Hall Hr. induction c as [| x c IH]; simpl.
  - destruct r as [| y r]; simpl; [reflexivity |].
    simpl in Hr. rewrite Hr. reflexivity.
  - simpl in Hall. inversion Hall as [| ? ? Hx Hrest]; subst.
    rewrite Hx, (IH Hrest). reflexivity.
Qed.

Lemma jednostka_bez_cyfry (j ogon : string) :
  In j JEDNOSTKI -> bez_cyfry_na_poczatku (j ++ ogon).
Proof.
  unfold JEDNOSTKI. simpl.
  intros [<- | [<- | [<- | [<- | [<- | []]]]]]; reflexivity.
Qed.

Lemma find_jednostka (j ogon : string) :
  In j JEDNOSTKI -> ogon = "" \/ ogon = LF ->
  find (jednostka_do_konca (j ++ ogon)) JEDNOSTKI = Some j.
Proof.
  unfold JEDNOSTKI. simpl.
  intros [<- | [<- | [<- | [<- | [<- | []]]]]] [-> | ->]; reflexivity.
Qed.

Lemma dopasuj_wzorzec_iff (t c j : string) :
  dopasuj_wzorzec t = Some (c, j) <->
  same_cyfry c /\ In j JEDNOSTKI /\ (t = c ++ j \/ t = c ++ j ++ LF).
Proof.
  unfold dopasuj_wzorzec, same_cyfry. split.
  - destruct (wez_cyfry t) as [c' r] eqn:Et.
    apply wez_cyfry_rozklad in Et. destruct Et as [-> [Hall _]].
    destruct (String.eqb c' "") eqn:Ec; [discriminate |].
    apply String.eqb_neq in Ec.
    destruct (find (jednostka_do_konca r) JEDNOSTKI) as [j' |] eqn:Ef; [| discriminate].
    intros H; inversion H; subst c' j'.
    apply find_some in Ef. destruct Ef as [Hin Hj].
    apply jednostka_do_konca_iff in Hj.
    repeat split; auto. destruct Hj as [-> | ->]; auto.
  - intros [[Hne Hall] [Hin Ht]].
    assert (Hshape : exists ogon, (ogon = "" \/ ogon = LF) /\ t = c ++ j ++ ogon).
    { destruct Ht as [-> | ->]; [exists "" | exists LF]; split; auto.
      rewrite dopisz_pusty. reflexivity. }
    destruct Hshape as [ogon [Hogon ->]].
    rewrite (wez_cyfry_token c (j ++ ogon) Hall (jednostka_bez_cyfry j ogon Hin)).
    destruct (String.eqb c "") eqn:Ec; [apply String.eqb_eq in Ec; contradiction |].
    rewrite (find_jednostka j ogon Hin Hogon). reflexivity.
Qed.

Lemma mapowanie_mnoznik (j : string) (v : Z) :
  In j JEDNOSTKI -> mapowanie j v = mk_timedelta (v * mnoznik j).
Proof.
  unfold JEDNOSTKI. simpl.
  intros [<- | [<- | [<- | [<- | [<- | []]]]]]; reflexivity.
Qed.

(** The parser in closed form on a matching text. *)
Lemma parsuj_precyzje_token (c j : string) :
  same_cyfry c -> In j JEDNOSTKI ->
  let wynik_tokenu :=
    if (int_z_cyfr c <? 1)%Z then Rzuca ValueError
    else mk_timedelta (int_z_cyfr c * mnoznik j) in
  parsuj_precyzje (c ++ j) = wynik_tokenu /\
  parsuj_precyzje (c ++ j ++ LF) = wynik_tokenu.
Proof.
  intros Hc Hj. simpl. unfold parsuj_precyzje.
  rewrite (proj2 (dopasuj_wzorzec_iff (c ++ j) c j)) by auto.
  rewrite (proj2 (dopasuj_wzorzec_iff (c ++ j ++ LF) c j)) by auto.
  rewrite mapowanie_mnoznik by exact Hj. auto.
Qed.

Lemma parsuj_precyzje_zwraca (t : string) (d : timedelta) :
  parsuj_precyzje t = Zwraca d ->
  exists c j, same_cyfry c /\ In j JEDNOSTKI /\ (t = c ++ j \/ t = c ++ j ++ LF) /\
              (1 <= int_z_cyfr c)%Z /\ d = (int_z_cyfr c * mnoznik j)%Z.
Proof.
  unfold parsuj_precyzje.
  destruct (dopasuj_wzorzec t) as [[c j] |] eqn:E; [| discriminate].
  apply dopasuj_wzorzec_iff in E. destruct E as [Hc [Hj Ht]].
  destruct (int_z_cyfr c <? 1)%Z eqn:Ev; [discriminate |].
  apply Z.ltb_ge in Ev. rewrite mapowanie_mnoznik by exact Hj.
  unfold mk_timedelta. destruct (_ && _); [| discriminate].
  intros H; inversion H; subst. exists c, j. auto.
Qed.

Lemma parsuj_precyzje_inne (t : string) :
  (forall c j, same_cyfry c -> In j JEDNOSTKI -> t <> c ++ j /\ t <> c ++ j ++ LF) ->
  parsuj_precyzje t = Rzuca ValueError.
Proof.
  intros Hno. unfold parsuj_precyzje.
  destruct (dopasuj_wzorzec t) as [[c j] |] eqn:E; [| reflexivity].
  apply dopasuj_wzorzec_iff in E. destruct E as [Hc [Hj Ht]].
  destruct (Hno c j Hc Hj) as [H1 H2]. destruct Ht; contradiction.
Qed.

End Parser.

(* ================================================================== *)
(** * The interval scan as a whole *)
(* ================================================================== *)

Section Skan.

Import Py Modele Api Wzory.

Variable prog : R.

(** A returning scan snapped both ends and ran the loop from the first. *)
Lemma wykryj_zdarzenia_rozklad (obiekty : list ModelObiektuBD)
    (czas_start czas_koniec : datetime) (delta : timedelta)
    (zd : list ZdarzeniePrzestrz) :
  wykryj_zdarzenia_w_przedziale prog obiekty czas_start czas_koniec delta
    = Some (Zwraca zd) ->
  exists s k,
    zaokraglij_do_siatki czas_start delta = Zwraca s /\
    zaokraglij_do_siatki czas_koniec delta = Zwraca k /\
    petla_siatki prog (paliwo_siatki s k delta) obiekty s k delta []
      = Some (Zwraca zd).
Proof.
  unfold wykryj_zdarzenia_w_przedziale.
  destruct (zaokraglij_do_siatki czas_start delta) as [s | e]; [| discriminate].
  destruct (zaokraglij_do_siatki czas_koniec delta) as [k | e]; [| discriminate].
  intros H. exists s, k. auto.
Qed.

(** The scan always finishes: it returns events or raises. *)
Lemma wykryj_zdarzenia_konczy (obiekty : list ModelObiektuBD)
    (czas_start czas_koniec : datetime) (delta : timedelta) :
  wykryj_zdarzenia_w_przedziale prog obiekty czas_start czas_koniec delta <> None.
Proof.
  unfold wykryj_zdarzenia_w_przedziale.
  rewrite (zaokraglij_do_siatki_wzor czas_start), (zaokraglij_do_siatki_wzor czas_koniec).
  destruct (delta =? 0)%Z eqn:Ez; [discriminate |].
  apply Z.eqb_neq in Ez.
  destruct (w_zakresie_datetime (zaokraglenie czas_start delta)) eqn:Es; [| discriminate].
  destruct (w_zakresie_datetime (zaokraglenie czas_koniec delta)); [| discriminate].
  unfold paliwo_siatki. destruct (0 <? delta)%Z eqn:Ed.
  - apply Z.ltb_lt in Ed. apply petla_siatki_konczy_naprzod; [exact Ed | lia].
  - apply Z.ltb_ge in Ed.
    unfold w_zakresie_datetime in Es. apply andb_true_iff in Es.
    destruct Es as [Hmin _]. apply Z.leb_le in Hmin.
    apply petla_siatki_konczy_wstecz; [lia | exact Hmin | lia].
Qed.

(** Every event of the result is an event of the analysis at its instant. *)
Lemma wykryj_zdarzenia_poprawne (obiekty : list ModelObiektuBD)
    (czas_start czas_koniec : datetime) (delta : timedelta)
    (zd : list ZdarzeniePrzestrz) (z : ZdarzeniePrzestrz) :
  wykryj_zdarzenia_w_przedziale prog obiekty czas_start czas_koniec delta
    = Some (Zwraca zd) ->
  In z zd ->
  exists m, pozycje_kroku obiekty (moment_czasu z) = Zwraca m /\
            NoDup (dict_keys m) /\
            In z (zdarzenia_kroku prog m (moment_czasu z)).
Proof.
  intros H Hin. apply wykryj_zdarzenia_rozklad in H.
  destruct H as [s [k [_ [_ Hloop]]]].
  destruct (petla_siatki_poprawna prog _ _ _ _ _ _ _ _ Hloop Hin) as [[] | [m [Hm Hz]]].
  exists m. split; [exact Hm |]. split; [| exact Hz].
  apply (pozycje_kroku_NoDup _ _ _ Hm).
Qed.

(** With a forward step every tick is analysed and its events are kept. *)
Lemma wykryj_zdarzenia_kompletne (obiekty : list ModelObiektuBD)
    (czas_start czas_koniec : datetime) (delta : timedelta)
    (zd : list ZdarzeniePrzestrz) (t : datetime) :
  (0 < delta)%Z ->
  wykryj_zdarzenia_w_przedziale prog obiekty czas_start czas_koniec delta
    = Some (Zwraca zd) ->
  tyk_siatki czas_start czas_koniec delta t ->
  exists m, pozycje_kroku obiekty t = Zwraca m /\
            NoDup (dict_keys m) /\
            odleglosci_obliczone m /\
            incl (zdarzenia_kroku prog m t) zd.
Proof.
  intros Hd H [s' [k' [n [Hs' [Hk' [Hn [Ht Hle]]]]]]].
  apply wykryj_zdarzenia_rozklad in H.
  destruct H as [s [k [Hs [Hk Hloop]]]].
  rewrite Hs in Hs'. rewrite Hk in Hk'. inversion Hs'; inversion Hk'; subst s' k'.
  destruct (petla_siatki_kompletna prog _ _ _ _ _ _ _ Hd Hloop) as [_ Hticks].
  subst t. destruct (Hticks n Hn Hle) as [m [Hm [Hdist Hincl]]].
  exists m. split; [exact Hm |]. split; [| split; [exact Hdist | exact Hincl]].
  apply (pozycje_kroku_NoDup _ _ _ Hm).
Qed.

(** The shape of an event of the result: a pair [a < b] of ids of the
    position map of its instant, closer than the threshold, with the
    position of [a] as location. *)
Lemma wykryj_zdarzenia_postac (obiekty : list ModelObiektuBD)
    (czas_start czas_koniec : datetime) (delta : timedelta)
    (zd : list ZdarzeniePrzestrz) (z : ZdarzeniePrzestrz) :
  wykryj_zdarzenia_w_przedziale prog obiekty czas_start czas_koniec delta
    = Some (Zwraca zd) ->
  In z zd ->
  exists m pa pb,
    pozycje_kroku obiekty (moment_czasu z) = Zwraca m /\
    NoDup (dict_keys m) /\
    (obiekt_id_a z < obiekt_id_b z)%Z /\
    dict_get m (obiekt_id_a z) = Some pa /\
    dict_get m (obiekt_id_b z) = Some pb /\
    (odleglosc pa pb < prog)%R /\
    lokalizacja z = pa /\
    dystans_min z = odleglosc pa pb.
Proof.
  intros Hscan Hin.
  destruct (wykryj_zdarzenia_poprawne _ _ _ _ _ _ Hscan Hin) as [m [Hm [Hnd Hz]]].
  remember (moment_czasu z) as t eqn:Et.
  apply (zdarzenia_kroku_In prog m t z Hnd) in Hz.
  destruct Hz as [a [b [pa [pb [Hlt [Ea [Eb [Hd Hrec]]]]]]]].
  exists m, pa, pb. subst z. simpl in *. auto 10.
Qed.

End Skan.

(* ================================================================== *)
(** * Catalogue objects in the tick loop, and the sample catalogues *)
(* ================================================================== *)

Section Obiekty.
Import Py Modele Api Wzory.

Lemma oblicz_pozycje_w_czasie_wzor (o : ModelObiektuBD) (t : datetime) :
  (data_wprowadzenia o <= t)%Z ->
  os_dopuszczalna (SREDNICA_BAZOWA_ZIEMI + wysokosc_km (orbita_ref o))%R ->
  oblicz_pozycje_w_czasie o t = Zwraca (Some (pozycja_obiektu o t)).
Proof.
  intros Hle Ha. rewrite oblicz_pozycje_w_czasie_po_epoce by exact Hle.
  rewrite propaguj_pozycje_wzor by exact Ha. reflexivity.
Qed.

(** A position that the service returns lies at the distance of the
    semi-major axis of the object from the centre of the Earth. *)
Lemma oblicz_pozycje_w_czasie_promien (o : ModelObiektuBD) (t : datetime)
    (p : WspolrzedneGeodezyjne) :
  oblicz_pozycje_w_czasie o t = Zwraca (Some p) ->
  (SREDNICA_BAZOWA_ZIEMI + wysokosc_npm p
   = SREDNICA_BAZOWA_ZIEMI + wysokosc_km (orbita_ref o))%R.
Proof.
  unfold oblicz_pozycje_w_czasie.
  destruct (t <? data_wprowadzenia o)%Z; [discriminate |].
  destruct (Serwisy.propaguj_pozycje _ _ _) as [c | e] eqn:E; simpl; [| discriminate].
  intros H. inversion H; subst c.
  apply propaguj_pozycje_promien in E. destruct E as [_ E]. exact E.
Qed.

Lemma dodaj_pozycje_aktywny (o : ModelObiektuBD) (t : datetime)
    (m : dict WspolrzedneGeodezyjne) :
  stan_operacyjny o = AKTYWNY ->
  (data_wprowadzenia o <= t)%Z ->
  os_dopuszczalna (SREDNICA_BAZOWA_ZIEMI + wysokosc_km (orbita_ref o))%R ->
  dodaj_pozycje t m o = Zwraca (dict_set m (id_rekordu o) (pozycja_obiektu o t)).
Proof.
  intros Hs Hle Ha. unfold dodaj_pozycje.
  rewrite Hs, String.eqb_refl. simpl negb. cbv iota.
  rewrite oblicz_pozycje_w_czasie_wzor by assumption. reflexivity.
Qed.

Lemma dodaj_pozycje_nieaktywny (o : ModelObiektuBD) (t : datetime)
    (m : dict WspolrzedneGeodezyjne) :
  stan_operacyjny o <> AKTYWNY -> dodaj_pozycje t m o = Zwraca m.
Proof.
  intros Hs. unfold dodaj_pozycje.
  apply String.eqb_neq in Hs. rewrite Hs. reflexivity.
Qed.

Lemma dodaj_pozycje_zwraca (o : ModelObiektuBD) (t : datetime)
    (m : dict WspolrzedneGeodezyjne) :
  os_dopuszczalna (SREDNICA_BAZOWA_ZIEMI + wysokosc_km (orbita_ref o))%R ->
  exists m', dodaj_pozycje t m o = Zwraca m'.
Proof.
  intros Ha. unfold dodaj_pozycje.
  destruct (negb (stan_operacyjny o =? AKTYWNY)%string); [eauto |].
  destruct (Z_lt_le_dec t (data_wprowadzenia o)) as [Hlt | Hle].
  - rewrite oblicz_pozycje_w_czasie_przed_epoka by exact Hlt. simpl. eauto.
  - rewrite oblicz_pozycje_w_czasie_wzor by assumption. simpl. eauto.
Qed.

(** With accepted semi-major axes the position map of a tick is always
    obtained. *)
Lemma pozycje_kroku_zwraca (obiekty : list ModelObiektuBD) (t : datetime) :
  (forall o, In o obiekty ->
             os_dopuszczalna (SREDNICA_BAZOWA_ZIEMI + wysokosc_km (orbita_ref o))%R) ->
  exists m, pozycje_kroku obiekty t = Zwraca m.
Proof.
  unfold pozycje_kroku. generalize (@nil (Z * WspolrzedneGeodezyjne)).
  induction obiekty as [| o rest IH]; intros m Hall; simpl; [eauto |].
  destruct (dodaj_pozycje_zwraca o t m (Hall o (or_introl eq_refl))) as [m' Hm'].
  rewrite Hm'. simpl. apply IH. intros o' Hin. apply Hall. right; exact Hin.
Qed.

(** The analysis of a tick returns for a catalogue of orbits that stay
    within 1e100 km of the centre of the Earth. *)
Lemma krok_siatki_katalogu (prog : R) (obiekty : list ModelObiektuBD)
    (t : datetime) (acc : list ZdarzeniePrzestrz) :
  (forall o, In o obiekty ->
             (0 <= SREDNICA_BAZOWA_ZIEMI + wysokosc_km (orbita_ref o) <= 1e100)%R) ->
  exists m, pozycje_kroku obiekty t = Zwraca m /\
            krok_siatki prog obiekty t acc = Zwraca (acc ++ zdarzenia_kroku prog m t).
Proof.
  intros Hall.
  destruct (pozycje_kroku_zwraca obiekty t) as [m Hm].
  { intros o Hin. apply os_dopuszczalna_mala. apply Hall. exact Hin. }
  exists m. split; [exact Hm |].
  apply krok_siatki_wzor; [exact Hm |].
  assert (Hb : forall id p, dict_get m id = Some p -> promien_ograniczony 1e100 p).
  { intros id p Hget.
    destruct (pozycje_kroku_wpis _ _ _ _ _ Hm Hget) as [o [Hin [_ [_ Hpos]]]].
    unfold promien_ograniczony.
    rewrite (oblicz_pozycje_w_czasie_promien o t p Hpos).
    destruct (Hall o Hin) as [Hlo Hhi]. rewrite Rabs_pos_eq by exact Hlo. exact Hhi. }
  intros a b pa pb Ha Hb'.
  apply (dystans_do_ograniczone 1e100); [lra | eapply Hb; eassumption ..].
Qed.

(** A forward scan of such a catalogue returns its events, provided that the
    instant after the last grid point is still a [datetime]. *)
Lemma petla_siatki_zwraca (prog : R) (n : nat) (obiekty : list ModelObiektuBD)
    (t k : datetime) (d : timedelta) (acc : list ZdarzeniePrzestrz) :
  (0 < d)%Z ->
  (forall o, In o obiekty ->
             (0 <= SREDNICA_BAZOWA_ZIEMI + wysokosc_km (orbita_ref o) <= 1e100)%R) ->
  (DATETIME_MIN <= t)%Z -> (k + d <= DATETIME_MAX)%Z ->
  (Z.to_nat ((k - t) / d + 1) < n)%nat ->
  exists zd, petla_siatki prog n obiekty t k d acc = Some (Zwraca zd).
Proof.
  intros Hd Hall. revert t acc.
  induction n as [| n IH]; intros t acc Hmin Hmax Hn; [lia |].
  cbn [petla_siatki]. destruct (t <=? k)%Z eqn:E; [| eauto].
  apply Z.leb_le in E.
  destruct (krok_siatki_katalogu prog obiekty t acc Hall) as [m [_ Hk]]. rewrite Hk.
  unfold datetime_add, w_zakresie_datetime.
  replace (DATETIME_MIN <=? t + d)%Z with true by (symmetry; apply Z.leb_le; lia).
  replace (t + d <=? DATETIME_MAX)%Z with true by (symmetry; apply Z.leb_le; lia).
  simpl. apply IH; [lia | exact Hmax |].
  assert (Hq : ((k - (t + d)) / d = (k - t) / d - 1)%Z).
  { replace (k - (t + d))%Z with ((k - t) + (-1) * d)%Z by ring.
    rewrite Z.div_add by lia. lia. }
  rewrite Hq.
  assert (0 <= (k - t) / d)%Z by (apply Z.div_pos; lia).
  lia.
Qed.

Lemma wykryj_zdarzenia_zwraca (prog : R) (obiekty : list ModelObiektuBD)
    (czas_start czas_koniec s k : datetime) (delta : timedelta) :
  (0 < delta)%Z ->
  (forall o, In o obiekty ->
             (0 <= SREDNICA_BAZOWA_ZIEMI + wysokosc_km (orbita_ref o) <= 1e100)%R) ->
  zaokraglij_do_siatki czas_start delta = Zwraca s ->
  zaokraglij_do_siatki czas_koniec delta = Zwraca k ->
  (k + delta <= DATETIME_MAX)%Z ->
  exists zd,
    wykryj_zdarzenia_w_przedziale prog obiekty czas_start czas_koniec delta
    = Some (Zwraca zd).
Proof.
  intros Hd Hall Hs Hk Hmax. unfold wykryj_zdarzenia_w_przedziale.
  rewrite Hs, Hk.
  assert (Hmin : (DATETIME_MIN <= s)%Z).
  { rewrite zaokraglij_do_siatki_wzor in Hs.
    destruct (delta =? 0)%Z; [discriminate |].
    destruct (w_zakresie_datetime (zaokraglenie czas_start delta)) eqn:Er;
      [| discriminate].
    inversion Hs; subst s. unfold w_zakresie_datetime in Er.
    apply andb_true_iff in Er. destruct Er as [Er _]. apply Z.leb_le. exact Er. }
  apply petla_siatki_zwraca; try assumption.
  unfold paliwo_siatki. apply Z.ltb_lt in Hd. rewrite Hd. lia.
Qed.

(** An exception of the propagation at the first tick leaves the whole
    scan: the interval scan has no handler around the position service. *)
Lemma wykryj_zdarzenia_przerwane (prog : R) (obiekty : list ModelObiektuBD)
    (czas_start czas_koniec s k : datetime) (delta : timedelta) (e : wyjatek) :
  zaokraglij_do_siatki czas_start delta = Zwraca s ->
  zaokraglij_do_siatki czas_koniec delta = Zwraca k ->
  (s <= k)%Z ->
  pozycje_kroku obiekty s = Rzuca e ->
  wykryj_zdarzenia_w_przedziale prog obiekty czas_start czas_koniec delta
  = Some (Rzuca e).
Proof.
  intros Hs Hk Hle He. unfold wykryj_zdarzenia_w_przedziale.
  rewrite Hs, Hk. unfold paliwo_siatki.
  destruct (0 <? delta)%Z; cbn [petla_siatki];
    apply Z.leb_le in Hle; rewrite Hle; unfold krok_siatki; rewrite He; reflexivity.
Qed.

End Obiekty.

Section Ewaluacja.
Import Py Modele Api Wzory Przyklady.

Lemma os_leo : os_dopuszczalna (SREDNICA_BAZOWA_ZIEMI + wysokosc_km orbita_leo)%R.
Proof.
  apply os_dopuszczalna_mala. simpl. unfold SREDNICA_BAZOWA_ZIEMI. lra.
Qed.

Lemma pozycje_katalogu (t : datetime) :
  (0 <= t < GODZINA)%Z ->
  pozycje_kroku katalog t =
  Zwraca [ (2%Z, pozycja_obiektu (obiekt 2 0%Z "active" orbita_leo) t);
           (1%Z, pozycja_obiektu (obiekt 1 0%Z "active" orbita_leo) t) ].
Proof.
  intros [H0 H1]. unfold pozycje_kroku, katalog. cbn [dla_kazdego].
  rewrite dodaj_pozycje_aktywny; [| reflexivity | exact H0 | exact os_leo].
  cbn [bind].
  rewrite dodaj_pozycje_przed_epoka by exact H1. cbn [bind].
  rewrite dodaj_pozycje_aktywny; [| reflexivity | exact H0 | exact os_leo].
  cbn [bind].
  rewrite dodaj_pozycje_nieaktywny by discriminate.
  reflexivity.
Qed.

Lemma pozycja_leo_wspolna (t : datetime) :
  pozycja_obiektu (obiekt 2 0%Z "active" orbita_leo) t =
  pozycja_obiektu (obiekt 1 0%Z "active" orbita_leo) t.
Proof. reflexivity. Qed.

Lemma zdarzenia_katalogu (prog : R) (t : datetime) :
  (0 < prog)%R -> (0 <= t < GODZINA)%Z ->
  zdarzenia_kroku prog
    [ (2%Z, pozycja_obiektu (obiekt 2 0%Z "active" orbita_leo) t);
      (1%Z, pozycja_obiektu (obiekt 1 0%Z "active" orbita_leo) t) ] t
  = [zdarzenie_leo t].
Proof.
  intros Hp Ht. unfold zdarzenia_kroku.
  change (sorted (dict_keys _)) with [1%Z; 2%Z].
  cbn [pary map app flat_map]. unfold zdarzenia_pary.
  cbn [fst snd dict_get Z.eqb Pos.eqb].
  rewrite pozycja_leo_wspolna, odleglosc_do_siebie.
  destruct (Rlt_dec 0 prog) as [_ | Hn]; [| contradiction].
  reflexivity.
Qed.

(** In a map whose entries are all at one place every distance is computed. *)
Lemma dystans_w_jednym_miejscu (m : dict WspolrzedneGeodezyjne)
    (p0 : WspolrzedneGeodezyjne) :
  Forall (fun wpis => snd wpis = p0) m ->
  forall a b pa pb, dict_get m a = Some pa -> dict_get m b = Some pb ->
                    dystans_do pa pb = Zwraca (odleglosc pa pb).
Proof.
  intros Hall.
  assert (Hget : forall k p, dict_get m k = Some p -> p = p0).
  { induction Hall as [| wpis rest Hv Hrest IH]; intros k p; simpl.
    - discriminate.
    - destruct wpis as [k' v']. simpl in Hv.
      destruct (k' =? k)%Z; [| apply IH].
      intros H. inversion H; subst. reflexivity. }
  intros a b pa pb Ha Hb.
  rewrite (Hget a pa Ha), (Hget b pb Hb), odleglosc_do_siebie.
  apply dystans_do_siebie.
Qed.

Lemma krok_katalogu (prog : R) (t : datetime) (acc : list ZdarzeniePrzestrz) :
  (0 < prog)%R -> (0 <= t < GODZINA)%Z ->
  krok_siatki prog katalog t acc = Zwraca (acc ++ [zdarzenie_leo t]).
Proof.
  intros Hp Ht.
  rewrite (krok_siatki_wzor prog katalog t acc _ (pozycje_katalogu t Ht)).
  - rewrite zdarzenia_katalogu by assumption. reflexivity.
  - apply (dystans_w_jednym_miejscu _
             (pozycja_obiektu (obiekt 1 0%Z "active" orbita_leo) t)).
    repeat constructor.
Qed.

Lemma skan_katalogu (prog : R) :
  (0 < prog)%R ->
  wykryj_zdarzenia_w_przedziale prog katalog 0%Z MINUTA MINUTA =
  Some (Zwraca [zdarzenie_leo 0%Z; zdarzenie_leo MINUTA]).
Proof.
  intros Hp. unfold wykryj_zdarzenia_w_przedziale.
  change (zaokraglij_do_siatki 0%Z MINUTA) with (Zwraca (A := datetime) 0%Z).
  change (zaokraglij_do_siatki MINUTA MINUTA) with (Zwraca (A := datetime) MINUTA).
  cbv iota beta.
  change (paliwo_siatki 0%Z MINUTA MINUTA) with 3%nat.
  cbn [petla_siatki].
  change (0 <=? MINUTA)%Z with true. cbv iota.
  rewrite krok_katalogu by (try exact Hp; unfold GODZINA; lia).
  change (datetime_add 0%Z MINUTA) with (Zwraca (A := datetime) MINUTA).
  cbv iota beta.
  change (MINUTA <=? MINUTA)%Z with true. cbv iota.
  rewrite krok_katalogu by (try exact Hp; unfold GODZINA, MINUTA; lia).
  change (datetime_add MINUTA MINUTA) with (Zwraca (A := datetime) 120000000%Z).
  cbv iota beta.
  change (120000000 <=? MINUTA)%Z with false. cbv iota.
  reflexivity.
Qed.

End Ewaluacja.

Section Zdegenerowane.

Import Py Modele Api Wzory Przyklady.
Local Open Scope R_scope.

(** A semi-major axis of 0 has period 0, hence guarded angular velocity 0. *)
Lemma predkosc_katowa_z_progiem_zero (a : R) :
  a = 0 -> predkosc_katowa_z_progiem a = 0.
Proof.
  intros ->. unfold predkosc_katowa_z_progiem, okres.
  replace (0 ^ 3 / 398600.4418) with 0 by (simpl; unfold Rdiv; ring).
  rewrite sqrt_0.
  destruct (Rlt_dec 1e-9 (2 * PI * 0)) as [H | _]; [lra | reflexivity].
Qed.

Lemma os_zdegenerowana :
  os_dopuszczalna (SREDNICA_BAZOWA_ZIEMI + wysokosc_km orbita_zdegenerowana).
Proof.
  apply os_dopuszczalna_mala. simpl. unfold SREDNICA_BAZOWA_ZIEMI. lra.
Qed.

Lemma oblicz_predkosc_katowa_zdegenerowana :
  oblicz_predkosc_katowa
    (parametry_obiektu (obiekt 1 0%Z "active" orbita_zdegenerowana)) = Zwraca 0.
Proof.
  rewrite oblicz_predkosc_katowa_wzor by exact os_zdegenerowana.
  rewrite predkosc_katowa_z_progiem_zero
    by (simpl; unfold SREDNICA_BAZOWA_ZIEMI; lra).
  reflexivity.
Qed.

Lemma pozycje_katalogu_zdegenerowanego :
  pozycje_kroku katalog_zdegenerowany 0%Z =
  Zwraca [ (1%Z, pozycja_obiektu (obiekt 1 0%Z "active" orbita_zdegenerowana) 0%Z);
           (2%Z, pozycja_obiektu (obiekt 2 0%Z "active" orbita_zdegenerowana) 0%Z) ].
Proof.
  unfold pozycje_kroku, katalog_zdegenerowany. cbn [dla_kazdego].
  rewrite dodaj_pozycje_aktywny;
    [| reflexivity | simpl; lia | exact os_zdegenerowana].
  cbn [bind].
  rewrite dodaj_pozycje_aktywny;
    [| reflexivity | simpl; lia | exact os_zdegenerowana].
  reflexivity.
Qed.

Lemma skan_katalogu_zdegenerowanego (prog : R) :
  0 < prog ->
  wykryj_zdarzenia_w_przedziale prog katalog_zdegenerowany 0%Z 0%Z MINUTA =
  Some (Zwraca [zdarzenie_zdegenerowane 0%Z]).
Proof.
  intros Hp. unfold wykryj_zdarzenia_w_przedziale.
  change (zaokraglij_do_siatki 0%Z MINUTA) with (Zwraca (A := datetime) 0%Z).
  cbv iota beta.
  change (paliwo_siatki 0%Z 0%Z MINUTA) with 2%nat.
  cbn [petla_siatki].
  change (0 <=? 0)%Z with true. cbv iota.
  rewrite (krok_siatki_wzor prog katalog_zdegenerowany 0%Z [] _
             pozycje_katalogu_zdegenerowanego).
  - unfold zdarzenia_kroku.
    change (sorted (dict_keys _)) with [1%Z; 2%Z].
    cbn [pary map app flat_map]. unfold zdarzenia_pary.
    cbn [fst snd dict_get Z.eqb Pos.eqb].
    change (pozycja_obiektu (obiekt 2 0%Z "active" orbita_zdegenerowana) 0%Z)
      with (pozycja_obiektu (obiekt 1 0%Z "active" orbita_zdegenerowana) 0%Z).
    rewrite odleglosc_do_siebie.
    destruct (Rlt_dec 0 prog) as [_ | Hn]; [| contradiction].
    change (datetime_add 0%Z MINUTA) with (Zwraca (A := datetime) MINUTA).
    cbv iota beta.
    change (MINUTA <=? 0)%Z with false. cbv iota.
    reflexivity.
  - apply (dystans_w_jednym_miejscu _
             (pozycja_obiektu (obiekt 1 0%Z "active" orbita_zdegenerowana) 0%Z)).
    repeat constructor.
Qed.

End Zdegenerowane.

(* ================================================================== *)
(** * The services of [satelity_serwisy.py] *)
(* ================================================================== *)

Section UslugiSerwisow.

Import Py Modele Serwisy Wzory.
Local Open Scope R_scope.

Lemma total_seconds_ujemne (d : timedelta) : (d < 0)%Z -> total_seconds d < 0.
Proof.
  intros Hd. unfold total_seconds. apply IZR_lt in Hd.
  assert (Hinv : 0 < / 1000000) by (apply Rinv_0_lt_compat; lra).
  unfold Rdiv. nra.
Qed.

Lemma total_seconds_nieujemne (d : timedelta) : (0 <= d)%Z -> 0 <= total_seconds d.
Proof.
  intros Hd. unfold total_seconds. apply IZR_le in Hd.
  assert (Hinv : 0 < / 1000000) by (apply Rinv_0_lt_compat; lra).
  unfold Rdiv. nra.
Qed.

(** The entry point of the propagator raises for an instant before the
    start date. *)
Lemma oblicz_pozycje_kepler_przed_epoka (p : ParametryOrbitalne)
    (moment data_startowa : datetime) (l0 : R) :
  (moment < data_startowa)%Z ->
  oblicz_pozycje_kepler p moment l0 data_startowa = Rzuca BladObliczenOrbitych.
Proof.
  intros Hlt. unfold oblicz_pozycje_kepler.
  destruct (Rlt_dec (total_seconds (moment - data_startowa)%Z) 0) as [_ | Hn];
    [reflexivity |].
  exfalso. apply Hn. apply total_seconds_ujemne. lia.
Qed.

(** It raises as well when the angular velocity is below the epsilon. *)
Lemma oblicz_pozycje_kepler_mala_predkosc (p : ParametryOrbitalne)
    (moment data_startowa : datetime) (l0 omega : R) :
  (data_startowa <= moment)%Z ->
  oblicz_predkosc_katowa p = Zwraca omega ->
  Rabs omega < EPSILON_NUMERYCZNY ->
  oblicz_pozycje_kepler p moment l0 data_startowa = Rzuca BladObliczenOrbitych.
Proof.
  intros Hle Hom Hsmall. unfold oblicz_pozycje_kepler.
  destruct (Rlt_dec (total_seconds (moment - data_startowa)%Z) 0) as [_ | _];
    [reflexivity |].
  rewrite Hom. simpl.
  destruct (Rlt_dec (Rabs omega) EPSILON_NUMERYCZNY) as [_ | Hn];
    [reflexivity | contradiction].
Qed.

(** Otherwise it is the propagation over the elapsed seconds. *)
Lemma oblicz_pozycje_kepler_propaguje (p : ParametryOrbitalne)
    (moment data_startowa : datetime) (l0 omega : R) :
  (data_startowa <= moment)%Z ->
  oblicz_predkosc_katowa p = Zwraca omega ->
  EPSILON_NUMERYCZNY <= Rabs omega ->
  oblicz_pozycje_kepler p moment l0 data_startowa =
  propaguj_pozycje p (total_seconds (moment - data_startowa)%Z) l0.
Proof.
  intros Hle Hom Hbig. unfold oblicz_pozycje_kepler.
  destruct (Rlt_dec (total_seconds (moment - data_startowa)%Z) 0) as [Hneg | _].
  - exfalso. pose proof (total_seconds_nieujemne (moment - data_startowa)%Z ltac:(lia)).
    lra.
  - rewrite Hom. simpl.
    destruct (Rlt_dec (Rabs omega) EPSILON_NUMERYCZNY) as [Hs | _]; [lra | reflexivity].
Qed.

Context {propagator : PropagatorOrbity} {walidator : WalidatorCzasowy}.

(** In [wykryj_kolizje] an object whose position computation raises, with
    whatever exception, is left out and the other objects are kept. *)
Lemma zbierz_pozycje_pomija (sesja_bd : Session) (znacznik : string)
    (l1 l2 : list ModelObiektuBD) (o : ModelObiektuBD) (e : wyjatek) :
  oblicz_pozycje_obiektu sesja_bd (id_rekordu o) znacznik = Rzuca e ->
  zbierz_pozycje sesja_bd znacznik (l1 ++ o :: l2) =
  zbierz_pozycje sesja_bd znacznik (l1 ++ l2).
Proof.
  intros He. unfold zbierz_pozycje. rewrite !fold_left_app. simpl.
  rewrite He. reflexivity.
Qed.

(** The pair body of [wykryj_kolizje]: threshold included, midpoint as the
    location, ids in the order of the loops. *)
Lemma sprawdz_pare_kolizji_wzor (prog : R) (m : dict WspolrzedneGeodezyjne)
    (znacznik : string) (moment : datetime) (acc : list ZdarzeniePrzestrz)
    (a b : Z) (pa pb : WspolrzedneGeodezyjne) :
  dict_get m a = Some pa -> dict_get m b = Some pb ->
  dystans_do pa pb = Zwraca (odleglosc pa pb) ->
  waliduj_znacznik znacznik = Zwraca moment ->
  sprawdz_pare_kolizji prog m znacznik acc (a, b) =
  Zwraca (acc ++
          if Rle_dec (odleglosc pa pb) prog then
            [ {| obiekt_id_a := a; obiekt_id_b := b; moment_czasu := moment;
                 lokalizacja := punkt_srodkowy pa pb;
                 dystans_min := odleglosc pa pb |} ]
          else []).
Proof.
  intros Ha Hb Hd Hw. unfold sprawdz_pare_kolizji.
  rewrite (dict_getitem_klucz _ _ _ _ Ha), (dict_getitem_klucz _ _ _ _ Hb).
  simpl bind. rewrite Hd. simpl bind.
  destruct (Rle_dec (odleglosc pa pb) prog).
  - rewrite Hw. reflexivity.
  - rewrite app_nil_r. reflexivity.
Qed.

End UslugiSerwisow.

(* ================================================================== *)
(** * Properties stated by the specification: the propagator *)
(* ================================================================== *)

Section WlasnosciPropagatora.

Import Py Modele Serwisy Wzory Przyklady.
Local Open Scope R_scope.

Lemma radians_90 : radians 90 = PI / 2.
Proof. unfold radians. field. Qed.

Lemma radians_0 : radians 0 = 0.
Proof. unfold radians. ring. Qed.

Lemma degrees_pol_pi : degrees (PI / 2) = 90.
Proof. unfold degrees. field. apply PI_neq0. Qed.

Lemma float_mod_zero (m : R) : 0 < m -> float_mod 0 m = 0.
Proof. intros Hm. apply float_mod_maly. lra. Qed.

(** One millimetre of semi-major axis: the radicand of the period is
    positive and the period is below the epsilon. *)
Lemma milimetr_radicand : 0 < 1e-6 ^ 3 / 398600.4418 <= 1e-11 * 1e-11.
Proof. simpl. lra. Qed.

Lemma milimetr_pierwiastek : 0 < sqrt (1e-6 ^ 3 / 398600.4418) <= 1e-11.
Proof.
  destruct milimetr_radicand as [Hpos Hle]. split.
  - apply sqrt_lt_R0. exact Hpos.
  - rewrite <- (sqrt_square 1e-11) by lra. apply sqrt_le_1_alt. exact Hle.
Qed.

Lemma milimetr_predkosc_z_progiem : predkosc_katowa_z_progiem 1e-6 = 0.
Proof.
  unfold predkosc_katowa_z_progiem, okres.
  destruct milimetr_pierwiastek as [Hpos Hle].
  pose proof PI_4 as Hpi4. pose proof PI_RGT_0 as Hpi0.
  destruct (Rlt_dec 1e-9 (2 * PI * sqrt (1e-6 ^ 3 / 398600.4418))) as [Hgt | _];
    [nra | reflexivity].
Qed.

(** C1, counterexample.  On the orbit with a semi-major axis of one
    millimetre the period is below 1e-9, so the code propagates with angular
    velocity 0.0: the latitude it returns is 0, while the formula of the
    claim, with angular velocity [2 PI / (2 PI sqrt (a^3 / mu))], gives 90. *)
Lemma C1_counterexample_guarded_velocity :
  (exists c, propaguj_pozycje parametry_milimetr czas_cwierc_obrotu 0 = Zwraca c
             /\ szer_geogr c = 0) /\
  degrees (asin (sin (radians 90) *
                 sin (float_mod
                        (2 * PI / (2 * PI * sqrt (1e-6 ^ 3 / 398600.4418))
                         * czas_cwierc_obrotu + radians 0)
                        (2 * PI)))) = 90.
Proof.
  destruct milimetr_pierwiastek as [Hpos _]. pose proof PI_RGT_0 as Hpi.
  split.
  - eexists. split.
    + apply propaguj_pozycje_wzor. apply os_dopuszczalna_mala. simpl. lra.
    + simpl. rewrite milimetr_predkosc_z_progiem.
      unfold argument_orbity. rewrite radians_0.
      replace (0 * czas_cwierc_obrotu + 0) with 0 by ring.
      rewrite float_mod_zero by lra.
      rewrite sin_0, Rmult_0_r, asin_0. unfold degrees. ring.
  - replace (2 * PI / (2 * PI * sqrt (1e-6 ^ 3 / 398600.4418))
             * czas_cwierc_obrotu + radians 0) with (PI / 2)
      by (unfold czas_cwierc_obrotu; rewrite radians_0; field; lra).
    rewrite float_mod_maly by lra.
    rewrite radians_90, sin_PI2, Rmult_1_r, asin_1. apply degrees_pol_pi.
Qed.

(** A negative semi-major axis does not give a coordinate at all. *)
Lemma propaguj_pozycje_ujemna_os :
  propaguj_pozycje {| polOs_wielka := -1; inklinacja_kat := 0; wezl_wstepujacy := 0 |}
                   0 0 = Rzuca ValueError.
Proof.
  unfold propaguj_pozycje. rewrite oblicz_predkosc_katowa_ujemna; [reflexivity | |].
  - simpl. lra.
  - destruct FLOAT_MAX_zakres as [Hmax _]. simpl.
    replace (-1 * (-1 * (-1 * 1))) with (- (1)) by ring.
    rewrite Rabs_Ropp, Rabs_R1. lra.
Qed.

(** C1, amended.  For every orbital parameters with a semi-major axis
    [a >= 0] whose cube is a float, every elapsed time [t] and every initial
    longitude [l0], the propagation returns the coordinate with
    latitude [degrees (asin (sin i_rad * sin u))],
    longitude the normalisation of
    [degrees (atan2 (cos i_rad * sin u) (cos u) + raan_rad)]
    and altitude [a - 6371.0], where [u = (omega * t + l0_rad) mod 2 PI] and
    the angular velocity [omega] is [2 PI / (2 PI sqrt (a^3 / 398600.4418))]
    when that period exceeds 1e-9 and 0.0 otherwise.  The altitude does not
    depend on [t]. *)
Theorem C1_propagate_closed_form (p : ParametryOrbitalne) (t l0 : R) :
  0 <= polOs_wielka p ->
  polOs_wielka p ^ 3 <= FLOAT_MAX ->
  let a := polOs_wielka p in
  let okres := 2 * PI * sqrt (a ^ 3 / 398600.4418) in
  let omega := if Rlt_dec 1e-9 okres then 2 * PI / okres else 0 in
  let i_rad := radians (inklinacja_kat p) in
  let raan_rad := radians (wezl_wstepujacy p) in
  let u := float_mod (omega * t + radians l0) (2 * PI) in
  propaguj_pozycje p t l0 =
  Zwraca {| szer_geogr := degrees (asin (sin i_rad * sin u));
            dlug_geogr :=
              _normalizuj_dlugosc
                (degrees (atan2 (cos i_rad * sin u) (cos u) + raan_rad));
            wysokosc_npm := a - 6371.0 |}.
Proof.
  intros Ha Hmax. cbv zeta.
  rewrite propaguj_pozycje_wzor by (split; assumption).
  unfold wspolrzedne, argument_orbity, predkosc_katowa_z_progiem,
    predkosc_katowa, okres.
  reflexivity.
Qed.

Lemma C1_propagate_closed_form_witness :
  0 <= 6921 /\ 6921 ^ 3 <= FLOAT_MAX /\
  exists c,
    propaguj_pozycje
      {| polOs_wielka := 6921; inklinacja_kat := 51.6; wezl_wstepujacy := 0 |}
      600 0 = Zwraca c /\
    wysokosc_npm c = 6921 - 6371.0.
Proof.
  assert (H : 0 <= 6921) by lra.
  assert (Hmax : 6921 ^ 3 <= FLOAT_MAX)
    by (destruct FLOAT_MAX_zakres as [Hm _]; simpl; lra).
  split; [exact H |]. split; [exact Hmax |].
  eexists. split.
  - exact (C1_propagate_closed_form
             {| polOs_wielka := 6921; inklinacja_kat := 51.6; wezl_wstepujacy := 0 |}
             600 0 H Hmax).
  - reflexivity.
Defined.

(** Above the Earth radius the guard never fires: the angular velocity is
    the unguarded quotient. *)
Lemma predkosc_katowa_nad_ziemia (a : R) :
  6371 < a -> predkosc_katowa_z_progiem a = predkosc_katowa a.
Proof.
  intros Ha. unfold predkosc_katowa_z_progiem.
  destruct (Rlt_dec 1e-9 (okres a)) as [_ | Hn]; [reflexivity |].
  exfalso. apply Hn. apply okres_powyzej_progu. exact Ha.
Qed.

(** C6, amended.  The normalisation maps every number into the closed
    interval [[-180, 180]] that its docstring names, and into
    [[-180, 180)] every number that is at least -180; every longitude that
    the propagator returns is a value of the normalisation.  The upper end
    180 is left in: in binary64 it is returned for the number just below
    -180. *)
Theorem C6_longitude_in_closed_interval :
  (forall x : R, -180 <= _normalizuj_dlugosc x <= 180) /\
  (forall x : R, -180 <= x -> -180 <= _normalizuj_dlugosc x < 180) /\
  (forall (p : ParametryOrbitalne) (t l0 : R),
      match propaguj_pozycje p t l0 with
      | Zwraca c => exists y : R, dlug_geogr c = _normalizuj_dlugosc y
      | Rzuca _ => True
      end).
Proof.
  split; [| split].
  - intros x. pose proof (normalizuj_dlugosc_zakres x). lra.
  - intros x _. apply normalizuj_dlugosc_zakres.
  - intros p t l0.
    destruct (propaguj_pozycje_przypadki p t l0) as [[_ ->] | [_ [e ->]]].
    + simpl. eexists. reflexivity.
    + exact I.
Qed.

(** C10, counterexample.  A semi-major axis of 1e200 is finite and not
    negative, but its cube is beyond the largest float: the power in the
    orbital period raises [OverflowError] and no coordinate is returned. *)
Lemma C10_counterexample_power_overflow :
  0 <= 1e200 /\
  propaguj_pozycje
    {| polOs_wielka := 1e200; inklinacja_kat := 0; wezl_wstepujacy := 0 |} 0 0
  = Rzuca OverflowError.
Proof.
  split; [lra |].
  unfold propaguj_pozycje.
  rewrite oblicz_predkosc_katowa_przepelnienie; [reflexivity |].
  destruct FLOAT_MAX_zakres as [_ Hmax]. simpl polOs_wielka.
  rewrite Rabs_pos_eq by (simpl; lra). simpl. lra.
Qed.

(** C10, amended.  For a non-negative semi-major axis whose cube is a float
    the propagation returns a coordinate for every elapsed time and initial
    longitude: the argument of [asin] is a product of two sines and lies in
    [[-1, 1]], so [math.asin] does not raise; and with an angular velocity
    of exactly 0.0 the returned coordinate is the same for every elapsed
    time. *)
Theorem C10_propagate_total (p : ParametryOrbitalne) (t l0 : R) :
  0 <= polOs_wielka p ->
  polOs_wielka p ^ 3 <= FLOAT_MAX ->
  (exists c, propaguj_pozycje p t l0 = Zwraca c) /\
  (forall u : R,
      -1 <= sin (radians (inklinacja_kat p)) * sin u <= 1 /\
      math_asin (sin (radians (inklinacja_kat p)) * sin u)
      = Zwraca (asin (sin (radians (inklinacja_kat p)) * sin u))) /\
  (oblicz_predkosc_katowa p = Zwraca 0 ->
   exists c, forall t' : R, propaguj_pozycje p t' l0 = Zwraca c).
Proof.
  intros Ha Hmax. split; [| split].
  - eexists. apply propaguj_pozycje_wzor. split; assumption.
  - intros u. split; [apply iloczyn_sinusow_zakres | apply math_asin_iloczyn_sinusow].
  - intros Hom. exists (wspolrzedne 0 p 0 l0). intros t'.
    rewrite (propaguj_pozycje_dla_predkosci p 0 t' l0 Hom).
    unfold wspolrzedne, argument_orbity.
    replace (0 * t' + radians l0) with (0 * 0 + radians l0) by ring.
    reflexivity.
Qed.

Lemma C10_propagate_total_witness :
  0 <= 0 /\ 0 ^ 3 <= FLOAT_MAX /\
  exists c, forall t' : R,
    propaguj_pozycje
      {| polOs_wielka := 0; inklinacja_kat := 51.6; wezl_wstepujacy := 0 |}
      t' 0 = Zwraca c.
Proof.
  assert (H : 0 <= 0) by lra.
  assert (Hmax : 0 ^ 3 <= FLOAT_MAX)
    by (destruct FLOAT_MAX_zakres as [Hm _]; simpl; lra).
  split; [exact H |]. split; [exact Hmax |].
  destruct (C10_propagate_total
              {| polOs_wielka := 0; inklinacja_kat := 51.6; wezl_wstepujacy := 0 |}
              0 0 H Hmax) as [_ [_ Hconst]].
  apply Hconst.
  rewrite oblicz_predkosc_katowa_wzor by (split; [exact H | exact Hmax]).
  rewrite predkosc_katowa_z_progiem_zero by reflexivity.
  reflexivity.
Defined.

End WlasnosciPropagatora.

(* ================================================================== *)
(** * Where binary64 rounding decides *)
(* ================================================================== *)

Section Zaokraglenia.

Import Stdlib.Floats.PrimFloat.
Import Py.

(** C6, counterexample.  In binary64 the normalisation returns 180.0 for
    the number just below -180, [-180 - 2^-45]: the sum with 180 is
    [-2^-45], the remainder of the C library is negative, and its sum with
    360 rounds to 360.0.  The result is not strictly below 180. *)
Lemma C6_counterexample_rounded_to_180 :
  ((-0x1.6800000000001p+7) + 180 = -0x1p-45)%float /\
  Binary64.float_mod (-0x1p-45)%float 360%float = Zwraca 360%float /\
  Binary64._normalizuj_dlugosc (-0x1.6800000000001p+7)%float = Zwraca 180%float /\
  (180 <? 180)%float = false.
Proof. repeat split; vm_compute; reflexivity. Qed.

(** C8, at the failing input.  2110-01-01T00:00:00.006Z is 4417977600006
    steps of one millisecond after the epoch, an instant on the millisecond
    grid.  In binary64 the product of the step count and the step, 0.001
    seconds, is rounded, and [fromtimestamp] rounds its fraction to 6001
    microseconds: the aligned instant comes back one microsecond later, off
    the grid.  On the grid of one microsecond snapping twice is not
    snapping once either: the first result is moved by the second
    snapping. *)
Lemma C8_aligned_instant_moved :
  (4417977600006000 = 4417977600006 * 1000)%Z /\
  Binary64.zaokraglij_do_siatki 4417977600006000%Z 1000%Z
  = Zwraca 4417977600006001%Z /\
  Binary64.zaokraglij_do_siatki 4393696283615212%Z 1%Z
  = Zwraca 4393696283615211%Z /\
  Binary64.zaokraglij_do_siatki 4393696283615211%Z 1%Z
  = Zwraca 4393696283615210%Z.
Proof. repeat split; vm_compute; reflexivity. Qed.

(** On grids of whole seconds the binary64 snapping and the exact one return
    the same instants: at a tie, next to a tie, before the epoch, and in the
    last year of the calendar. *)
Lemma zaokraglij_do_siatki_binary64_sekundy :
  Binary64.zaokraglij_do_siatki 90000000%Z 60000000%Z
  = Api.zaokraglij_do_siatki 90000000%Z 60000000%Z /\
  Binary64.zaokraglij_do_siatki 90000001%Z 60000000%Z
  = Api.zaokraglij_do_siatki 90000001%Z 60000000%Z /\
  Binary64.zaokraglij_do_siatki (-1500000)%Z 1000000%Z
  = Api.zaokraglij_do_siatki (-1500000)%Z 1000000%Z /\
  Binary64.zaokraglij_do_siatki 253370764800000000%Z 7000000%Z
  = Api.zaokraglij_do_siatki 253370764800000000%Z 7000000%Z.
Proof. repeat split; vm_compute; reflexivity. Qed.

End Zaokraglenia.

(* ================================================================== *)
(** * Properties stated by the specification: the time grid *)
(* ================================================================== *)

Section WlasnosciSiatki.

Import Py Modele Api Wzory Przyklady.
Local Open Scope Z_scope.

(** In exact arithmetic a snapped instant is a grid point: snapping it again
    returns it. *)
Lemma zaokraglij_do_siatki_stale (dt g : datetime) (delta : timedelta) :
  zaokraglij_do_siatki dt delta = Zwraca g ->
  zaokraglij_do_siatki g delta = Zwraca g.
Proof.
  rewrite (zaokraglij_do_siatki_wzor dt).
  destruct (delta =? 0) eqn:Ez; [discriminate |].
  destruct (w_zakresie_datetime (zaokraglenie dt delta)) eqn:Er; [| discriminate].
  intros H. inversion H; subst g. clear H.
  rewrite zaokraglij_do_siatki_wzor, Ez.
  apply Z.eqb_neq in Ez.
  assert (Hg : zaokraglenie (zaokraglenie dt delta) delta = zaokraglenie dt delta).
  { unfold zaokraglenie at 2 3. apply zaokraglenie_na_siatce. exact Ez. }
  rewrite Hg, Er. reflexivity.
Qed.

(** The examples of the specification for the parser. *)
Example parsuj_precyzje_5m : parsuj_precyzje "5m" = Zwraca (5 * MINUTA).
Proof. reflexivity. Qed.

Example parsuj_precyzje_0s : parsuj_precyzje "0s" = Rzuca ValueError.
Proof. reflexivity. Qed.

Example parsuj_precyzje_minus_3h : parsuj_precyzje "-3h" = Rzuca ValueError.
Proof. reflexivity. Qed.

Example parsuj_precyzje_3x : parsuj_precyzje "3x" = Rzuca ValueError.
Proof. reflexivity. Qed.

(** A magnitude beyond the range of [timedelta] is neither accepted nor
    rejected as a format error. *)
Example parsuj_precyzje_za_duze :
  parsuj_precyzje "1000000000d" = Rzuca OverflowError.
Proof. reflexivity. Qed.

(** The parser never returns a duration below one millisecond. *)
Lemma parsuj_precyzje_dodatnie (t : string) (d : timedelta) :
  parsuj_precyzje t = Zwraca d -> 1000 <= d.
Proof.
  intros H. apply parsuj_precyzje_zwraca in H.
  destruct H as [c [j [_ [Hj [_ [Hv ->]]]]]].
  unfold JEDNOSTKI in Hj. simpl in Hj.
  destruct Hj as [<- | [<- | [<- | [<- | [<- | []]]]]]; unfold mnoznik; simpl; lia.
Qed.

(** C9, at the failing input.  The text made of the token ["5m"] and one
    line feed is not a token of the form [<integer>(ms|s|m|h|d)], yet the
    parser accepts it, as five minutes: [$] in the pattern also matches just
    before a final line feed. *)
Theorem C9_trailing_newline_accepted :
  parsuj_precyzje ("5m" ++ LF) = Zwraca (5 * MINUTA) /\
  dopasuj_wzorzec ("5m" ++ LF) = Some ("5"%string, "m"%string).
Proof. split; reflexivity. Qed.

End WlasnosciSiatki.

(* ================================================================== *)
(** * Properties stated by the specification: the close-approach scan *)
(* ================================================================== *)

Section WlasnosciSkanu.

Import Py Modele Api Wzory Przyklady.

Lemma tolerancja_dodatnia : (0 < TOLERANCJA_ZBLIZENIA)%R.
Proof. unfold TOLERANCJA_ZBLIZENIA. lra. Qed.

(** A coordinate is the midpoint of itself and another one only when the
    two coincide. *)
Lemma punkt_srodkowy_staly (p q : WspolrzedneGeodezyjne) :
  p = punkt_srodkowy p q -> q = p.
Proof.
  destruct p as [a1 a2 a3], q as [b1 b2 b3]. unfold punkt_srodkowy. simpl.
  intros H. injection H as H1 H2 H3. f_equal; lra.
Qed.

(** C2.  Every event of the scan records, as its location, the position
    that the lower id of the pair has in the position map of the tick, which
    is the propagated position of an active catalogue object with that id at
    that instant; it is the midpoint of the two positions only when both
    objects are at the same place. *)
Theorem C2_event_location_is_first_position (prog : R)
    (obiekty : list ModelObiektuBD) (czas_start czas_koniec : datetime)
    (delta : timedelta) (zd : list ZdarzeniePrzestrz) (z : ZdarzeniePrzestrz) :
  wykryj_zdarzenia_w_przedziale prog obiekty czas_start czas_koniec delta
    = Some (Zwraca zd) ->
  In z zd ->
  exists m pb,
    pozycje_kroku obiekty (moment_czasu z) = Zwraca m /\
    (obiekt_id_a z < obiekt_id_b z)%Z /\
    dict_get m (obiekt_id_a z) = Some (lokalizacja z) /\
    dict_get m (obiekt_id_b z) = Some pb /\
    (exists o, In o obiekty /\ id_rekordu o = obiekt_id_a z /\
               stan_operacyjny o = AKTYWNY /\
               oblicz_pozycje_w_czasie o (moment_czasu z)
               = Zwraca (Some (lokalizacja z))) /\
    (lokalizacja z = punkt_srodkowy (lokalizacja z) pb -> pb = lokalizacja z).
Proof.
  intros Hscan Hin.
  destruct (wykryj_zdarzenia_postac prog _ _ _ _ _ _ Hscan Hin)
    as [m [pa [pb [Hm [Hnd [Hlt [Ea [Eb [Hd [Hloc _]]]]]]]]]].
  exists m, pb. rewrite Hloc.
  repeat split; try assumption.
  - apply (pozycje_kroku_wpis _ _ _ _ _ Hm Ea).
  - apply punkt_srodkowy_staly.
Qed.

Lemma C2_event_location_is_first_position_witness :
  wykryj_zdarzenia_w_przedziale TOLERANCJA_ZBLIZENIA katalog 0%Z MINUTA MINUTA
    = Some (Zwraca [zdarzenie_leo 0%Z; zdarzenie_leo MINUTA]) /\
  In (zdarzenie_leo MINUTA) [zdarzenie_leo 0%Z; zdarzenie_leo MINUTA] /\
  exists m pb,
    pozycje_kroku katalog MINUTA = Zwraca m /\
    (1 < 2)%Z /\
    dict_get m 1%Z = Some (lokalizacja (zdarzenie_leo MINUTA)) /\
    dict_get m 2%Z = Some pb.
Proof.
  pose proof (skan_katalogu TOLERANCJA_ZBLIZENIA tolerancja_dodatnia) as Hscan.
  assert (Hin : In (zdarzenie_leo MINUTA) [zdarzenie_leo 0%Z; zdarzenie_leo MINUTA])
    by (right; left; reflexivity).
  split; [exact Hscan |]. split; [exact Hin |].
  destruct (C2_event_location_is_first_position
              TOLERANCJA_ZBLIZENIA katalog 0%Z MINUTA MINUTA _ _ Hscan Hin)
    as [m [pb [Hm [Hlt [Ha [Hb _]]]]]].
  exists m, pb. auto.
Defined.

(** C7.  In every event of the scan the first id is strictly below the
    second, for every catalogue and every request: the pair is one of the
    pairs that the nested loops take from the strictly ascending list of the
    ids of the tick. *)
Theorem C7_event_ids_ordered (prog : R)
    (obiekty : list ModelObiektuBD) (czas_start czas_koniec : datetime)
    (delta : timedelta) (zd : list ZdarzeniePrzestrz) (z : ZdarzeniePrzestrz) :
  wykryj_zdarzenia_w_przedziale prog obiekty czas_start czas_koniec delta
    = Some (Zwraca zd) ->
  In z zd ->
  (obiekt_id_a z < obiekt_id_b z)%Z /\
  exists m,
    pozycje_kroku obiekty (moment_czasu z) = Zwraca m /\
    Sorted.StronglySorted Z.lt (sorted (dict_keys m)) /\
    In (obiekt_id_a z, obiekt_id_b z) (pary (sorted (dict_keys m))).
Proof.
  intros Hscan Hin.
  destruct (wykryj_zdarzenia_postac prog _ _ _ _ _ _ Hscan Hin)
    as [m [pa [pb [Hm [Hnd [Hlt [Ea [Eb _]]]]]]]].
  split; [exact Hlt |].
  exists m. split; [exact Hm |].
  pose proof (sorted_rosnaca _ Hnd) as Hsort. split; [exact Hsort |].
  apply pary_kompletne; try assumption; rewrite sorted_In;
    apply dict_get_klucz; eauto.
Qed.

Lemma C7_event_ids_ordered_witness :
  wykryj_zdarzenia_w_przedziale TOLERANCJA_ZBLIZENIA katalog 0%Z MINUTA MINUTA
    = Some (Zwraca [zdarzenie_leo 0%Z; zdarzenie_leo MINUTA]) /\
  In (zdarzenie_leo 0%Z) [zdarzenie_leo 0%Z; zdarzenie_leo MINUTA] /\
  (obiekt_id_a (zdarzenie_leo 0%Z) < obiekt_id_b (zdarzenie_leo 0%Z))%Z.
Proof.
  pose proof (skan_katalogu TOLERANCJA_ZBLIZENIA tolerancja_dodatnia) as Hscan.
  assert (Hin : In (zdarzenie_leo 0%Z) [zdarzenie_leo 0%Z; zdarzenie_leo MINUTA])
    by (left; reflexivity).
  split; [exact Hscan |]. split; [exact Hin |].
  apply (C7_event_ids_ordered TOLERANCJA_ZBLIZENIA katalog 0%Z MINUTA MINUTA _ _
           Hscan Hin).
Defined.

(** C3.  At every tick of a scan with a forward step, for every pair of ids
    [a < b] of the position map of the tick, the result holds an event of
    that instant for that pair if and only if the distance of the two
    positions is strictly below the threshold; at a distance equal to the
    threshold there is no event. *)
Theorem C3_event_iff_below_threshold (prog : R)
    (obiekty : list ModelObiektuBD) (czas_start czas_koniec : datetime)
    (delta : timedelta) (zd : list ZdarzeniePrzestrz) (t : datetime) :
  (0 < delta)%Z ->
  wykryj_zdarzenia_w_przedziale prog obiekty czas_start czas_koniec delta
    = Some (Zwraca zd) ->
  tyk_siatki czas_start czas_koniec delta t ->
  exists m,
    pozycje_kroku obiekty t = Zwraca m /\
    forall a b pa pb,
      (a < b)%Z -> dict_get m a = Some pa -> dict_get m b = Some pb ->
      exists dystans,
        dystans_do pa pb = Zwraca dystans /\
        ((exists z, In z zd /\ moment_czasu z = t /\
                    obiekt_id_a z = a /\ obiekt_id_b z = b)
         <-> (dystans < prog)%R) /\
        (dystans = prog ->
         ~ exists z, In z zd /\ moment_czasu z = t /\
                     obiekt_id_a z = a /\ obiekt_id_b z = b).
Proof.
  intros Hd Hscan Htick.
  destruct (wykryj_zdarzenia_kompletne prog _ _ _ _ _ _ Hd Hscan Htick)
    as [m [Hm [Hnd [Hdist Hincl]]]].
  exists m. split; [exact Hm |].
  intros a b pa pb Hlt Ea Eb.
  exists (odleglosc pa pb). split; [apply (Hdist a b pa pb Hlt Ea Eb) |].
  assert (Hiff : (exists z, In z zd /\ moment_czasu z = t /\
                            obiekt_id_a z = a /\ obiekt_id_b z = b)
                 <-> (odleglosc pa pb < prog)%R).
  { split.
    - intros [z [Hin [Ht [Hza Hzb]]]].
      destruct (wykryj_zdarzenia_postac prog _ _ _ _ _ _ Hscan Hin)
        as [m' [pa' [pb' [Hm' [_ [_ [Ea' [Eb' [Hblisko _]]]]]]]]].
      rewrite Ht, Hm in Hm'. inversion Hm'; subst m'.
      rewrite Hza, Ea in Ea'. rewrite Hzb, Eb in Eb'.
      inversion Ea'; inversion Eb'; subst. exact Hblisko.
    - intros Hblisko.
      exists {| obiekt_id_a := a; obiekt_id_b := b; moment_czasu := t;
                lokalizacja := pa; dystans_min := odleglosc pa pb |}.
      split; [| simpl; auto].
      apply Hincl. apply (zdarzenia_kroku_In prog m t _ Hnd).
      exists a, b, pa, pb. auto. }
  split; [exact Hiff |].
  intros Heq Hex. apply Hiff in Hex. lra.
Qed.

Lemma C3_event_iff_below_threshold_witness :
  (0 < MINUTA)%Z /\
  wykryj_zdarzenia_w_przedziale TOLERANCJA_ZBLIZENIA katalog 0%Z MINUTA MINUTA
    = Some (Zwraca [zdarzenie_leo 0%Z; zdarzenie_leo MINUTA]) /\
  tyk_siatki 0%Z MINUTA MINUTA MINUTA /\
  exists m, pozycje_kroku katalog MINUTA = Zwraca m.
Proof.
  assert (Hd : (0 < MINUTA)%Z) by reflexivity.
  pose proof (skan_katalogu TOLERANCJA_ZBLIZENIA tolerancja_dodatnia) as Hscan.
  assert (Htick : tyk_siatki 0%Z MINUTA MINUTA MINUTA).
  { exists 0%Z, MINUTA, 1%Z. repeat split; try reflexivity; discriminate. }
  split; [exact Hd |]. split; [exact Hscan |]. split; [exact Htick |].
  destruct (C3_event_iff_below_threshold TOLERANCJA_ZBLIZENIA katalog
              0%Z MINUTA MINUTA _ MINUTA Hd Hscan Htick) as [m [Hm _]].
  exists m. exact Hm.
Defined.

(** C5.  An object whose epoch is strictly after the queried instant has no
    position there: the position service returns the "no position" value,
    neither an exception nor a coordinate; the position map and the events
    of that instant are those of the catalogue without the object; and, ids
    being a key of the catalogue, the position map of that instant has no
    entry for the object and no event of that instant names it. *)
Theorem C5_pre_epoch_no_position (prog : R)
    (obiekty : list ModelObiektuBD) (o : ModelObiektuBD) (t : datetime) :
  In o obiekty ->
  (t < data_wprowadzenia o)%Z ->
  (forall o', In o' obiekty -> id_rekordu o' = id_rekordu o -> o' = o) ->
  oblicz_pozycje_w_czasie o t = Zwraca None /\
  (forall l1 l2 acc, obiekty = l1 ++ o :: l2 ->
      pozycje_kroku obiekty t = pozycje_kroku (l1 ++ l2) t /\
      krok_siatki prog obiekty t acc = krok_siatki prog (l1 ++ l2) t acc) /\
  (forall m, pozycje_kroku obiekty t = Zwraca m ->
             dict_get m (id_rekordu o) = None) /\
  (forall czas_start czas_koniec delta zd z,
      wykryj_zdarzenia_w_przedziale prog obiekty czas_start czas_koniec delta
        = Some (Zwraca zd) ->
      In z zd -> moment_czasu z = t ->
      obiekt_id_a z <> id_rekordu o /\ obiekt_id_b z <> id_rekordu o).
Proof.
  intros Hin Hlt Hkey.
  pose proof (oblicz_pozycje_w_czasie_przed_epoka o t Hlt) as Hnone.
  assert (Hmap : forall m, pozycje_kroku obiekty t = Zwraca m ->
                           dict_get m (id_rekordu o) = None).
  { intros m Hm. destruct (dict_get m (id_rekordu o)) as [p |] eqn:E; [| reflexivity].
    destruct (pozycje_kroku_wpis _ _ _ _ _ Hm E) as [o' [Hin' [Hid [_ Hpos]]]].
    rewrite (Hkey o' Hin' Hid), Hnone in Hpos. discriminate Hpos. }
  split; [exact Hnone |]. split; [| split; [exact Hmap |]].
  { intros l1 l2 acc ->.
    pose proof (pozycje_kroku_pomija l1 l2 o t Hlt) as Hdrop.
    split; [exact Hdrop |]. unfold krok_siatki. rewrite Hdrop. reflexivity. }
  intros s k d zd z Hscan Hz Ht.
  destruct (wykryj_zdarzenia_postac prog _ _ _ _ _ _ Hscan Hz)
    as [m [pa [pb [Hm [_ [_ [Ea [Eb _]]]]]]]].
  rewrite Ht in Hm. specialize (Hmap m Hm).
  split; intros Heq; rewrite Heq in *; congruence.
Qed.

Lemma C5_pre_epoch_no_position_witness :
  In (obiekt 3 GODZINA "active" orbita_leo) katalog /\
  (MINUTA < data_wprowadzenia (obiekt 3 GODZINA "active" orbita_leo))%Z /\
  oblicz_pozycje_w_czasie (obiekt 3 GODZINA "active" orbita_leo) MINUTA
    = Zwraca None /\
  obiekt_id_a (zdarzenie_leo MINUTA) <> 3%Z /\
  obiekt_id_b (zdarzenie_leo MINUTA) <> 3%Z.
Proof.
  assert (Hin : In (obiekt 3 GODZINA "active" orbita_leo) katalog)
    by (right; left; reflexivity).
  assert (Hlt : (MINUTA < data_wprowadzenia (obiekt 3 GODZINA "active" orbita_leo))%Z)
    by reflexivity.
  assert (Hkey : forall o', In o' katalog ->
                   id_rekordu o' = id_rekordu (obiekt 3 GODZINA "active" orbita_leo) ->
                   o' = obiekt 3 GODZINA "active" orbita_leo).
  { intros o' [<- | [<- | [<- | [<- | []]]]] Hid;
      try reflexivity; discriminate Hid. }
  destruct (C5_pre_epoch_no_position TOLERANCJA_ZBLIZENIA katalog _ MINUTA
              Hin Hlt Hkey) as [Hnone [_ [_ Hev]]].
  split; [exact Hin |]. split; [exact Hlt |]. split; [exact Hnone |].
  apply (Hev 0%Z MINUTA MINUTA _ (zdarzenie_leo MINUTA)
             (skan_katalogu TOLERANCJA_ZBLIZENIA tolerancja_dodatnia)).
  - right; left; reflexivity.
  - reflexivity.
Defined.

(** C4, at the failing input.  Two active objects on an orbit whose
    semi-major axis is 0 have angular velocity 0.0: the entry point of the
    propagator raises for them, as the claim says, but the interval scan
    does not leave them out of the tick: it propagates both and reports the
    pair. *)
Theorem C4_scan_keeps_degenerate_orbit :
  oblicz_predkosc_katowa
    (parametry_obiektu (obiekt 1 0%Z "active" orbita_zdegenerowana)) = Zwraca 0%R /\
  Serwisy.oblicz_pozycje_kepler
    (parametry_obiektu (obiekt 1 0%Z "active" orbita_zdegenerowana)) 0%Z 0%R 0%Z
    = Rzuca BladObliczenOrbitych /\
  wykryj_zdarzenia_w_przedziale TOLERANCJA_ZBLIZENIA katalog_zdegenerowany
    0%Z 0%Z MINUTA
    = Some (Zwraca [zdarzenie_zdegenerowane 0%Z]).
Proof.
  split; [exact oblicz_predkosc_katowa_zdegenerowana |]. split.
  - apply (oblicz_pozycje_kepler_mala_predkosc _ _ _ _ 0%R).
    + lia.
    + exact oblicz_predkosc_katowa_zdegenerowana.
    + rewrite Rabs_R0. unfold EPSILON_NUMERYCZNY. lra.
  - apply skan_katalogu_zdegenerowanego. exact tolerancja_dodatnia.
Qed.

End WlasnosciSkanu.

(* ================================================================== *)
(** * Geometry of the coordinates *)
(* ================================================================== *)

Section Geometria.

Import Py Modele Wzory.
Local Open Scope R_scope.

(** The cosine of the angle between the directions of two coordinates. *)
Lemma cosinus_kata_zakres (A B C D e : R) :
  A * A + B * B = 1 -> C * C + D * D = 1 -> -1 <= e <= 1 ->
  -1 <= A * C * e + B * D <= 1.
Proof.
  intros H1 H2 He.
  assert (Hid : (A * A + B * B) * (C * C + D * D)
                - (A * C * e + B * D) * (A * C * e + B * D)
                = (A * A + B * B) * (C * C) * (1 - e * e)
                  + (A * D - B * C * e) * (A * D - B * C * e)) by ring.
  rewrite H1, H2 in Hid.
  assert (H0 : 0 <= 1 * (C * C) * (1 - e * e)).
  { pose proof (Rle_0_sqr C) as HC. unfold Rsqr in HC.
    assert (He2 : 0 <= 1 - e * e) by nra.
    rewrite Rmult_1_l. apply Rmult_le_pos; assumption. }
  pose proof (Rle_0_sqr (A * D - B * C * e)) as H3. unfold Rsqr in H3.
  assert (Hsq : (A * C * e + B * D) * (A * C * e + B * D) <= 1) by lra.
  clear Hid H0 H3 H1 H2 He.
  split; nra.
Qed.

Lemma sin_cos_jedynka (x : R) : cos x * cos x + sin x * sin x = 1.
Proof. pose proof (sin2_cos2 x) as H. unfold Rsqr in H. lra. Qed.

(** X1.  The Cartesian point of a coordinate lies on the sphere around the
    centre of the Earth whose radius is the Earth radius plus the altitude. *)
Theorem do_kartezjanskich_na_sferze (p : WspolrzedneGeodezyjne) :
  let '(x, y, z) := do_kartezjanskich p in
  x ^ 2 + y ^ 2 + z ^ 2 = (SREDNICA_BAZOWA_ZIEMI + wysokosc_npm p) ^ 2.
Proof.
  unfold do_kartezjanskich. cbv zeta.
  set (r := SREDNICA_BAZOWA_ZIEMI + wysokosc_npm p).
  pose proof (sin_cos_jedynka (radians (szer_geogr p))) as Hlat.
  pose proof (sin_cos_jedynka (radians (dlug_geogr p))) as Hlon.
  set (cl := cos (radians (szer_geogr p))) in *.
  set (sl := sin (radians (szer_geogr p))) in *.
  set (cn := cos (radians (dlug_geogr p))) in *.
  set (sn := sin (radians (dlug_geogr p))) in *.
  replace ((r * cl * cn) ^ 2 + (r * cl * sn) ^ 2 + (r * sl) ^ 2)
    with (r * r * (cl * cl * (cn * cn + sn * sn) + sl * sl)) by ring.
  rewrite Hlon, Rmult_1_r, Hlat. ring.
Qed.

(** X2.  The distance does not depend on the order of the two coordinates: the
    same value is returned, or the same exception raised. *)
Theorem dystans_do_symetryczny (p q : WspolrzedneGeodezyjne) :
  dystans_do p q = dystans_do q p.
Proof.
  unfold dystans_do.
  destruct (do_kartezjanskich p) as [[x1 y1] z1].
  destruct (do_kartezjanskich q) as [[x2 y2] z2].
  unfold float_pow.
  replace ((x1 - x2) ^ 2) with ((x2 - x1) ^ 2) by ring.
  replace ((y1 - y2) ^ 2) with ((y2 - y1) ^ 2) by ring.
  replace ((z1 - z2) ^ 2) with ((z2 - z1) ^ 2) by ring.
  reflexivity.
Qed.

(** The squared Euclidean distance by the law of cosines. *)
Lemma odleglosc_kwadrat (p q : WspolrzedneGeodezyjne) :
  exists c : R, -1 <= c <= 1 /\
    let rp := SREDNICA_BAZOWA_ZIEMI + wysokosc_npm p in
    let rq := SREDNICA_BAZOWA_ZIEMI + wysokosc_npm q in
    odleglosc p q = sqrt (rp * rp + rq * rq - 2 * rp * rq * c).
Proof.
  pose proof (sin_cos_jedynka (radians (szer_geogr p))) as Hlp.
  pose proof (sin_cos_jedynka (radians (dlug_geogr p))) as Hnp.
  pose proof (sin_cos_jedynka (radians (szer_geogr q))) as Hlq.
  pose proof (sin_cos_jedynka (radians (dlug_geogr q))) as Hnq.
  pose proof (COS_bound (radians (dlug_geogr p) - radians (dlug_geogr q))) as He.
  rewrite cos_minus in He.
  unfold odleglosc, do_kartezjanskich. cbv zeta.
  set (rp := SREDNICA_BAZOWA_ZIEMI + wysokosc_npm p).
  set (rq := SREDNICA_BAZOWA_ZIEMI + wysokosc_npm q).
  set (A := cos (radians (szer_geogr p))) in *.
  set (B := sin (radians (szer_geogr p))) in *.
  set (C := cos (radians (szer_geogr q))) in *.
  set (D := sin (radians (szer_geogr q))) in *.
  set (cp := cos (radians (dlug_geogr p))) in *.
  set (sp := sin (radians (dlug_geogr p))) in *.
  set (cq := cos (radians (dlug_geogr q))) in *.
  set (sq := sin (radians (dlug_geogr q))) in *.
  exists (A * C * (cp * cq + sp * sq) + B * D). split.
  - apply cosinus_kata_zakres; assumption.
  - f_equal.
    replace ((rq * C * cq - rp * A * cp) ^ 2 + (rq * C * sq - rp * A * sp) ^ 2
             + (rq * D - rp * B) ^ 2)
      with (rp * rp * (A * A * (cp * cp + sp * sp) + B * B)
            + rq * rq * (C * C * (cq * cq + sq * sq) + D * D)
            - 2 * rp * rq * (A * C * (cp * cq + sp * sq) + B * D)) by ring.
    rewrite Hnp, Hnq, !Rmult_1_r, Hlp, Hlq. ring.
Qed.

(** The Euclidean distance between two coordinates lies between the
    difference and the sum of their distances from the centre. *)
Lemma odleglosc_miedzy_promieniami (p q : WspolrzedneGeodezyjne) :
  let rp := SREDNICA_BAZOWA_ZIEMI + wysokosc_npm p in
  let rq := SREDNICA_BAZOWA_ZIEMI + wysokosc_npm q in
  Rabs (Rabs rp - Rabs rq) <= odleglosc p q <= Rabs rp + Rabs rq.
Proof.
  destruct (odleglosc_kwadrat p q) as [c [Hc Hd]]. cbv zeta in *.
  set (rp := SREDNICA_BAZOWA_ZIEMI + wysokosc_npm p) in *.
  set (rq := SREDNICA_BAZOWA_ZIEMI + wysokosc_npm q) in *.
  rewrite Hd.
  assert (Hprod : Rabs (rp * rq * c) <= Rabs rp * Rabs rq).
  { rewrite !Rabs_mult.
    assert (Hac : Rabs c <= 1) by (apply Rabs_le; lra).
    pose proof (Rabs_pos rp). pose proof (Rabs_pos rq). pose proof (Rabs_pos c).
    assert (0 <= Rabs rp * Rabs rq) by (apply Rmult_le_pos; assumption).
    nra. }
  assert (Hprod' : - (Rabs rp * Rabs rq) <= rp * rq * c <= Rabs rp * Rabs rq).
  { pose proof (Rle_abs (rp * rq * c)) as H1.
    pose proof (Rle_abs (- (rp * rq * c))) as H2. rewrite Rabs_Ropp in H2. lra. }
  assert (Hsp : rp * rp = Rabs rp * Rabs rp).
  { rewrite <- Rabs_mult. symmetry. apply Rabs_pos_eq.
    pose proof (Rle_0_sqr rp) as H. unfold Rsqr in H. exact H. }
  assert (Hsq : rq * rq = Rabs rq * Rabs rq).
  { rewrite <- Rabs_mult. symmetry. apply Rabs_pos_eq.
    pose proof (Rle_0_sqr rq) as H. unfold Rsqr in H. exact H. }
  pose proof (Rabs_pos rp) as Hp0. pose proof (Rabs_pos rq) as Hq0.
  split.
  - rewrite <- sqrt_Rsqr_abs. apply sqrt_le_1_alt. unfold Rsqr. rewrite Hsp, Hsq. nra.
  - rewrite <- (sqrt_Rsqr (Rabs rp + Rabs rq)) by lra.
    apply sqrt_le_1_alt. unfold Rsqr. rewrite Hsp, Hsq. nra.
Qed.

(** X3.  In exact arithmetic: a returned distance is never negative, is at
    least the difference of the altitudes of two coordinates that are not
    below the centre of the Earth, and at most the sum of their distances
    from the centre.  (The binary64 value of the code is within rounding
    error of the exact distance, so it can pass either bound by a few units
    in the last place.) *)
Theorem dystans_do_a_wysokosci (p q : WspolrzedneGeodezyjne) (d : R) :
  dystans_do p q = Zwraca d ->
  0 <= SREDNICA_BAZOWA_ZIEMI + wysokosc_npm p ->
  0 <= SREDNICA_BAZOWA_ZIEMI + wysokosc_npm q ->
  0 <= d /\
  Rabs (wysokosc_npm p - wysokosc_npm q) <= d /\
  d <= (SREDNICA_BAZOWA_ZIEMI + wysokosc_npm p)
       + (SREDNICA_BAZOWA_ZIEMI + wysokosc_npm q).
Proof.
  intros Hd Hp Hq. apply dystans_do_zwraca in Hd. subst d.
  pose proof (odleglosc_miedzy_promieniami p q) as [Hlo Hhi]. cbv zeta in *.
  rewrite !Rabs_pos_eq in Hhi by assumption.
  rewrite (Rabs_pos_eq _ Hp), (Rabs_pos_eq _ Hq) in Hlo.
  replace (SREDNICA_BAZOWA_ZIEMI + wysokosc_npm p
           - (SREDNICA_BAZOWA_ZIEMI + wysokosc_npm q))
    with (wysokosc_npm p - wysokosc_npm q) in Hlo by ring.
  pose proof (Rabs_pos (wysokosc_npm p - wysokosc_npm q)).
  repeat split; lra.
Qed.

(** Two coordinates above the same ground point are separated by the
    difference of their altitudes. *)
Lemma odleglosc_w_pionie (lat lon h1 h2 : R) :
  odleglosc {| szer_geogr := lat; dlug_geogr := lon; wysokosc_npm := h1 |}
            {| szer_geogr := lat; dlug_geogr := lon; wysokosc_npm := h2 |}
  = Rabs (h1 - h2).
Proof.
  unfold odleglosc, do_kartezjanskich. cbn [szer_geogr dlug_geogr wysokosc_npm].
  cbv zeta.
  pose proof (sin_cos_jedynka (radians lat)) as Hlat.
  pose proof (sin_cos_jedynka (radians lon)) as Hlon.
  set (cl := cos (radians lat)) in *. set (sl := sin (radians lat)) in *.
  set (cn := cos (radians lon)) in *. set (sn := sin (radians lon)) in *.
  set (R0 := SREDNICA_BAZOWA_ZIEMI).
  replace (((R0 + h2) * cl * cn - (R0 + h1) * cl * cn) ^ 2
           + ((R0 + h2) * cl * sn - (R0 + h1) * cl * sn) ^ 2
           + ((R0 + h2) * sl - (R0 + h1) * sl) ^ 2)
    with ((h1 - h2) * (h1 - h2) * (cl * cl * (cn * cn + sn * sn) + sl * sl)) by ring.
  rewrite Hlon, Rmult_1_r, Hlat, Rmult_1_r.
  apply sqrt_Rsqr_abs.
Qed.

Lemma dystans_do_a_wysokosci_witness :
  exists d,
    dystans_do {| szer_geogr := 10; dlug_geogr := 20; wysokosc_npm := 400 |}
               {| szer_geogr := 10; dlug_geogr := 20; wysokosc_npm := 900 |}
    = Zwraca d /\ d = 500 /\ Rabs (400 - 900) <= d.
Proof.
  set (p := {| szer_geogr := 10; dlug_geogr := 20; wysokosc_npm := 400 |}).
  set (q := {| szer_geogr := 10; dlug_geogr := 20; wysokosc_npm := 900 |}).
  assert (Hd : dystans_do p q = Zwraca (odleglosc p q)).
  { apply (dystans_do_ograniczone 1e100); [lra | |];
      unfold promien_ograniczony, SREDNICA_BAZOWA_ZIEMI; simpl;
      rewrite Rabs_pos_eq; lra. }
  assert (Hp : 0 <= SREDNICA_BAZOWA_ZIEMI + wysokosc_npm p)
    by (unfold SREDNICA_BAZOWA_ZIEMI; simpl; lra).
  assert (Hq : 0 <= SREDNICA_BAZOWA_ZIEMI + wysokosc_npm q)
    by (unfold SREDNICA_BAZOWA_ZIEMI; simpl; lra).
  exists (odleglosc p q). split; [exact Hd |]. split.
  - unfold p, q. rewrite odleglosc_w_pionie.
    replace (400 - 900) with (- (500)) by lra. rewrite Rabs_Ropp. apply Rabs_pos_eq. lra.
  - exact (proj1 (proj2 (dystans_do_a_wysokosci p q (odleglosc p q) Hd Hp Hq))).
Defined.

End Geometria.

(* ================================================================== *)
(** * Further properties of the orbital model *)
(* ================================================================== *)

Section ModelOrbity.

Import Py Modele Serwisy Wzory Schematy.
Local Open Scope R_scope.

(** A returned period is the closed form on an accepted semi-major axis. *)
Lemma oblicz_okres_orbitalny_zwraca (p : ParametryOrbitalne) (T : R) :
  oblicz_okres_orbitalny p = Zwraca T ->
  os_dopuszczalna (polOs_wielka p) /\ T = okres (polOs_wielka p).
Proof.
  intros H.
  destruct (Rle_dec 0 (polOs_wielka p)) as [Ha | Ha].
  - destruct (Rle_dec (polOs_wielka p ^ 3) FLOAT_MAX) as [Hm | Hm].
    + assert (Hos : os_dopuszczalna (polOs_wielka p)) by (split; assumption).
      rewrite (oblicz_okres_orbitalny_wzor p Hos) in H. inversion H. auto.
    + exfalso. unfold oblicz_okres_orbitalny in H.
      rewrite float_pow_przepelnienie in H; [discriminate H |].
      rewrite Rabs_pos_eq by (apply pow_le; exact Ha). lra.
  - exfalso. unfold oblicz_okres_orbitalny in H.
    destruct (float_pow_przypadki (polOs_wielka p) 3) as [E | E]; rewrite E in H;
      [| discriminate H].
    simpl bind in H. rewrite math_sqrt_ujemny in H; [discriminate H |].
    apply iloraz_szescianu_ujemny. lra.
Qed.

Lemma szescian_rosnie (a b : R) : 0 <= a -> a < b -> a ^ 3 < b ^ 3.
Proof.
  intros Ha Hab. simpl. rewrite !Rmult_1_r.
  assert (H2 : a * a < b * b) by nra.
  assert (0 <= a * a) by nra. nra.
Qed.

Lemma okres_rosnie (a b : R) : 0 <= a -> a < b -> okres a < okres b.
Proof.
  intros Ha Hab. unfold okres.
  assert (Hs : sqrt (a ^ 3 / 398600.4418) < sqrt (b ^ 3 / 398600.4418)).
  { apply sqrt_lt_1_alt. split.
    - apply (iloraz_szescianu_znak a Ha).
    - pose proof (szescian_rosnie a b Ha Hab).
      unfold Rdiv. apply Rmult_lt_compat_r; [apply Rinv_0_lt_compat; lra | assumption]. }
  pose proof PI_RGT_0. nra.
Qed.

(** X4.  In exact arithmetic, Kepler's third law: the square of a returned
    period, times the gravitational parameter, is [4 PI^2] times the cube of
    the semi-major axis; the period is not negative, and it grows strictly
    with the semi-major axis.  (In binary64 the equation holds up to
    rounding, and two adjacent axes can get the same period.) *)
Theorem okres_trzecie_prawo_Keplera (p : ParametryOrbitalne) (T : R) :
  oblicz_okres_orbitalny p = Zwraca T ->
  0 <= T /\
  T ^ 2 * PARAMETR_GRAWIT_ZIEMI = 4 * PI ^ 2 * polOs_wielka p ^ 3 /\
  (forall (q : ParametryOrbitalne) (Tq : R),
      oblicz_okres_orbitalny q = Zwraca Tq ->
      polOs_wielka p < polOs_wielka q -> T < Tq).
Proof.
  intros H. apply oblicz_okres_orbitalny_zwraca in H. destruct H as [[Ha Hm] ->].
  pose proof (iloraz_szescianu_znak _ Ha) as Hx. unfold PARAMETR_GRAWIT_ZIEMI in *.
  pose proof PI_RGT_0 as Hpi.
  split; [| split].
  - unfold okres. pose proof (sqrt_pos (polOs_wielka p ^ 3 / 398600.4418)). nra.
  - unfold okres.
    replace ((2 * PI * sqrt (polOs_wielka p ^ 3 / 398600.4418)) ^ 2)
      with (4 * PI ^ 2 * (sqrt (polOs_wielka p ^ 3 / 398600.4418)
                          * sqrt (polOs_wielka p ^ 3 / 398600.4418))) by ring.
    rewrite sqrt_sqrt by exact Hx. field; lra.
  - intros q Tq Hq Hlt. apply oblicz_okres_orbitalny_zwraca in Hq.
    destruct Hq as [_ ->]. apply okres_rosnie; assumption.
Qed.

Lemma okres_trzecie_prawo_Keplera_witness :
  exists T,
    oblicz_okres_orbitalny
      {| polOs_wielka := 6921; inklinacja_kat := 51.6; wezl_wstepujacy := 0 |}
    = Zwraca T /\
    T ^ 2 * PARAMETR_GRAWIT_ZIEMI = 4 * PI ^ 2 * 6921 ^ 3.
Proof.
  set (p := {| polOs_wielka := 6921; inklinacja_kat := 51.6; wezl_wstepujacy := 0 |}).
  assert (H : oblicz_okres_orbitalny p = Zwraca (okres 6921)).
  { apply (oblicz_okres_orbitalny_wzor p). apply os_dopuszczalna_mala. simpl. lra. }
  exists (okres 6921). split; [exact H |].
  exact (proj1 (proj2 (okres_trzecie_prawo_Keplera p (okres 6921) H))).
Defined.

Lemma mniejsze_true (x y : R) : mniejsze x y = true <-> x < y.
Proof. unfold mniejsze. destruct (Rlt_dec x y); split; auto; discriminate. Qed.

Lemma nie_wieksze_true (x y : R) : nie_wieksze x y = true <-> x <= y.
Proof. unfold nie_wieksze. destruct (Rle_dec x y); split; auto; discriminate. Qed.

(** What the constraints of the orbit schema say about the numbers. *)
Lemma SchematOrbitWejscie_waliduj_true (dane : SchematOrbitWejscie.t) :
  SchematOrbitWejscie.waliduj dane = true ->
  160 < SchematOrbitWejscie.wysokosc_km dane <= 40000 /\
  0 <= SchematOrbitWejscie.kat_inklinacji dane <= 180 /\
  0 <= SchematOrbitWejscie.wezel_wst dane < 360.
Proof.
  unfold SchematOrbitWejscie.waliduj. rewrite !andb_true_iff.
  rewrite !mniejsze_true, !nie_wieksze_true.
  unfold MINIMALNA_WYSOKOSC_ORBITY, MAKSYMALNA_WYSOKOSC_ORBITY.
  intros [[[[[[[_ _] H1] H2] H3] H4] H5] H6]. lra.
Qed.

Lemma pierwiastek_orbity_zwalidowanej (a : R) :
  6531 < a <= 46371 -> 835 < sqrt (a ^ 3 / 398600.4418) < 15817.
Proof.
  intros [Hlo Hhi].
  assert (H1 : 6531 ^ 3 < a ^ 3) by (apply szescian_rosnie; lra).
  assert (H2 : a ^ 3 <= 46371 ^ 3).
  { destruct (Req_dec a 46371) as [-> | Hne]; [lra |].
    left. apply szescian_rosnie; lra. }
  assert (Hinv : 0 < / 398600.4418) by (apply Rinv_0_lt_compat; lra).
  assert (Hq1 : 835 * 835 < a ^ 3 / 398600.4418).
  { apply Rmult_lt_reg_r with (r := 398600.4418); [lra |].
    replace (a ^ 3 / 398600.4418 * 398600.4418) with (a ^ 3) by (field; lra).
    simpl in H1. lra. }
  assert (Hq2 : a ^ 3 / 398600.4418 < 15817 * 15817).
  { apply Rmult_lt_reg_r with (r := 398600.4418); [lra |].
    replace (a ^ 3 / 398600.4418 * 398600.4418) with (a ^ 3) by (field; lra).
    simpl in H2. lra. }
  split.
  - apply Rle_lt_trans with (r2 := sqrt (835 * 835));
      [right; symmetry; apply sqrt_square; lra | apply sqrt_lt_1_alt; lra].
  - apply Rlt_le_trans with (r2 := sqrt (15817 * 15817));
      [apply sqrt_lt_1_alt; split; [apply iloraz_szescianu_znak; lra | lra]
      | right; apply sqrt_square; lra].
Qed.

(** X5.  An orbit that passed the input schema has a period between 5000 and
    130000 seconds: the guard of the angular velocity does not fire, the
    angular velocity is the quotient [2 PI / T] of the code and lies between
    6e-5 and 1.2e-3 radians per second, far above the epsilon. *)
Theorem okres_orbity_zwalidowanej (dane : SchematOrbitWejscie.t)
    (p : ParametryOrbitalne) :
  SchematOrbitWejscie.waliduj dane = true ->
  polOs_wielka p = SREDNICA_BAZOWA_ZIEMI + SchematOrbitWejscie.wysokosc_km dane ->
  exists T omega,
    oblicz_okres_orbitalny p = Zwraca T /\
    oblicz_predkosc_katowa p = Zwraca omega /\
    5000 < T < 130000 /\
    omega = 2 * PI / T /\
    6e-5 < omega < 1.2e-3.
Proof.
  intros Hv Ha. apply SchematOrbitWejscie_waliduj_true in Hv.
  destruct Hv as [Hh _]. unfold SREDNICA_BAZOWA_ZIEMI in Ha.
  assert (Hr : 6531 < polOs_wielka p <= 46371) by lra.
  assert (Hos : os_dopuszczalna (polOs_wielka p)) by (apply os_dopuszczalna_mala; lra).
  pose proof (pierwiastek_orbity_zwalidowanej _ Hr) as [Hs1 Hs2].
  pose proof PI2_3_2 as Hpi3. pose proof PI_4 as Hpi4.
  exists (okres (polOs_wielka p)), (predkosc_katowa (polOs_wielka p)).
  split; [apply oblicz_okres_orbitalny_wzor; exact Hos |].
  split.
  { rewrite oblicz_predkosc_katowa_wzor by exact Hos. f_equal.
    unfold predkosc_katowa_z_progiem.
    destruct (Rlt_dec 1e-9 (okres (polOs_wielka p))) as [_ | Hn]; [reflexivity |].
    exfalso. apply Hn. apply okres_powyzej_progu. lra. }
  unfold predkosc_katowa, okres.
  set (s := sqrt (polOs_wielka p ^ 3 / 398600.4418)) in *.
  split; [split; nra |]. split; [reflexivity |].
  assert (Hom : 2 * PI / (2 * PI * s) = / s) by (field; lra).
  rewrite Hom.
  assert (Hinv1 : / 15817 < / s) by (apply Rinv_lt_contravar; nra).
  assert (Hinv2 : / s < / 835) by (apply Rinv_lt_contravar; nra).
  lra.
Qed.

Lemma okres_orbity_zwalidowanej_witness :
  exists T omega,
    oblicz_okres_orbitalny
      {| polOs_wielka := SREDNICA_BAZOWA_ZIEMI + 550;
         inklinacja_kat := 51.6; wezl_wstepujacy := 0 |} = Zwraca T /\
    oblicz_predkosc_katowa
      {| polOs_wielka := SREDNICA_BAZOWA_ZIEMI + 550;
         inklinacja_kat := 51.6; wezl_wstepujacy := 0 |} = Zwraca omega /\
    5000 < T < 130000 /\ omega = 2 * PI / T /\ 6e-5 < omega < 1.2e-3.
Proof.
  apply (okres_orbity_zwalidowanej
           {| SchematOrbitWejscie.identyfikator_orbity := "LEO";
              SchematOrbitWejscie.wysokosc_km := 550;
              SchematOrbitWejscie.kat_inklinacji := 51.6;
              SchematOrbitWejscie.wezel_wst := 0 |}).
  - unfold SchematOrbitWejscie.waliduj. rewrite !andb_true_iff.
    rewrite !mniejsze_true, !nie_wieksze_true.
    unfold MINIMALNA_WYSOKOSC_ORBITY, MAKSYMALNA_WYSOKOSC_ORBITY. simpl.
    repeat split; try reflexivity; lra.
  - reflexivity.
Defined.

End ModelOrbity.

(* ================================================================== *)
(** * Further properties of the propagator *)
(* ================================================================== *)

Section PropagatorDalej.

Import Py Modele Serwisy Wzory Schematy.
Local Open Scope R_scope.

(** Whole multiples of the modulus do not change the remainder. *)
Lemma float_mod_okresowa (x m : R) (k : Z) :
  m <> 0 -> float_mod (x + m * IZR k) m = float_mod x m.
Proof.
  intros Hm. unfold float_mod.
  replace ((x + m * IZR k) / m) with (x / m + IZR k) by (field; exact Hm).
  rewrite Zfloor_addz, plus_IZR. ring.
Qed.

Lemma normalizuj_dlugosc_okresowa (x : R) (k : Z) :
  _normalizuj_dlugosc (x + 360 * IZR k) = _normalizuj_dlugosc x.
Proof.
  unfold _normalizuj_dlugosc.
  replace (x + 360 * IZR k + 180) with (x + 180 + 360 * IZR k) by ring.
  rewrite float_mod_okresowa by lra. reflexivity.
Qed.

Lemma normalizuj_dlugosc_w_zakresie (x : R) :
  -180 <= x < 180 -> _normalizuj_dlugosc x = x.
Proof.
  intros Hx. unfold _normalizuj_dlugosc. rewrite float_mod_maly by lra. ring.
Qed.

(** X6.  In exact arithmetic: the normal form of a longitude differs from it
    by a whole number of turns, and two longitudes have the same normal form
    exactly when they differ by a whole number of turns; a longitude of
    [[-180, 180)] is its own normal form, so that normalising twice is
    normalising once.  (In binary64 the sum with 180 and the difference are
    rounded: [Binary64._normalizuj_dlugosc] returns 0.09999999999999432 for
    0.1, and 180.0 for the number just below -180.) *)
Theorem normalizuj_dlugosc_kongruencja (x y : R) :
  (exists k : Z, x - _normalizuj_dlugosc x = 360 * IZR k) /\
  (_normalizuj_dlugosc x = _normalizuj_dlugosc y <->
   exists k : Z, x - y = 360 * IZR k) /\
  (-180 <= x < 180 -> _normalizuj_dlugosc x = x) /\
  _normalizuj_dlugosc (_normalizuj_dlugosc x) = _normalizuj_dlugosc x.
Proof.
  assert (Hform : forall z, exists k : Z, z - _normalizuj_dlugosc z = 360 * IZR k).
  { intros z. destruct (float_mod_wielokrotnosc (z + 180) 360) as [k Hk].
    exists k. unfold _normalizuj_dlugosc. lra. }
  split; [apply Hform |]. split; [| split].
  - split.
    + intros Heq. destruct (Hform x) as [kx Hx]. destruct (Hform y) as [ky Hy].
      exists (kx - ky)%Z. rewrite minus_IZR. lra.
    + intros [k Hk]. replace x with (y + 360 * IZR k) by lra.
      apply normalizuj_dlugosc_okresowa.
  - apply normalizuj_dlugosc_w_zakresie.
  - apply normalizuj_dlugosc_w_zakresie, normalizuj_dlugosc_zakres.
Qed.

Lemma asin_niemalejacy (x y : R) :
  -1 <= x -> x <= y -> y <= 1 -> asin x <= asin y.
Proof.
  intros Hx Hxy Hy.
  destruct (Rle_dec (asin x) (asin y)) as [H | H]; [exact H | exfalso].
  assert (Hlt : asin y < asin x) by lra.
  pose proof (asin_bound x) as [Hx1 Hx2]. pose proof (asin_bound y) as [Hy1 Hy2].
  apply sin_increasing_1 in Hlt; try assumption.
  rewrite !sin_asin in Hlt by lra. lra.
Qed.

Lemma degrees_radians (x : R) : degrees (radians x) = x.
Proof. unfold degrees, radians. field. apply PI_neq0. Qed.

Lemma asin_sinusa_inklinacji (i : R) :
  0 <= i <= 180 ->
  0 <= sin (radians i) <= 1 /\
  degrees (asin (sin (radians i))) = Rmin i (180 - i).
Proof.
  intros [H0 H180]. pose proof PI_RGT_0 as Hpi.
  assert (Hr : 0 <= radians i <= PI).
  { unfold radians. split; [apply Rmult_le_pos; [lra | apply Rmult_le_pos; lra] |].
    replace PI with (180 * (PI / 180)) at 2 by (field; lra).
    apply Rmult_le_compat_r; [apply Rmult_le_pos; lra | lra]. }
  split.
  - split; [apply sin_ge_0; lra | apply SIN_bound].
  - destruct (Rle_dec i 90) as [Hle | Hgt].
    + rewrite Rmin_left by lra.
      rewrite asin_sin; [apply degrees_radians |].
      unfold radians. split; [nra |].
      replace (PI / 2) with (90 * (PI / 180)) by (field; lra).
      apply Rmult_le_compat_r; [apply Rmult_le_pos; lra | lra].
    + rewrite Rmin_right by lra.
      replace (sin (radians i)) with (sin (PI - radians i))
        by (rewrite sin_minus, sin_PI, cos_PI; ring).
      rewrite asin_sin.
      * unfold degrees, radians. field. lra.
      * unfold radians. split; [| nra].
        replace (PI / 2) with (90 * (PI / 180)) by (field; lra).
        assert (90 * (PI / 180) <= i * (PI / 180))
          by (apply Rmult_le_compat_r; [apply Rmult_le_pos; lra | lra]).
        replace PI with (180 * (PI / 180)) at 3 by (field; lra).
        assert (i * (PI / 180) <= 180 * (PI / 180))
          by (apply Rmult_le_compat_r; [apply Rmult_le_pos; lra | lra]).
        lra.
Qed.

(** X7.  In exact arithmetic the latitude of a returned coordinate never
    exceeds the inclination of the orbit: its magnitude is at most [i] for a
    prograde orbit and at most [180 - i] for a retrograde one.  (The
    binary64 latitude of the code can exceed the bound by a unit in the last
    place.) *)
Theorem propaguj_pozycje_szerokosc_a_inklinacja (p : ParametryOrbitalne)
    (t l0 : R) (c : WspolrzedneGeodezyjne) :
  0 <= inklinacja_kat p <= 180 ->
  propaguj_pozycje p t l0 = Zwraca c ->
  Rabs (szer_geogr c) <= Rmin (inklinacja_kat p) (180 - inklinacja_kat p).
Proof.
  intros Hi H.
  destruct (propaguj_pozycje_przypadki p t l0) as [[_ Hw] | [_ [e He]]];
    [| rewrite He in H; discriminate H].
  rewrite Hw in H. inversion H; subst c. clear H Hw. simpl.
  destruct (asin_sinusa_inklinacji _ Hi) as [[Hs0 Hs1] Hdeg].
  rewrite <- Hdeg.
  set (s := sin (radians (inklinacja_kat p))) in *.
  set (u := argument_orbity _ t l0).
  pose proof (SIN_bound u) as [Hu1 Hu2].
  assert (Hlo : - s <= s * sin u) by nra.
  assert (Hhi : s * sin u <= s) by nra.
  pose proof (asin_niemalejacy (- s) (s * sin u) ltac:(lra) Hlo ltac:(lra)) as H1.
  pose proof (asin_niemalejacy (s * sin u) s ltac:(lra) Hhi Hs1) as H2.
  rewrite asin_opp in H1.
  pose proof PI_RGT_0 as Hpi.
  assert (Hk : 0 < 180 / PI) by (apply Rdiv_lt_0_compat; lra).
  unfold degrees. apply Rabs_le. split; nra.
Qed.

Lemma propaguj_pozycje_szerokosc_a_inklinacja_witness :
  exists c,
    propaguj_pozycje
      {| polOs_wielka := 6921; inklinacja_kat := 51.6; wezl_wstepujacy := 0 |}
      600 0 = Zwraca c /\
    Rabs (szer_geogr c) <= Rmin 51.6 (180 - 51.6).
Proof.
  set (p := {| polOs_wielka := 6921; inklinacja_kat := 51.6; wezl_wstepujacy := 0 |}).
  assert (Hi : 0 <= inklinacja_kat p <= 180) by (simpl; lra).
  assert (Hw : propaguj_pozycje p 600 0 =
               Zwraca (wspolrzedne (predkosc_katowa_z_progiem (polOs_wielka p)) p 600 0)).
  { apply propaguj_pozycje_wzor. apply os_dopuszczalna_mala. simpl. lra. }
  eexists. split; [exact Hw |].
  exact (propaguj_pozycje_szerokosc_a_inklinacja p 600 0 _ Hi Hw).
Defined.

Lemma argument_orbity_okresowy (omega t l0 T : R) (k : Z) :
  omega * T = 2 * PI ->
  argument_orbity omega (t + IZR k * T) l0 = argument_orbity omega t l0.
Proof.
  intros HT. unfold argument_orbity.
  replace (omega * (t + IZR k * T) + radians l0)
    with (omega * t + radians l0 + (omega * T) * IZR k) by ring.
  rewrite HT. apply float_mod_okresowa. pose proof PI_RGT_0. lra.
Qed.

(** X8.  The propagation is periodic in the elapsed time: after any whole
    number of orbital periods the object is at the same coordinate. *)
Theorem propaguj_pozycje_okresowa (p : ParametryOrbitalne) (T t l0 : R) (k : Z) :
  oblicz_okres_orbitalny p = Zwraca T ->
  EPSILON_NUMERYCZNY < T ->
  propaguj_pozycje p (t + IZR k * T) l0 = propaguj_pozycje p t l0.
Proof.
  intros HT Heps. apply oblicz_okres_orbitalny_zwraca in HT. destruct HT as [Hos ->].
  rewrite !(propaguj_pozycje_wzor p) by exact Hos.
  unfold EPSILON_NUMERYCZNY in Heps.
  assert (Hom : predkosc_katowa_z_progiem (polOs_wielka p) * okres (polOs_wielka p)
                = 2 * PI).
  { unfold predkosc_katowa_z_progiem.
    destruct (Rlt_dec 1e-9 (okres (polOs_wielka p))) as [_ | Hn]; [| contradiction].
    unfold predkosc_katowa. fold (okres (polOs_wielka p)). field. lra. }
  unfold wspolrzedne. rewrite (argument_orbity_okresowy _ t l0 _ k Hom). reflexivity.
Qed.

Lemma propaguj_pozycje_okresowa_witness :
  exists T c,
    oblicz_okres_orbitalny
      {| polOs_wielka := 6921; inklinacja_kat := 51.6; wezl_wstepujacy := 0 |}
    = Zwraca T /\ EPSILON_NUMERYCZNY < T /\
    propaguj_pozycje
      {| polOs_wielka := 6921; inklinacja_kat := 51.6; wezl_wstepujacy := 0 |}
      600 0 = Zwraca c /\
    propaguj_pozycje
      {| polOs_wielka := 6921; inklinacja_kat := 51.6; wezl_wstepujacy := 0 |}
      (600 + IZR 3 * T) 0 = Zwraca c.
Proof.
  set (p := {| polOs_wielka := 6921; inklinacja_kat := 51.6; wezl_wstepujacy := 0 |}).
  assert (Hos : os_dopuszczalna (polOs_wielka p))
    by (apply os_dopuszczalna_mala; simpl; lra).
  assert (HT : oblicz_okres_orbitalny p = Zwraca (okres 6921))
    by (apply (oblicz_okres_orbitalny_wzor p Hos)).
  assert (Heps : EPSILON_NUMERYCZNY < okres 6921)
    by (apply okres_powyzej_progu; lra).
  exists (okres 6921), (wspolrzedne (predkosc_katowa_z_progiem (polOs_wielka p)) p 600 0).
  split; [exact HT |]. split; [exact Heps |].
  split; [apply propaguj_pozycje_wzor; exact Hos |].
  rewrite (propaguj_pozycje_okresowa p (okres 6921) 600 0 3 HT Heps).
  apply propaguj_pozycje_wzor; exact Hos.
Defined.

Lemma radians_suma (x y : R) : radians (x + y) = radians x + radians y.
Proof. unfold radians. ring. Qed.

Lemma degrees_suma (x y : R) : degrees (x + y) = degrees x + degrees y.
Proof. unfold degrees. ring. Qed.

Lemma normalizuj_dlugosc_suma (x r : R) :
  _normalizuj_dlugosc (_normalizuj_dlugosc x + r) = _normalizuj_dlugosc (x + r).
Proof.
  destruct (float_mod_wielokrotnosc (x + 180) 360) as [k Hk].
  replace (x + r) with (_normalizuj_dlugosc x + r + 360 * IZR k)
    by (unfold _normalizuj_dlugosc; lra).
  symmetry. apply normalizuj_dlugosc_okresowa.
Qed.

(** X9.  The right ascension of the ascending node only turns the orbit about
    the polar axis: latitude and altitude do not depend on it, and the
    longitude is the longitude for a node at 0 shifted by it and normalised.
    A whole number of turns added to the initial longitude changes nothing. *)
Theorem propaguj_pozycje_wezel (p : ParametryOrbitalne) (t l0 : R) :
  let p0 := {| polOs_wielka := polOs_wielka p;
               inklinacja_kat := inklinacja_kat p;
               wezl_wstepujacy := 0 |} in
  propaguj_pozycje p t l0 =
  bind (propaguj_pozycje p0 t l0)
       (fun c0 => Zwraca {| szer_geogr := szer_geogr c0;
                            dlug_geogr :=
                              _normalizuj_dlugosc (dlug_geogr c0 + wezl_wstepujacy p);
                            wysokosc_npm := wysokosc_npm c0 |})
  /\
  forall k : Z, propaguj_pozycje p t (l0 + 360 * IZR k) = propaguj_pozycje p t l0.
Proof.
  cbv zeta. split.
  - unfold propaguj_pozycje, oblicz_predkosc_katowa, oblicz_okres_orbitalny.
    cbn [polOs_wielka inklinacja_kat wezl_wstepujacy].
    destruct (float_pow (polOs_wielka p) 3) as [sz | e]; [| reflexivity].
    cbn [bind].
    destruct (math_sqrt (sz / PARAMETR_GRAWIT_ZIEMI)) as [pw | e]; [| reflexivity].
    cbn [bind].
    rewrite !math_asin_iloczyn_sinusow. cbn [bind szer_geogr dlug_geogr wysokosc_npm].
    f_equal. f_equal.
    rewrite normalizuj_dlugosc_suma.
    f_equal. unfold radians, degrees. field. apply PI_neq0.
  - intros k. unfold propaguj_pozycje.
    destruct (oblicz_predkosc_katowa p) as [om | e]; [| reflexivity].
    cbn [bind].
    assert (Hu : float_mod (om * t + radians (l0 + 360 * IZR k)) (2 * PI)
                 = float_mod (om * t + radians l0) (2 * PI)).
    { replace (om * t + radians (l0 + 360 * IZR k))
        with (om * t + radians l0 + (2 * PI) * IZR k)
        by (unfold radians; field).
      apply float_mod_okresowa. pose proof PI_RGT_0. lra. }
    rewrite Hu. reflexivity.
Qed.

End PropagatorDalej.

(* ================================================================== *)
(** * The entry point of the propagator and the two position services *)
(* ================================================================== *)

Section PunktWejscia.

Import Py Modele Serwisy Wzory Schematy.
Local Open Scope R_scope.

Lemma total_seconds_znak (moment start : datetime) :
  (if (moment <? start)%Z then total_seconds (moment - start)%Z < 0
   else 0 <= total_seconds (moment - start)%Z).
Proof.
  destruct (moment <? start)%Z eqn:E.
  - apply Z.ltb_lt in E. apply total_seconds_ujemne. lia.
  - apply Z.ltb_ge in E. apply total_seconds_nieujemne. lia.
Qed.

(** The three tests of the entry point, on the period. *)
Lemma oblicz_pozycje_kepler_zakres (p : ParametryOrbitalne)
    (moment data_startowa : datetime) (dlugosc_pocz T : R) :
  oblicz_okres_orbitalny p = Zwraca T ->
  oblicz_pozycje (PropagatorOrbity := PropagatorKeplerowski)
                 p moment dlugosc_pocz data_startowa =
  if (moment <? data_startowa)%Z then Rzuca BladObliczenOrbitych
  else if Rlt_dec 1e-9 T then
    if Rle_dec T (2 * PI * 1e9) then
      Zwraca (wspolrzedne (2 * PI / T) p
                          (total_seconds (moment - data_startowa)%Z) dlugosc_pocz)
    else Rzuca BladObliczenOrbitych
  else Rzuca BladObliczenOrbitych.
Proof.
  intros HT. pose proof HT as HT'.
  apply oblicz_okres_orbitalny_zwraca in HT'. destruct HT' as [Hos ->].
  pose proof (total_seconds_znak moment data_startowa) as Hsec.
  pose proof PI_RGT_0 as Hpi.
  cbn [oblicz_pozycje PropagatorKeplerowski]. unfold oblicz_pozycje_kepler.
  destruct (moment <? data_startowa)%Z.
  - destruct (Rlt_dec _ 0) as [_ | Hn]; [reflexivity | contradiction].
  - destruct (Rlt_dec _ 0) as [Hneg | _]; [lra |].
    rewrite (oblicz_predkosc_katowa_wzor p Hos). cbn [bind].
    unfold predkosc_katowa_z_progiem, EPSILON_NUMERYCZNY.
    destruct (Rlt_dec 1e-9 (okres (polOs_wielka p))) as [Hbig | Hsmall].
    + assert (Hom : predkosc_katowa (polOs_wielka p) = 2 * PI / okres (polOs_wielka p))
        by reflexivity.
      assert (Hpos : 0 < 2 * PI / okres (polOs_wielka p))
        by (apply Rdiv_lt_0_compat; lra).
      rewrite Hom, (Rabs_pos_eq _ (Rlt_le _ _ Hpos)).
      destruct (Rle_dec (okres (polOs_wielka p)) (2 * PI * 1e9)) as [Hle | Hgt].
      * destruct (Rlt_dec (2 * PI / okres (polOs_wielka p)) 1e-9) as [Hlt | _].
        -- exfalso.
           apply (Rmult_lt_compat_r (okres (polOs_wielka p))) in Hlt; [| lra].
           unfold Rdiv in Hlt. rewrite Rmult_assoc, Rinv_l in Hlt by lra. lra.
        -- apply propaguj_pozycje_dla_predkosci.
           rewrite (oblicz_predkosc_katowa_wzor p Hos). f_equal.
           unfold predkosc_katowa_z_progiem.
           destruct (Rlt_dec 1e-9 (okres (polOs_wielka p))); [exact Hom | contradiction].
      * destruct (Rlt_dec (2 * PI / okres (polOs_wielka p)) 1e-9) as [_ | Hn];
          [reflexivity | exfalso].
        apply Hn. apply (Rmult_lt_reg_r (okres (polOs_wielka p))); [lra |].
        unfold Rdiv. rewrite Rmult_assoc, Rinv_l by lra. lra.
    + rewrite Rabs_R0.
      destruct (Rlt_dec 0 1e-9) as [_ | Hn]; [reflexivity | lra].
Qed.

(** X10.  The entry point [oblicz_pozycje] in terms of the orbital period [T]:
    it propagates over the elapsed seconds when the instant is not before the
    start date and [1e-9 < T <= 2 PI 1e9]; before the start date, for a period
    of at most [1e-9] (angular velocity 0.0) and for a period above [2 PI 1e9]
    seconds (angular velocity below [1e-9]) it raises [BladObliczenOrbitych].
    *)
Theorem oblicz_pozycje_zakres_okresu (p : ParametryOrbitalne)
    (moment data_startowa : datetime) (dlugosc_pocz T : R) :
  oblicz_okres_orbitalny p = Zwraca T ->
  oblicz_pozycje (PropagatorOrbity := PropagatorKeplerowski)
                 p moment dlugosc_pocz data_startowa =
  if (moment <? data_startowa)%Z then Rzuca BladObliczenOrbitych
  else if Rlt_dec 1e-9 T then
    if Rle_dec T (2 * PI * 1e9) then
      Zwraca (wspolrzedne (2 * PI / T) p
                          (total_seconds (moment - data_startowa)%Z) dlugosc_pocz)
    else Rzuca BladObliczenOrbitych
  else Rzuca BladObliczenOrbitych.
Proof. apply oblicz_pozycje_kepler_zakres. Qed.

Lemma oblicz_pozycje_zakres_okresu_witness :
  exists T,
    oblicz_okres_orbitalny
      {| polOs_wielka := 6921; inklinacja_kat := 51.6; wezl_wstepujacy := 0 |}
    = Zwraca T /\
    oblicz_pozycje (PropagatorOrbity := PropagatorKeplerowski)
      {| polOs_wielka := 6921; inklinacja_kat := 51.6; wezl_wstepujacy := 0 |}
      0%Z 0 60000000%Z
    = Rzuca BladObliczenOrbitych.
Proof.
  set (p := {| polOs_wielka := 6921; inklinacja_kat := 51.6; wezl_wstepujacy := 0 |}).
  assert (HT : oblicz_okres_orbitalny p = Zwraca (okres 6921)).
  { apply (oblicz_okres_orbitalny_wzor p). apply os_dopuszczalna_mala. simpl. lra. }
  exists (okres 6921). split; [exact HT |].
  rewrite (oblicz_pozycje_zakres_okresu p 0%Z 60000000%Z 0 (okres 6921) HT).
  reflexivity.
Defined.

(** The semi-major axis that both services build for an object on a
    validated orbit is accepted, with a period in the range of the entry
    point. *)
Lemma os_obiektu_zwalidowanego (o : ModelObiektuBD) (id : Z)
    (dane : SchematOrbitWejscie.t) :
  SchematOrbitWejscie.waliduj dane = true ->
  orbita_ref o = wiersz_orbity id dane ->
  6531 < polOs_wielka (parametry_obiektu o) <= 46371.
Proof.
  intros Hv Ho. apply SchematOrbitWejscie_waliduj_true in Hv. destruct Hv as [Hh _].
  unfold parametry_obiektu. rewrite Ho. cbn [polOs_wielka wysokosc_km wiersz_orbity].
  unfold SREDNICA_BAZOWA_ZIEMI. lra.
Qed.

Lemma parametry_serwisu (o : ModelObiektuBD) :
  {| polOs_wielka := wysokosc_km (orbita_ref o) + SREDNICA_BAZOWA_ZIEMI;
     inklinacja_kat := kat_inklinacji (orbita_ref o);
     wezl_wstepujacy := wezel_wst (orbita_ref o) |} = parametry_obiektu o.
Proof. unfold parametry_obiektu. f_equal. apply Rplus_comm. Qed.

(** The two position services on a validated orbit. *)
Lemma uslugi_pozycji_wzor (isoparse : string -> option datetime)
    (sesja : Session) (o : ModelObiektuBD) (dane : SchematOrbitWejscie.t)
    (znacznik : string) (moment : datetime) :
  find (fun x => (id_rekordu x =? id_rekordu o)%Z) (tab_obiekty sesja) = Some o ->
  find (fun r => (orb_id_rekordu r =? id_orbity_powiazanej o)%Z) (tab_orbity sesja)
    = Some (orbita_ref o) ->
  orbita_ref o = wiersz_orbity (id_orbity_powiazanej o) dane ->
  SchematOrbitWejscie.waliduj dane = true ->
  isoparse znacznik = Some moment ->
  let wynik_serwisu :=
    Serwisy.oblicz_pozycje_obiektu
      (propagator := PropagatorKeplerowski) (walidator := WalidatorISO8601 isoparse)
      sesja (id_rekordu o) znacznik in
  if (moment <? data_wprowadzenia o)%Z then
    wynik_serwisu = Rzuca BladObliczenOrbitych /\
    Api.oblicz_pozycje_w_czasie o moment = Zwraca None
  else
    wynik_serwisu = Zwraca (pozycja_obiektu o moment) /\
    Api.oblicz_pozycje_w_czasie o moment = Zwraca (Some (pozycja_obiektu o moment)).
Proof.
  intros Hobj Horb Hrow Hv Hiso. cbv zeta.
  pose proof (os_obiektu_zwalidowanego o _ dane Hv Hrow) as Ha.
  assert (Hos : os_dopuszczalna (polOs_wielka (parametry_obiektu o)))
    by (apply os_dopuszczalna_mala; lra).
  pose proof (oblicz_okres_orbitalny_wzor _ Hos) as HT.
  pose proof (pierwiastek_orbity_zwalidowanej _ Ha) as [Hs1 Hs2].
  pose proof PI2_3_2 as Hpi3. pose proof PI_4 as Hpi4.
  assert (Hbig : 1e-9 < okres (polOs_wielka (parametry_obiektu o)))
    by (apply okres_powyzej_progu; lra).
  assert (Hsmall : okres (polOs_wielka (parametry_obiektu o)) <= 2 * PI * 1e9)
    by (unfold okres; nra).
  assert (Hserw :
    Serwisy.oblicz_pozycje_obiektu
      (propagator := PropagatorKeplerowski) (walidator := WalidatorISO8601 isoparse)
      sesja (id_rekordu o) znacznik
    = oblicz_pozycje (PropagatorOrbity := PropagatorKeplerowski)
        (parametry_obiektu o) moment (pozycja_startowa_lon o) (data_wprowadzenia o)).
  { unfold Serwisy.oblicz_pozycje_obiektu.
    cbn [waliduj_znacznik WalidatorISO8601]. rewrite Hiso. cbn [bind].
    rewrite Hobj, Horb, parametry_serwisu. reflexivity. }
  rewrite Hserw, (oblicz_pozycje_kepler_zakres _ _ _ _ _ HT).
  destruct (moment <? data_wprowadzenia o)%Z eqn:E.
  - split; [reflexivity |].
    apply oblicz_pozycje_w_czasie_przed_epoka. apply Z.ltb_lt. exact E.
  - destruct (Rlt_dec 1e-9 (okres (polOs_wielka (parametry_obiektu o))));
      [| contradiction].
    destruct (Rle_dec (okres (polOs_wielka (parametry_obiektu o))) (2 * PI * 1e9));
      [| contradiction].
    assert (Hpoz : wspolrzedne (2 * PI / okres (polOs_wielka (parametry_obiektu o)))
                     (parametry_obiektu o)
                     (total_seconds (moment - data_wprowadzenia o)%Z)
                     (pozycja_startowa_lon o)
                   = pozycja_obiektu o moment).
    { unfold pozycja_obiektu. f_equal. unfold predkosc_katowa_z_progiem.
      destruct (Rlt_dec 1e-9 (okres (polOs_wielka (parametry_obiektu o))));
        [reflexivity | contradiction]. }
    rewrite Hpoz. split; [reflexivity |].
    apply Z.ltb_ge in E. apply oblicz_pozycje_w_czasie_wzor; assumption.
Qed.

(** X11.  On an orbit that passed the input schema the two position services
    agree from the epoch of the object on: the service of
    [satelity_serwisy.py], called with a timestamp text, and the service of
    [satelity_api.py], called with the parsed instant, return the same
    coordinate.  Before the epoch the first raises [BladObliczenOrbitych] and
    the second returns [None]. *)
Theorem uslugi_pozycji_zgodne (isoparse : string -> option datetime)
    (sesja : Session) (o : ModelObiektuBD) (dane : SchematOrbitWejscie.t)
    (znacznik : string) (moment : datetime) :
  find (fun x => (id_rekordu x =? id_rekordu o)%Z) (tab_obiekty sesja) = Some o ->
  find (fun r => (orb_id_rekordu r =? id_orbity_powiazanej o)%Z) (tab_orbity sesja)
    = Some (orbita_ref o) ->
  orbita_ref o = wiersz_orbity (id_orbity_powiazanej o) dane ->
  SchematOrbitWejscie.waliduj dane = true ->
  isoparse znacznik = Some moment ->
  let wynik_serwisu :=
    Serwisy.oblicz_pozycje_obiektu
      (propagator := PropagatorKeplerowski) (walidator := WalidatorISO8601 isoparse)
      sesja (id_rekordu o) znacznik in
  if (moment <? data_wprowadzenia o)%Z then
    wynik_serwisu = Rzuca BladObliczenOrbitych /\
    Api.oblicz_pozycje_w_czasie o moment = Zwraca None
  else
    wynik_serwisu = Zwraca (pozycja_obiektu o moment) /\
    Api.oblicz_pozycje_w_czasie o moment = Zwraca (Some (pozycja_obiektu o moment)).
Proof. apply uslugi_pozycji_wzor. Qed.

Lemma dane_leo_zwalidowane : SchematOrbitWejscie.waliduj Probki.dane_leo = true.
Proof.
  unfold SchematOrbitWejscie.waliduj. rewrite !andb_true_iff.
  rewrite !mniejsze_true, !nie_wieksze_true.
  unfold MINIMALNA_WYSOKOSC_ORBITY, MAKSYMALNA_WYSOKOSC_ORBITY. simpl.
  repeat split; try reflexivity; lra.
Qed.

Lemma uslugi_pozycji_zgodne_witness :
  Serwisy.oblicz_pozycje_obiektu
    (propagator := PropagatorKeplerowski)
    (walidator := WalidatorISO8601 (Probki.isoparse_staly Przyklady.MINUTA))
    Probki.sesja_leo 1%Z "1970-01-01T00:01:00Z"
  = Zwraca (pozycja_obiektu (Probki.obiekt_leo 1 0%Z) Przyklady.MINUTA) /\
  Api.oblicz_pozycje_w_czasie (Probki.obiekt_leo 1 0%Z) Przyklady.MINUTA
  = Zwraca (Some (pozycja_obiektu (Probki.obiekt_leo 1 0%Z) Przyklady.MINUTA)).
Proof.
  exact (uslugi_pozycji_zgodne
           (Probki.isoparse_staly Przyklady.MINUTA) Probki.sesja_leo
           (Probki.obiekt_leo 1 0%Z) Probki.dane_leo
           "1970-01-01T00:01:00Z" Przyklady.MINUTA
           eq_refl eq_refl eq_refl dane_leo_zwalidowane eq_refl).
Defined.

End PunktWejscia.

(* ================================================================== *)
(** * The helper functions of [satelity_serwisy.py] *)
(* ================================================================== *)

Section FunkcjePomocnicze.

Import Py Modele Api Wzory Schematy Pomocnicze.
Local Open Scope R_scope.

(** X12.  The helper validates the same ranges as the orbit schema, except
    that it admits the lower altitude limit itself: every orbit that the
    schema accepts is accepted by the helper, and an altitude of exactly 160
    km is accepted by the helper and rejected by the schema. *)
Theorem waliduj_parametry_orbitalne_a_schemat :
  (forall wysokosc inklinacja raan : R,
      waliduj_parametry_orbitalne wysokosc inklinacja raan = true <->
      160 <= wysokosc <= 40000 /\ 0 <= inklinacja <= 180 /\ 0 <= raan < 360) /\
  (forall dane : SchematOrbitWejscie.t,
      SchematOrbitWejscie.waliduj dane = true ->
      waliduj_parametry_orbitalne (SchematOrbitWejscie.wysokosc_km dane)
                                  (SchematOrbitWejscie.kat_inklinacji dane)
                                  (SchematOrbitWejscie.wezel_wst dane) = true) /\
  (forall dane : SchematOrbitWejscie.t,
      SchematOrbitWejscie.wysokosc_km dane = 160 ->
      SchematOrbitWejscie.waliduj dane = false) /\
  waliduj_parametry_orbitalne 160 0 0 = true.
Proof.
  assert (Hiff : forall wysokosc inklinacja raan : R,
      waliduj_parametry_orbitalne wysokosc inklinacja raan = true <->
      160 <= wysokosc <= 40000 /\ 0 <= inklinacja <= 180 /\ 0 <= raan < 360).
  { intros h i r. unfold waliduj_parametry_orbitalne, nie_wieksze, mniejsze,
      MINIMALNA_WYSOKOSC_ORBITY, MAKSYMALNA_WYSOKOSC_ORBITY.
    destruct (Rle_dec 160.0 h), (Rle_dec h 40000.0), (Rle_dec 0 i), (Rle_dec i 180),
      (Rle_dec 0 r), (Rlt_dec r 360); simpl; split; intros H;
      try discriminate H; try reflexivity; try lra. }
  split; [exact Hiff |]. split; [| split].
  - intros dane Hv. apply SchematOrbitWejscie_waliduj_true in Hv.
    apply Hiff. lra.
  - intros dane Hh.
    destruct (SchematOrbitWejscie.waliduj dane) eqn:E; [| reflexivity].
    apply SchematOrbitWejscie_waliduj_true in E. lra.
  - apply Hiff. lra.
Qed.

Lemma total_seconds_suma (d1 d2 : timedelta) :
  total_seconds (d1 + d2)%Z = total_seconds d1 + total_seconds d2.
Proof. unfold total_seconds. rewrite plus_IZR. field. Qed.

(** X13.  Time differences add up along a chain of instants, vanish between an
    instant and itself and change sign when the two ends are swapped, in every
    unit; and the five units measure the same span. *)
Theorem oblicz_roznice_czasu_addytywna (a b c : datetime) (k : KategoriaPrecyzji) :
  oblicz_roznice_czasu a b k + oblicz_roznice_czasu b c k = oblicz_roznice_czasu a c k /\
  oblicz_roznice_czasu a a k = 0 /\
  oblicz_roznice_czasu b a k = - oblicz_roznice_czasu a b k /\
  oblicz_roznice_czasu a b MILISEKUNDY = 1000 * oblicz_roznice_czasu a b SEKUNDY /\
  oblicz_roznice_czasu a b SEKUNDY = 60 * oblicz_roznice_czasu a b MINUTY /\
  oblicz_roznice_czasu a b MINUTY = 60 * oblicz_roznice_czasu a b GODZINY /\
  oblicz_roznice_czasu a b GODZINY = 24 * oblicz_roznice_czasu a b DNI.
Proof.
  unfold oblicz_roznice_czasu. cbv zeta.
  replace (c - a)%Z with ((b - a) + (c - b))%Z by ring.
  replace (a - a)%Z with 0%Z by ring.
  replace (a - b)%Z with (- (b - a))%Z by ring.
  rewrite total_seconds_suma.
  unfold total_seconds. rewrite opp_IZR.
  repeat split; try (destruct k); field.
Qed.

Lemma KategoriaPrecyzji_value_jednostka (k : KategoriaPrecyzji) :
  In (KategoriaPrecyzji_value k) JEDNOSTKI.
Proof. destruct k; simpl; auto 6. Qed.

(** X14.  The span of a parsed precision token, measured in the unit of the
    token, is the integer of the token, for seconds, minutes, hours and
    days: for a run of digits [c] and such a category [k], if the parser
    accepts [c] followed by the value of [k], then two instants that far
    apart differ by [int(c)] in category [k].  The span is then a whole
    number of seconds and the division by 60, 3600 or 86400 is exact in
    binary64 too.  Milliseconds are left out: there the helper multiplies
    the rounded seconds by 1000, and the product can miss the integer (a
    span of 1001 ms gives 1000.9999999999999). *)
Theorem oblicz_roznice_czasu_po_precyzji (k : KategoriaPrecyzji) (c : string)
    (delta : timedelta) (a b : datetime) :
  k <> MILISEKUNDY ->
  same_cyfry c ->
  parsuj_precyzje (c ++ KategoriaPrecyzji_value k) = Zwraca delta ->
  (b - a = delta)%Z ->
  oblicz_roznice_czasu a b k = IZR (int_z_cyfr c) /\ (1 <= int_z_cyfr c)%Z.
Proof.
  intros _ Hc Hp Hd.
  destruct (parsuj_precyzje_token c _ Hc (KategoriaPrecyzji_value_jednostka k))
    as [Htok _].
  rewrite Htok in Hp.
  destruct (int_z_cyfr c <? 1)%Z eqn:E; [discriminate Hp |].
  apply Z.ltb_ge in E. split; [| exact E].
  unfold mk_timedelta in Hp.
  destruct (_ && _); [| discriminate Hp].
  inversion Hp as [Hdelta]. clear Hp.
  unfold oblicz_roznice_czasu. cbv zeta. rewrite Hd, <- Hdelta.
  unfold total_seconds. rewrite mult_IZR.
  destruct k; cbn [KategoriaPrecyzji_value]; unfold mnoznik; simpl; field.
Qed.

Lemma oblicz_roznice_czasu_po_precyzji_witness :
  parsuj_precyzje ("5" ++ KategoriaPrecyzji_value MINUTY) = Zwraca 300000000%Z /\
  oblicz_roznice_czasu 60000000%Z 360000000%Z MINUTY = 5.
Proof.
  assert (Hk : MINUTY <> MILISEKUNDY) by discriminate.
  assert (Hc : same_cyfry "5") by (split; [discriminate | repeat constructor]).
  assert (Hp : parsuj_precyzje ("5" ++ KategoriaPrecyzji_value MINUTY)
               = Zwraca 300000000%Z) by reflexivity.
  split; [exact Hp |].
  exact (proj1 (oblicz_roznice_czasu_po_precyzji MINUTY "5" 300000000%Z
                  60000000%Z 360000000%Z Hk Hc Hp eq_refl)).
Defined.

End FunkcjePomocnicze.

(* ================================================================== *)
(** * The single-instant detector [wykryj_kolizje] *)
(* ================================================================== *)

Section DetektorChwili.

Import Py Modele Serwisy Wzory Schematy.
Local Open Scope R_scope.

Context {propagator : PropagatorOrbity} {walidator : WalidatorCzasowy}.

Variable prog : R.

Lemma petla_zbierania_wpis (sesja_bd : Session) (znacznik : string)
    (obiekty : list ModelObiektuBD) (m0 : dict WspolrzedneGeodezyjne)
    (id : Z) (p : WspolrzedneGeodezyjne) :
  dict_get
    (fold_left
       (fun pozycje obj =>
          match oblicz_pozycje_obiektu sesja_bd (id_rekordu obj) znacznik with
          | Zwraca poz => dict_set pozycje (id_rekordu obj) poz
          | Rzuca _ => pozycje
          end) obiekty m0) id = Some p ->
  dict_get m0 id = Some p \/
  ((exists obj, In obj obiekty /\ id_rekordu obj = id) /\
   oblicz_pozycje_obiektu sesja_bd id znacznik = Zwraca p).
Proof.
  revert m0. induction obiekty as [| o rest IH]; intros m0; simpl; [auto |].
  intros H. destruct (IH _ H) as [Hm | [[obj [Hin Hid]] Hp]].
  - destruct (oblicz_pozycje_obiektu sesja_bd (id_rekordu o) znacznik) as [poz | e] eqn:E;
      [| auto].
    destruct (Z.eq_dec (id_rekordu o) id) as [Heq | Hne].
    + subst id. rewrite dict_get_set_ten_sam in Hm. inversion Hm; subst poz.
      right. split; [exists o; auto | exact E].
    + rewrite dict_get_set_inny in Hm by exact Hne. auto.
  - right. split; [exists obj; auto | exact Hp].
Qed.

Lemma petla_zbierania_NoDup (sesja_bd : Session) (znacznik : string)
    (obiekty : list ModelObiektuBD) (m0 : dict WspolrzedneGeodezyjne) :
  NoDup (dict_keys m0) ->
  NoDup (dict_keys
    (fold_left
       (fun pozycje obj =>
          match oblicz_pozycje_obiektu sesja_bd (id_rekordu obj) znacznik with
          | Zwraca poz => dict_set pozycje (id_rekordu obj) poz
          | Rzuca _ => pozycje
          end) obiekty m0)).
Proof.
  revert m0. induction obiekty as [| o rest IH]; intros m0 Hnd; simpl; [exact Hnd |].
  apply IH.
  destruct (oblicz_pozycje_obiektu sesja_bd (id_rekordu o) znacznik);
    [apply dict_set_NoDup; exact Hnd | exact Hnd].
Qed.

(** Every entry of the position map of [wykryj_kolizje] is what the
    position service returns for the id, which is the id of one of the
    objects. *)
Lemma zbierz_pozycje_wpis (sesja_bd : Session) (znacznik : string)
    (obiekty : list ModelObiektuBD) (id : Z) (p : WspolrzedneGeodezyjne) :
  dict_get (zbierz_pozycje sesja_bd znacznik obiekty) id = Some p ->
  (exists obj, In obj obiekty /\ id_rekordu obj = id) /\
  oblicz_pozycje_obiektu sesja_bd id znacznik = Zwraca p.
Proof.
  intros H. destruct (petla_zbierania_wpis _ _ _ _ _ _ H) as [Hn | Hp];
    [discriminate Hn | exact Hp].
Qed.

Lemma zbierz_pozycje_NoDup (sesja_bd : Session) (znacznik : string)
    (obiekty : list ModelObiektuBD) :
  NoDup (dict_keys (zbierz_pozycje sesja_bd znacznik obiekty)).
Proof. apply petla_zbierania_NoDup. constructor. Qed.

(** The two components of a pair of the loops over distinct ids differ. *)
Lemma pary_rozne (l : list Z) (a b : Z) : NoDup l -> In (a, b) (pary l) -> a <> b.
Proof.
  induction 1 as [| x rest Hnotin Hnd IH]; simpl; [intros [] |].
  rewrite in_app_iff, in_map_iff. intros [[y [Heq Hy]] | Hin].
  - inversion Heq; subst. intros ->. contradiction.
  - apply IH; exact Hin.
Qed.

(** What the pair loops of [wykryj_kolizje] append. *)
Lemma petla_kolizji_zdarzenie (m : dict WspolrzedneGeodezyjne) (znacznik : string)
    (ps : list (Z * Z)) (acc zd : list ZdarzeniePrzestrz) (z : ZdarzeniePrzestrz) :
  dla_kazdego (sprawdz_pare_kolizji prog m znacznik) ps acc = Zwraca zd ->
  In z zd ->
  In z acc \/
  exists a b pa pb moment,
    In (a, b) ps /\ dict_get m a = Some pa /\ dict_get m b = Some pb /\
    waliduj_znacznik znacznik = Zwraca moment /\
    dystans_do pa pb = Zwraca (odleglosc pa pb) /\
    odleglosc pa pb <= prog /\
    z = {| obiekt_id_a := a; obiekt_id_b := b; moment_czasu := moment;
           lokalizacja := punkt_srodkowy pa pb;
           dystans_min := odleglosc pa pb |}.
Proof.
  revert acc. induction ps as [| [a b] rest IH]; intros acc H Hin.
  - simpl in H. inversion H; subst. auto.
  - cbn [dla_kazdego] in H. apply bind_zwraca in H. destruct H as [acc' [Hpair Hrest]].
    destruct (IH _ Hrest Hin) as [Hacc | Hnew].
    + unfold sprawdz_pare_kolizji in Hpair.
      apply bind_zwraca in Hpair. destruct Hpair as [pa [Hpa Hpair]].
      apply bind_zwraca in Hpair. destruct Hpair as [pb [Hpb Hpair]].
      apply bind_zwraca in Hpair. destruct Hpair as [d [Hd Hpair]].
      unfold dict_getitem in Hpa, Hpb.
      destruct (dict_get m a) as [pa' |] eqn:Ea; [| discriminate Hpa].
      destruct (dict_get m b) as [pb' |] eqn:Eb; [| discriminate Hpb].
      inversion Hpa; subst pa'. inversion Hpb; subst pb'.
      pose proof (dystans_do_zwraca _ _ _ Hd) as Hdd. subst d.
      destruct (Rle_dec (odleglosc pa pb) prog) as [Hle | Hgt].
      * apply bind_zwraca in Hpair. destruct Hpair as [moment [Hmom Hpair]].
        inversion Hpair; subst acc'.
        apply in_app_or in Hacc. destruct Hacc as [Hacc | [Hz | []]]; [auto |].
        right. exists a, b, pa, pb, moment.
        repeat split; try assumption; auto. left; reflexivity.
      * inversion Hpair; subst acc'. auto.
    + right. destruct Hnew as [a' [b' [pa [pb [moment [Hin' Hrest']]]]]].
      exists a', b', pa, pb, moment. split; [right; exact Hin' | exact Hrest'].
Qed.

(** X15.  Every event of [wykryj_kolizje] is between two different active
    objects of the catalogue: its location is the midpoint of the two
    positions that the position service returns for them, its distance is
    their Euclidean distance and is at most the threshold, and its instant is
    the parsed timestamp. *)
Theorem wykryj_kolizje_zdarzenia (sesja_bd : Session) (znacznik : string)
    (filtr_orbit : option Z) (zd : list ZdarzeniePrzestrz) (z : ZdarzeniePrzestrz) :
  wykryj_kolizje prog sesja_bd znacznik filtr_orbit = Zwraca zd ->
  In z zd ->
  obiekt_id_a z <> obiekt_id_b z /\
  (exists oa ob,
      In oa (tab_obiekty sesja_bd) /\ In ob (tab_obiekty sesja_bd) /\
      id_rekordu oa = obiekt_id_a z /\ id_rekordu ob = obiekt_id_b z /\
      stan_operacyjny oa = "active"%string /\ stan_operacyjny ob = "active"%string) /\
  exists pa pb,
    oblicz_pozycje_obiektu sesja_bd (obiekt_id_a z) znacznik = Zwraca pa /\
    oblicz_pozycje_obiektu sesja_bd (obiekt_id_b z) znacznik = Zwraca pb /\
    waliduj_znacznik znacznik = Zwraca (moment_czasu z) /\
    lokalizacja z = punkt_srodkowy pa pb /\
    dystans_min z = odleglosc pa pb /\
    dystans_min z <= prog.
Proof.
  unfold wykryj_kolizje. cbv zeta.
  set (aktywne := filter (fun o => String.eqb (stan_operacyjny o) "active")
                         (tab_obiekty sesja_bd)).
  set (obiekty := match filtr_orbit with
                  | Some f => if (f =? 0)%Z then aktywne
                              else filter (fun o => (id_orbity_powiazanej o =? f)%Z) aktywne
                  | None => aktywne
                  end).
  assert (Hob : forall o, In o obiekty ->
                  In o (tab_obiekty sesja_bd) /\ stan_operacyjny o = "active"%string).
  { assert (Hakt : forall o, In o aktywne ->
                     In o (tab_obiekty sesja_bd) /\ stan_operacyjny o = "active"%string).
    { intros o Hin. unfold aktywne in Hin. apply filter_In in Hin.
      destruct Hin as [Hin Hs]. apply String.eqb_eq in Hs. auto. }
    intros o Hin. unfold obiekty in Hin.
    destruct filtr_orbit as [f |]; [| auto].
    destruct (f =? 0)%Z; [auto |].
    apply filter_In in Hin. destruct Hin as [Hin _]. auto. }
  destruct (Z.of_nat (List.length obiekty) <? 2)%Z.
  - intros H Hin. inversion H; subst zd. destruct Hin.
  - intros H Hin.
    destruct (petla_kolizji_zdarzenie _ _ _ _ _ _ H Hin)
      as [[] | [a [b [pa [pb [moment [Hpair [Ha [Hb [Hmom [_ [Hle Hz]]]]]]]]]]]].
    subst z. cbn [obiekt_id_a obiekt_id_b moment_czasu lokalizacja dystans_min].
    destruct (zbierz_pozycje_wpis _ _ _ _ _ Ha) as [[oa [Hina Hida]] Hpa].
    destruct (zbierz_pozycje_wpis _ _ _ _ _ Hb) as [[ob [Hinb Hidb]] Hpb].
    split; [| split].
    + apply (pary_rozne _ _ _ (zbierz_pozycje_NoDup sesja_bd znacznik obiekty) Hpair).
    + exists oa, ob. destruct (Hob oa Hina). destruct (Hob ob Hinb). auto 10.
    + exists pa, pb. auto 10.
Qed.

(** X16.  A timestamp that the validator rejects does not make
    [wykryj_kolizje] raise: the failure of every position computation is
    caught, no position is left, and the detector returns the empty list. *)
Theorem wykryj_kolizje_zly_znacznik (sesja_bd : Session) (znacznik : string)
    (filtr_orbit : option Z) (e : wyjatek) :
  waliduj_znacznik znacznik = Rzuca e ->
  wykryj_kolizje prog sesja_bd znacznik filtr_orbit = Zwraca [].
Proof.
  intros Hw. unfold wykryj_kolizje. cbv zeta.
  match goal with |- context [Z.of_nat (List.length ?l)] => set (obiekty := l) end.
  destruct (Z.of_nat (List.length obiekty) <? 2)%Z; [reflexivity |].
  assert (Hpusty : zbierz_pozycje sesja_bd znacznik obiekty = []).
  { assert (Hpoz : forall id, oblicz_pozycje_obiektu sesja_bd id znacznik = Rzuca e).
    { intros id. unfold oblicz_pozycje_obiektu. rewrite Hw. reflexivity. }
    unfold zbierz_pozycje. generalize obiekty. intros l.
    induction l as [| o rest IH]; simpl; [reflexivity |].
    rewrite Hpoz. exact IH. }
  rewrite Hpusty. reflexivity.
Qed.

End DetektorChwili.

Section DetektorChwiliProbki.

Import Py Modele Serwisy Wzory Schematy.
Local Open Scope R_scope.

Lemma wykryj_kolizje_zly_znacznik_witness :
  wykryj_kolizje (propagator := PropagatorKeplerowski)
                 (walidator := WalidatorISO8601 (fun _ => None))
                 TOLERANCJA_ZBLIZENIA Probki.sesja_leo "wczoraj" None
  = Zwraca [].
Proof.
  apply (wykryj_kolizje_zly_znacznik
           (propagator := PropagatorKeplerowski)
           (walidator := WalidatorISO8601 (fun _ => None))
           TOLERANCJA_ZBLIZENIA Probki.sesja_leo "wczoraj" None BladWalidacjiCzasu).
  reflexivity.
Defined.

(** The position of either sample object one minute after the epoch. *)
Lemma pozycja_leo_z_serwisu (id : Z) :
  id = 1%Z \/ id = 2%Z ->
  oblicz_pozycje_obiektu
    (propagator := PropagatorKeplerowski)
    (walidator := WalidatorISO8601 (Probki.isoparse_staly Przyklady.MINUTA))
    Probki.sesja_leo id "1970-01-01T00:01:00Z"
  = Zwraca (pozycja_obiektu (Probki.obiekt_leo 1 0%Z) Przyklady.MINUTA).
Proof.
  intros [-> | ->].
  - exact (proj1 (uslugi_pozycji_wzor
             (Probki.isoparse_staly Przyklady.MINUTA) Probki.sesja_leo
             (Probki.obiekt_leo 1 0%Z) Probki.dane_leo
             "1970-01-01T00:01:00Z" Przyklady.MINUTA
             eq_refl eq_refl eq_refl dane_leo_zwalidowane eq_refl)).
  - exact (proj1 (uslugi_pozycji_wzor
             (Probki.isoparse_staly Przyklady.MINUTA) Probki.sesja_leo
             (Probki.obiekt_leo 2 0%Z) Probki.dane_leo
             "1970-01-01T00:01:00Z" Przyklady.MINUTA
             eq_refl eq_refl eq_refl dane_leo_zwalidowane eq_refl)).
Qed.

Lemma wykryj_kolizje_leo :
  let p := pozycja_obiektu (Probki.obiekt_leo 1 0%Z) Przyklady.MINUTA in
  wykryj_kolizje (propagator := PropagatorKeplerowski)
                 (walidator := WalidatorISO8601 (Probki.isoparse_staly Przyklady.MINUTA))
                 TOLERANCJA_ZBLIZENIA Probki.sesja_leo "1970-01-01T00:01:00Z" None
  = Zwraca [ {| obiekt_id_a := 2; obiekt_id_b := 1;
                moment_czasu := Przyklady.MINUTA;
                lokalizacja := punkt_srodkowy p p;
                dystans_min := odleglosc p p |} ].
Proof.
  cbv zeta. unfold wykryj_kolizje. cbv zeta.
  change (filter _ (tab_obiekty Probki.sesja_leo))
    with [Probki.obiekt_leo 2 0%Z; Probki.obiekt_leo 1 0%Z].
  change (Z.of_nat (List.length [Probki.obiekt_leo 2 0%Z; Probki.obiekt_leo 1 0%Z]) <? 2)%Z
    with false. cbv iota.
  unfold zbierz_pozycje. cbn [fold_left].
  change (id_rekordu (Probki.obiekt_leo 2 0%Z)) with 2%Z.
  change (id_rekordu (Probki.obiekt_leo 1 0%Z)) with 1%Z.
  rewrite !pozycja_leo_z_serwisu by auto.
  cbn [dict_set dict_keys map fst pary app dla_kazdego Z.eqb Pos.eqb].
  unfold sprawdz_pare_kolizji.
  cbn [dict_getitem dict_get Z.eqb Pos.eqb bind].
  rewrite (dystans_do_siebie _). cbn [bind].
  rewrite odleglosc_do_siebie.
  unfold TOLERANCJA_ZBLIZENIA.
  destruct (Rle_dec 0 0.01) as [_ | Hn]; [| lra].
  reflexivity.
Qed.

Lemma wykryj_kolizje_zdarzenia_witness :
  let p := pozycja_obiektu (Probki.obiekt_leo 1 0%Z) Przyklady.MINUTA in
  (2 <> 1)%Z /\
  exists pa pb,
    oblicz_pozycje_obiektu
      (propagator := PropagatorKeplerowski)
      (walidator := WalidatorISO8601 (Probki.isoparse_staly Przyklady.MINUTA))
      Probki.sesja_leo 2%Z "1970-01-01T00:01:00Z" = Zwraca pa /\
    oblicz_pozycje_obiektu
      (propagator := PropagatorKeplerowski)
      (walidator := WalidatorISO8601 (Probki.isoparse_staly Przyklady.MINUTA))
      Probki.sesja_leo 1%Z "1970-01-01T00:01:00Z" = Zwraca pb /\
    punkt_srodkowy p p = punkt_srodkowy pa pb /\
    odleglosc p p <= TOLERANCJA_ZBLIZENIA.
Proof.
  cbv zeta.
  destruct (wykryj_kolizje_zdarzenia
              (propagator := PropagatorKeplerowski)
              (walidator := WalidatorISO8601 (Probki.isoparse_staly Przyklady.MINUTA))
              TOLERANCJA_ZBLIZENIA Probki.sesja_leo "1970-01-01T00:01:00Z" None
              _ _ wykryj_kolizje_leo (or_introl eq_refl))
    as [Hne [_ [pa [pb [Hpa [Hpb [_ [Hloc [_ Hle]]]]]]]]].
  split; [exact Hne |]. exists pa, pb. auto.
Defined.

End DetektorChwiliProbki.

(* ================================================================== *)
(** * Further properties of the time grid *)
(* ================================================================== *)

Section SiatkaDalej.

Import Py Modele Api Wzory.
Local Open Scope Z_scope.

(** [py_round] in one statement: the result is strictly nearer than one
    half, or it is one half away and even. *)
Lemma py_round_parzysta (q : Q) :
  2 * Z.abs (py_round q * Zpos (Qden q) - Qnum q) < Zpos (Qden q) \/
  (2 * Z.abs (py_round q * Zpos (Qden q) - Qnum q) = Zpos (Qden q) /\
   Z.even (py_round q) = true).
Proof.
  unfold py_round.
  set (d := Zpos (Qden q)). set (n := Qnum q).
  assert (Hd : 0 < d) by (unfold d; lia).
  pose proof (Z.div_mod n d ltac:(lia)) as Hdm.
  pose proof (Z.mod_pos_bound n d Hd) as Hr.
  destruct (2 * (n mod d) <? d) eqn:E1.
  - apply Z.ltb_lt in E1. left. nia.
  - apply Z.ltb_ge in E1. destruct (d <? 2 * (n mod d)) eqn:E2.
    + apply Z.ltb_lt in E2. left. nia.
    + apply Z.ltb_ge in E2. right.
      destruct (Z.even (n / d)) eqn:Ev.
      * split; [nia | exact Ev].
      * split; [nia |]. rewrite Z.even_add, Ev. reflexivity.
Qed.

(** The index of the grid line chosen for [dt], in terms of the two
    microsecond counts: nearer than half a step, or half a step away and
    even. *)
Lemma zaokraglenie_parzyste (dt : datetime) (delta : timedelta) :
  delta <> 0 ->
  exists k, zaokraglenie dt delta = k * delta /\
    (2 * Z.abs (k * delta - dt) < Z.abs delta \/
     (2 * Z.abs (k * delta - dt) = Z.abs delta /\ Z.even k = true)).
Proof.
  intros Hd. unfold zaokraglenie.
  assert (Hq : (timestamp_Q dt / total_seconds_Q delta
                == inject_Z dt / inject_Z delta)%Q).
  { unfold timestamp_Q, total_seconds_Q. rewrite !Qmake_Qdiv. field.
    intros H. apply Hd. apply inject_Z_injective. exact H. }
  generalize dependent (timestamp_Q dt / total_seconds_Q delta)%Q.
  intros q Hq.
  exists (py_round q). split; [reflexivity |].
  pose proof (py_round_parzysta q) as Hn.
  assert (Hcross : Qnum q * delta = dt * Zpos (Qden q)).
  { assert (Hq' : (q * inject_Z delta == inject_Z dt)%Q).
    { rewrite Hq. field. intros H. apply Hd. apply inject_Z_injective. exact H. }
    unfold Qeq in Hq'. simpl in Hq'. rewrite Pos.mul_1_r in Hq'. lia. }
  set (k := py_round q) in *. set (n := Qnum q) in *. set (d := Zpos (Qden q)) in *.
  assert (Hdpos : 0 < d) by (unfold d; lia).
  assert (Hmul : (k * delta - dt) * d = (k * d - n) * delta) by nia.
  assert (Habs : Z.abs (k * delta - dt) * d = Z.abs (k * d - n) * Z.abs delta).
  { rewrite <- Z.abs_mul, <- Hmul, Z.abs_mul. rewrite (Z.abs_eq d) by lia. reflexivity. }
  assert (Hadelta : 0 < Z.abs delta) by lia.
  destruct Hn as [Hlt | [Heq Hev]].
  - left. nia.
  - right. split; [nia | exact Hev].
Qed.

(** X17.  For an instant and a step of whole seconds, the snapped instant
    lies on the grid and is a nearest grid line: at most half a step from
    the instant, and no grid line is nearer.  In whole seconds the timestamp
    and the step are integers below 2^53, their binary64 quotient lies on
    the same side of every half-integer as the exact one, and the product
    is exact: the code returns the instant of this computation.  (On a grid
    of milliseconds the binary64 result can leave the grid.) *)
Theorem zaokraglij_do_siatki_najblizsza (dt g : datetime) (delta : timedelta) :
  dt mod 1000000 = 0 ->
  delta mod 1000000 = 0 ->
  zaokraglij_do_siatki dt delta = Zwraca g ->
  (exists k, g = k * delta) /\
  2 * Z.abs (g - dt) <= Z.abs delta /\
  (forall j, Z.abs (g - dt) <= Z.abs (j * delta - dt)).
Proof.
  intros _ _. rewrite zaokraglij_do_siatki_wzor.
  destruct (delta =? 0) eqn:Ez; [discriminate |]. apply Z.eqb_neq in Ez.
  destruct (w_zakresie_datetime (zaokraglenie dt delta)); [| discriminate].
  intros H. inversion H; subst g. clear H.
  destruct (zaokraglenie_parzyste dt delta Ez) as [k [Hk Hnear]].
  rewrite Hk.
  assert (Hhalf : 2 * Z.abs (k * delta - dt) <= Z.abs delta)
    by (destruct Hnear as [H | [H _]]; lia).
  split; [exists k; reflexivity |]. split; [exact Hhalf |].
  intros j. destruct (Z.eq_dec j k) as [-> | Hne]; [lia |].
  assert (Hstep : Z.abs delta <= Z.abs ((j - k) * delta)).
  { rewrite Z.abs_mul. assert (1 <= Z.abs (j - k)) by lia.
    assert (0 <= Z.abs delta) by lia. nia. }
  replace (j * delta - dt) with ((j - k) * delta + (k * delta - dt)) by ring.
  lia.
Qed.

Lemma zaokraglij_do_siatki_najblizsza_witness :
  zaokraglij_do_siatki 100000000 Przyklady.MINUTA = Zwraca 120000000 /\
  2 * Z.abs (120000000 - 100000000) <= Z.abs Przyklady.MINUTA.
Proof.
  assert (H : zaokraglij_do_siatki 100000000 Przyklady.MINUTA = Zwraca 120000000)
    by reflexivity.
  split; [exact H |].
  exact (proj1 (proj2 (zaokraglij_do_siatki_najblizsza
                         100000000 120000000 Przyklady.MINUTA
                         eq_refl eq_refl H))).
Defined.

(** X18.  An instant exactly halfway between two grid lines is snapped to the
    one with the even index: ties go to the even multiple of the step, not
    upwards.  The step is a whole number of seconds: the float quotient of
    such a tie is then [k + 1/2] exactly. *)
Theorem zaokraglij_do_siatki_remis (k : Z) (dt : datetime) (delta : timedelta) :
  delta <> 0 ->
  delta mod 1000000 = 0 ->
  2 * dt = (2 * k + 1) * delta ->
  w_zakresie_datetime ((if Z.even k then k else k + 1) * delta) = true ->
  zaokraglij_do_siatki dt delta = Zwraca ((if Z.even k then k else k + 1) * delta).
Proof.
  intros Hd _ Htie Hr. rewrite zaokraglij_do_siatki_wzor.
  destruct (delta =? 0) eqn:Ez; [apply Z.eqb_eq in Ez; contradiction |].
  destruct (zaokraglenie_parzyste dt delta Hd) as [r [Hk Hnear]].
  assert (Hr0 : r = if Z.even k then k else k + 1).
  { assert (Hdist : 2 * (r * delta - dt) = (2 * r - 2 * k - 1) * delta) by lia.
    assert (Habs : 2 * Z.abs (r * delta - dt) = Z.abs (2 * r - 2 * k - 1) * Z.abs delta).
    { rewrite <- Z.abs_mul, <- Hdist, Z.abs_mul. reflexivity. }
    assert (Hpos : 0 < Z.abs delta) by lia.
    assert (Hodd : 1 <= Z.abs (2 * r - 2 * k - 1)) by lia.
    destruct Hnear as [Hlt | [Heq Hev]]; [nia |].
    assert (Hone : Z.abs (2 * r - 2 * k - 1) = 1) by nia.
    assert (Hcases : r = k \/ r = k + 1) by lia.
    destruct (Z.even k) eqn:Ek.
    - destruct Hcases as [-> | ->]; [reflexivity |].
      rewrite Z.even_add, Ek in Hev. discriminate Hev.
    - destruct Hcases as [-> | ->]; [| reflexivity].
      rewrite Ek in Hev. discriminate Hev. }
  rewrite Hk, Hr0, Hr. reflexivity.
Qed.

Lemma zaokraglij_do_siatki_remis_witness :
  zaokraglij_do_siatki 30000000 Przyklady.MINUTA = Zwraca 0 /\
  zaokraglij_do_siatki 90000000 Przyklady.MINUTA = Zwraca 120000000 /\
  zaokraglij_do_siatki 150000000 Przyklady.MINUTA = Zwraca 120000000.
Proof.
  split; [| split].
  - apply (zaokraglij_do_siatki_remis 0 30000000 Przyklady.MINUTA);
      [discriminate | reflexivity | reflexivity | reflexivity].
  - apply (zaokraglij_do_siatki_remis 1 90000000 Przyklady.MINUTA);
      [discriminate | reflexivity | reflexivity | reflexivity].
  - apply (zaokraglij_do_siatki_remis 2 150000000 Przyklady.MINUTA);
      [discriminate | reflexivity | reflexivity | reflexivity].
Defined.

(** X19.  Snapping with a forward step keeps the order of instants: an
    interval with [start <= end] is snapped to grid points in the same order,
    so that the scan analyses at least one tick. *)
Theorem zaokraglij_do_siatki_monotoniczna (dt1 dt2 g1 g2 : datetime)
    (delta : timedelta) :
  0 < delta -> dt1 <= dt2 ->
  zaokraglij_do_siatki dt1 delta = Zwraca g1 ->
  zaokraglij_do_siatki dt2 delta = Zwraca g2 ->
  g1 <= g2.
Proof.
  intros Hd Hle. rewrite !zaokraglij_do_siatki_wzor.
  destruct (delta =? 0); [discriminate |].
  destruct (w_zakresie_datetime (zaokraglenie dt1 delta)); [| discriminate].
  destruct (w_zakresie_datetime (zaokraglenie dt2 delta)); [| discriminate].
  intros H1 H2. inversion H1; subst g1. inversion H2; subst g2. clear H1 H2.
  destruct (zaokraglenie_parzyste dt1 delta ltac:(lia)) as [k1 [-> Hn1]].
  destruct (zaokraglenie_parzyste dt2 delta ltac:(lia)) as [k2 [-> Hn2]].
  rewrite (Z.abs_eq delta) in Hn1, Hn2 by lia.
  assert (Hk : k1 <= k2); [| nia].
  destruct (Z_le_gt_dec k1 k2) as [H | Hgt]; [exact H | exfalso].
  assert (Hup : 2 * (k1 * delta - dt1) <= delta)
    by (destruct Hn1 as [H | [H _]]; lia).
  assert (Hdown : 2 * (dt2 - k2 * delta) <= delta)
    by (destruct Hn2 as [H | [H _]]; lia).
  assert (Hk1 : k1 = k2 + 1) by nia.
  subst k1.
  assert (Ht1 : 2 * ((k2 + 1) * delta - dt1) = delta) by nia.
  assert (Ht2 : 2 * (dt2 - k2 * delta) = delta) by nia.
  destruct Hn1 as [Hlt | [_ Hev1]]; [lia |].
  destruct Hn2 as [Hlt | [_ Hev2]]; [lia |].
  rewrite Z.even_add, Hev2 in Hev1. discriminate Hev1.
Qed.

Lemma zaokraglij_do_siatki_monotoniczna_witness :
  zaokraglij_do_siatki 29000000 Przyklady.MINUTA = Zwraca 0 /\
  zaokraglij_do_siatki 31000000 Przyklady.MINUTA = Zwraca 60000000 /\
  0 <= 60000000.
Proof.
  assert (H1 : zaokraglij_do_siatki 29000000 Przyklady.MINUTA = Zwraca 0) by reflexivity.
  assert (H2 : zaokraglij_do_siatki 31000000 Przyklady.MINUTA = Zwraca 60000000)
    by reflexivity.
  split; [exact H1 |]. split; [exact H2 |].
  apply (zaokraglij_do_siatki_monotoniczna 29000000 31000000 0 60000000
           Przyklady.MINUTA); [reflexivity | discriminate | exact H1 | exact H2].
Defined.

End SiatkaDalej.

(* ================================================================== *)
(** * Further properties of the precision parser *)
(* ================================================================== *)

Section ParserDalej.

Import Py Modele Api Wzory.
Local Open Scope string_scope.

Lemma mnoznik_tysiace (j : string) :
  In j JEDNOSTKI -> exists m, (1 <= m)%Z /\ mnoznik j = (m * 1000)%Z.
Proof.
  unfold JEDNOSTKI. simpl.
  intros [<- | [<- | [<- | [<- | [<- | []]]]]]; unfold mnoznik; simpl.
  - exists 1%Z. split; lia.
  - exists 1000%Z. split; lia.
  - exists 60000%Z. split; lia.
  - exists 3600000%Z. split; lia.
  - exists 86400000%Z. split; lia.
Qed.

(** X20.  A duration that the parser returns is a whole, positive number of
    milliseconds, and at most 999999999 days: it is never zero or negative, so
    the grid of a scan never divides by zero and always steps forward. *)
Theorem parsuj_precyzje_milisekundy (t : string) (d : timedelta) :
  parsuj_precyzje t = Zwraca d ->
  (exists n, 1 <= n /\ d = n * 1000)%Z /\
  (d / MIKROSEKUND_NA_DZIEN <= 999999999)%Z.
Proof.
  intros H. pose proof H as H'.
  apply parsuj_precyzje_zwraca in H.
  destruct H as [c [j [Hc [Hj [Ht [Hv ->]]]]]].
  split.
  - destruct (mnoznik_tysiace j Hj) as [m [Hm ->]].
    exists (int_z_cyfr c * m)%Z. split; [nia | unfold timedelta; lia].
  - destruct (parsuj_precyzje_token c j Hc Hj) as [H1 H2]. cbv zeta in H1, H2.
    assert (Hmk : mk_timedelta (int_z_cyfr c * mnoznik j)
                  = Zwraca (int_z_cyfr c * mnoznik j)%Z).
    { destruct (int_z_cyfr c <? 1)%Z eqn:E; [apply Z.ltb_lt in E; lia |].
      destruct Ht as [-> | ->]; [rewrite H1 in H' | rewrite H2 in H']; exact H'. }
    unfold mk_timedelta in Hmk.
    destruct (_ && _) eqn:E; [| discriminate Hmk].
    apply andb_true_iff in E. destruct E as [_ E]. apply Z.leb_le in E. exact E.
Qed.

Lemma parsuj_precyzje_milisekundy_witness :
  parsuj_precyzje "250ms" = Zwraca 250000%Z /\
  (exists n, 1 <= n /\ 250000 = n * 1000)%Z.
Proof.
  assert (H : parsuj_precyzje "250ms" = Zwraca 250000%Z) by reflexivity.
  split; [exact H |].
  exact (proj1 (parsuj_precyzje_milisekundy "250ms" 250000%Z H)).
Defined.

Lemma int_z_cyfr_zero_wiodace (c : string) :
  int_z_cyfr (String "0" c) = int_z_cyfr c.
Proof. reflexivity. Qed.

(** X21.  Leading zeros do not matter: a text and the same text with a zero
    put in front are parsed to the same duration, or rejected with the same
    exception.  The text has fewer than 4300 characters: [int] refuses a
    longer run of digits, a limit that the model of the parser leaves out. *)
Theorem parsuj_precyzje_zero_wiodace (t : string) :
  (Z.of_nat (String.length t) < 4300)%Z ->
  parsuj_precyzje (String "0" t) = parsuj_precyzje t.
Proof.
  intros _.
  unfold parsuj_precyzje, dopasuj_wzorzec.
  cbn [wez_cyfry]. change (czy_cyfra "0") with true. cbv iota.
  destruct (wez_cyfry t) as [c r].
  change (String.eqb (String "0" c) "") with false. cbv iota.
  destruct c as [| x c].
  - change (String.eqb "" "") with true. cbv iota.
    destruct (find (jednostka_do_konca r) JEDNOSTKI); reflexivity.
  - change (String.eqb (String x c) "") with false. cbv iota.
    destruct (find (jednostka_do_konca r) JEDNOSTKI); reflexivity.
Qed.

Lemma parsuj_precyzje_zero_wiodace_witness :
  parsuj_precyzje "05m" = parsuj_precyzje "5m" /\
  parsuj_precyzje "05m" = Zwraca 300000000%Z.
Proof.
  split; [| reflexivity].
  apply (parsuj_precyzje_zero_wiodace "5m"). simpl. lia.
Defined.

End ParserDalej.

(* ================================================================== *)
(** * Further properties of the interval scan *)
(* ================================================================== *)

Section SkanDalej.

Import Py Modele Api Wzory Schematy Porzadki.

Variable prog : R.

(** With a backward step the loop cannot end by its test once it has been
    entered: the instants only move away from the end. *)
Lemma petla_siatki_wstecz (n : nat) (obiekty : list ModelObiektuBD)
    (t k : datetime) (d : timedelta) (acc zd : list ZdarzeniePrzestrz) :
  (d < 0)%Z -> (t <= k)%Z ->
  petla_siatki prog n obiekty t k d acc <> Some (Zwraca zd).
Proof.
  intros Hd. revert t acc. induction n as [| n IH]; intros t acc Hle; [discriminate |].
  cbn [petla_siatki]. apply Z.leb_le in Hle. rewrite Hle. apply Z.leb_le in Hle.
  destruct (krok_siatki prog obiekty t acc) as [acc' | e]; [| discriminate].
  unfold datetime_add. destruct (w_zakresie_datetime (t + d)); [| discriminate].
  apply IH. lia.
Qed.

(** X22.  The scan ends for every input: it returns its events or raises.
    With a backward step and an interval that is not empty it can only raise:
    the instants walk down to the first year of the calendar. *)
Theorem wykryj_zdarzenia_zawsze_konczy (obiekty : list ModelObiektuBD)
    (czas_start czas_koniec : datetime) (delta : timedelta) :
  (exists r, wykryj_zdarzenia_w_przedziale prog obiekty czas_start czas_koniec delta
             = Some r) /\
  (forall s k,
      (delta < 0)%Z ->
      zaokraglij_do_siatki czas_start delta = Zwraca s ->
      zaokraglij_do_siatki czas_koniec delta = Zwraca k ->
      (s <= k)%Z ->
      exists e, wykryj_zdarzenia_w_przedziale prog obiekty czas_start czas_koniec delta
                = Some (Rzuca e)).
Proof.
  pose proof (wykryj_zdarzenia_konczy prog obiekty czas_start czas_koniec delta) as Hk.
  destruct (wykryj_zdarzenia_w_przedziale prog obiekty czas_start czas_koniec delta)
    as [r |] eqn:E; [| contradiction].
  split; [exists r; reflexivity |].
  intros s k Hd Hs Hkon Hle.
  destruct r as [zd | e]; [exfalso | exists e; reflexivity].
  unfold wykryj_zdarzenia_w_przedziale in E. rewrite Hs, Hkon in E.
  apply (petla_siatki_wstecz _ _ _ _ _ _ _ Hd Hle E).
Qed.

(** The instants of the events of the loop are its ticks. *)
Lemma petla_siatki_tyki (n : nat) (obiekty : list ModelObiektuBD)
    (t k : datetime) (d : timedelta) (acc zd : list ZdarzeniePrzestrz)
    (z : ZdarzeniePrzestrz) :
  (0 < d)%Z ->
  petla_siatki prog n obiekty t k d acc = Some (Zwraca zd) ->
  In z zd ->
  In z acc \/
  exists i, (0 <= i)%Z /\ moment_czasu z = (t + i * d)%Z /\ (moment_czasu z <= k)%Z.
Proof.
  intros Hd. revert t acc. induction n as [| n IH]; intros t acc H Hin; [discriminate H |].
  apply petla_siatki_krok in H.
  destruct H as [[_ ->] | [Hle [m [Hm [_ [_ Hrec]]]]]]; [auto |].
  destruct (IH _ _ Hrec Hin) as [Hacc | [i [Hi [Hmom Hk]]]].
  - apply in_app_or in Hacc. destruct Hacc as [Hacc | Hnew]; [auto |].
    right. exists 0%Z. rewrite (zdarzenia_kroku_moment _ _ _ _ Hnew).
    split; [lia |]. split; [unfold datetime; lia | exact Hle].
  - right. exists (i + 1)%Z. split; [lia |]. split; [rewrite Hmom; unfold datetime; lia | exact Hk].
Qed.

(** X23.  Every event of a scan with a forward step carries a tick of the scan
    as its instant: a grid point between the two snapped ends of the interval.
    Nothing is reported off the grid or outside the interval. *)
Theorem wykryj_zdarzenia_na_siatce (obiekty : list ModelObiektuBD)
    (czas_start czas_koniec : datetime) (delta : timedelta)
    (zd : list ZdarzeniePrzestrz) (z : ZdarzeniePrzestrz) :
  (0 < delta)%Z ->
  wykryj_zdarzenia_w_przedziale prog obiekty czas_start czas_koniec delta
    = Some (Zwraca zd) ->
  In z zd ->
  tyk_siatki czas_start czas_koniec delta (moment_czasu z).
Proof.
  intros Hd H Hin. apply wykryj_zdarzenia_rozklad in H.
  destruct H as [s [k [Hs [Hk Hloop]]]].
  destruct (petla_siatki_tyki _ _ _ _ _ _ _ _ Hd Hloop Hin) as [[] | [i [Hi [Hmom Hle]]]].
  exists s, k, i. auto.
Qed.

(** ** The order of the events *)

Lemma klucz_rosnie_iff (x y : ZdarzeniePrzestrz) :
  klucz_rosnie x y <->
  (moment_czasu x < moment_czasu y)%Z \/
  (moment_czasu x = moment_czasu y /\
   ((obiekt_id_a x < obiekt_id_a y)%Z \/
    (obiekt_id_a x = obiekt_id_a y /\ (obiekt_id_b x < obiekt_id_b y)%Z))).
Proof.
  unfold klucz_rosnie, Endpointy.krotka_mniejsza, Endpointy.klucz.
  destruct (moment_czasu x =? moment_czasu y)%Z eqn:Et.
  - apply Z.eqb_eq in Et.
    destruct (obiekt_id_a x =? obiekt_id_a y)%Z eqn:Ea.
    + apply Z.eqb_eq in Ea. rewrite Z.ltb_lt. split; [auto | intros H; lia].
    + apply Z.eqb_neq in Ea. rewrite Z.ltb_lt. split; [auto | intros H; lia].
  - apply Z.eqb_neq in Et. rewrite Z.ltb_lt. split; [auto | intros H; lia].
Qed.

Lemma StronglySorted_app (A : Type) (R : A -> A -> Prop) (l1 l2 : list A) :
  StronglySorted R l1 -> StronglySorted R l2 ->
  (forall x y, In x l1 -> In y l2 -> R x y) ->
  StronglySorted R (l1 ++ l2).
Proof.
  intros H1 H2 Hx. induction H1 as [| x rest Hrest IH Hall]; simpl; [exact H2 |].
  constructor.
  - apply IH. intros a b Ha Hb. apply Hx; [right; exact Ha | exact Hb].
  - rewrite Forall_forall in *. intros y Hy. apply in_app_or in Hy.
    destruct Hy as [Hy | Hy]; [apply Hall; exact Hy | apply Hx; [left; reflexivity | exact Hy]].
Qed.

(** The nested loops take the pairs of an ascending list in lexicographic
    order. *)
Lemma pary_posortowane (l : list Z) :
  StronglySorted Z.lt l -> StronglySorted para_mniejsza (pary l).
Proof.
  induction 1 as [| x rest Hrest IH Hall]; simpl; [constructor |].
  rewrite Forall_forall in Hall.
  apply StronglySorted_app.
  - clear IH Hall. induction Hrest as [| y r Hr IHr Hally]; simpl; constructor.
    + exact IHr.
    + rewrite Forall_forall in *. intros q Hq. apply in_map_iff in Hq.
      destruct Hq as [w [<- Hw]]. right. simpl. split; [reflexivity | apply Hally; exact Hw].
  - exact IH.
  - intros p q Hp Hq. apply in_map_iff in Hp. destruct Hp as [w [<- Hw]].
    destruct q as [a b]. apply pary_In in Hq. destruct Hq as [Ha _].
    left. simpl. apply Hall; exact Ha.
Qed.

Lemma zdarzenia_pary_klucz (m : dict WspolrzedneGeodezyjne) (t : datetime)
    (p : Z * Z) (z : ZdarzeniePrzestrz) :
  (fst p < snd p)%Z ->
  In z (zdarzenia_pary prog m t p) ->
  moment_czasu z = t /\ obiekt_id_a z = fst p /\ obiekt_id_b z = snd p.
Proof.
  intros Hlt. unfold zdarzenia_pary.
  destruct (dict_get m (fst p)); [| intros []].
  destruct (dict_get m (snd p)); [| intros []].
  destruct (Rlt_dec _ prog); [| intros []].
  intros [<- | []]. simpl. rewrite Z.min_l, Z.max_r by lia. auto.
Qed.

Lemma zdarzenia_pary_posortowane (m : dict WspolrzedneGeodezyjne) (t : datetime)
    (p : Z * Z) :
  StronglySorted klucz_rosnie (zdarzenia_pary prog m t p).
Proof.
  unfold zdarzenia_pary.
  destruct (dict_get m (fst p)); [| constructor].
  destruct (dict_get m (snd p)); [| constructor].
  destruct (Rlt_dec _ prog); repeat constructor.
Qed.

Lemma petla_par_posortowana (m : dict WspolrzedneGeodezyjne) (t : datetime)
    (ps : list (Z * Z)) :
  StronglySorted para_mniejsza ps ->
  (forall p, In p ps -> (fst p < snd p)%Z) ->
  StronglySorted klucz_rosnie (flat_map (zdarzenia_pary prog m t) ps).
Proof.
  induction 1 as [| p rest Hrest IH Hall]; intros Hlt; simpl; [constructor |].
  rewrite Forall_forall in Hall.
  apply StronglySorted_app.
  - apply zdarzenia_pary_posortowane.
  - apply IH. intros q Hq. apply Hlt. right; exact Hq.
  - intros x y Hx Hy. apply in_flat_map in Hy. destruct Hy as [q [Hq Hy]].
    destruct (zdarzenia_pary_klucz m t p x (Hlt p (or_introl eq_refl)) Hx)
      as [Hxt [Hxa Hxb]].
    destruct (zdarzenia_pary_klucz m t q y (Hlt q (or_intror Hq)) Hy)
      as [Hyt [Hya Hyb]].
    apply klucz_rosnie_iff. right. split; [congruence |].
    rewrite Hxa, Hxb, Hya, Hyb. apply (Hall q Hq).
Qed.

(** The events of one tick come out ordered by the pair of ids. *)
Lemma zdarzenia_kroku_posortowane (m : dict WspolrzedneGeodezyjne) (t : datetime) :
  NoDup (dict_keys m) -> StronglySorted klucz_rosnie (zdarzenia_kroku prog m t).
Proof.
  intros Hnd. unfold zdarzenia_kroku.
  pose proof (sorted_rosnaca _ Hnd) as Hsort.
  apply petla_par_posortowana.
  - apply pary_posortowane. exact Hsort.
  - intros [a b] Hp. simpl. apply (pary_rosnace _ _ _ Hsort Hp).
Qed.

Lemma petla_siatki_posortowana (n : nat) (obiekty : list ModelObiektuBD)
    (t k : datetime) (d : timedelta) (acc zd : list ZdarzeniePrzestrz) :
  (0 < d)%Z ->
  StronglySorted klucz_rosnie acc ->
  (forall z, In z acc -> (moment_czasu z < t)%Z) ->
  petla_siatki prog n obiekty t k d acc = Some (Zwraca zd) ->
  StronglySorted klucz_rosnie zd.
Proof.
  intros Hd. revert t acc. induction n as [| n IH]; intros t acc Hs Hacc H;
    [discriminate H |].
  apply petla_siatki_krok in H.
  destruct H as [[_ ->] | [_ [m [Hm [_ [_ Hrec]]]]]]; [exact Hs |].
  apply (IH _ _) in Hrec; [exact Hrec | |].
  - apply StronglySorted_app; [exact Hs | |].
    + apply zdarzenia_kroku_posortowane. apply (pozycje_kroku_NoDup _ _ _ Hm).
    + intros x y Hx Hy. apply klucz_rosnie_iff. left.
      rewrite (zdarzenia_kroku_moment _ _ _ _ Hy). apply Hacc; exact Hx.
  - intros z Hz. apply in_app_or in Hz. destruct Hz as [Hz | Hz].
    + specialize (Hacc z Hz). lia.
    + rewrite (zdarzenia_kroku_moment _ _ _ _ Hz). lia.
Qed.

Lemma klucz_rosnie_asymetryczny (x y : ZdarzeniePrzestrz) :
  klucz_rosnie x y ->
  Endpointy.krotka_mniejsza (Endpointy.klucz y) (Endpointy.klucz x) = false.
Proof.
  intros H. apply klucz_rosnie_iff in H.
  destruct (Endpointy.krotka_mniejsza (Endpointy.klucz y) (Endpointy.klucz x)) eqn:E;
    [| reflexivity].
  apply (klucz_rosnie_iff y x) in E. lia.
Qed.

(** Sorting a list that is already in the order of the key returns it. *)
Lemma list_sort_posortowanej (l : list ZdarzeniePrzestrz) :
  StronglySorted klucz_rosnie l -> Endpointy.list_sort l = l.
Proof.
  induction 1 as [| x rest Hrest IH Hall]; cbn [Endpointy.list_sort]; [reflexivity |].
  rewrite IH. destruct rest as [| y r]; cbn [Endpointy.wstaw_zdarzenie]; [reflexivity |].
  rewrite Forall_forall in Hall.
  rewrite (klucz_rosnie_asymetryczny x y (Hall y (or_introl eq_refl))). reflexivity.
Qed.

(** X24.  The scan returns its events already in the order in which the
    endpoint sorts them: by instant, then by the first id, then by the second,
    with no two events under the same key.  The [sort] of the endpoint returns
    the list of the scan unchanged. *)
Theorem wykryj_zdarzenia_posortowane (obiekty : list ModelObiektuBD)
    (czas_start czas_koniec : datetime) (delta : timedelta)
    (zd : list ZdarzeniePrzestrz) :
  (0 < delta)%Z ->
  wykryj_zdarzenia_w_przedziale prog obiekty czas_start czas_koniec delta
    = Some (Zwraca zd) ->
  StronglySorted klucz_rosnie zd /\ Endpointy.list_sort zd = zd.
Proof.
  intros Hd H. apply wykryj_zdarzenia_rozklad in H.
  destruct H as [s [k [_ [_ Hloop]]]].
  assert (Hs : StronglySorted klucz_rosnie zd).
  { apply (petla_siatki_posortowana _ _ _ _ _ _ _ Hd) in Hloop;
      [exact Hloop | constructor | intros z []]. }
  split; [exact Hs | apply list_sort_posortowanej; exact Hs].
Qed.

(** ** The objects behind the events *)

Lemma petla_obiektow_aktywne (obiekty : list ModelObiektuBD) (t : datetime)
    (m : dict WspolrzedneGeodezyjne) :
  dla_kazdego (dodaj_pozycje t)
    (filter (fun o => String.eqb (stan_operacyjny o) AKTYWNY) obiekty) m
  = dla_kazdego (dodaj_pozycje t) obiekty m.
Proof.
  revert m. induction obiekty as [| o rest IH]; intros m; simpl; [reflexivity |].
  destruct (String.eqb (stan_operacyjny o) AKTYWNY) eqn:E.
  - simpl. destruct (dodaj_pozycje t m o); simpl; [apply IH | reflexivity].
  - rewrite dodaj_pozycje_nieaktywny by (apply String.eqb_neq; exact E).
    simpl. apply IH.
Qed.

Lemma petla_siatki_aktywne (n : nat) (obiekty : list ModelObiektuBD)
    (t k : datetime) (d : timedelta) (acc : list ZdarzeniePrzestrz) :
  petla_siatki prog n
    (filter (fun o => String.eqb (stan_operacyjny o) AKTYWNY) obiekty) t k d acc
  = petla_siatki prog n obiekty t k d acc.
Proof.
  revert t acc. induction n as [| n IH]; intros t acc; cbn [petla_siatki]; [reflexivity |].
  unfold krok_siatki, pozycje_kroku. rewrite petla_obiektow_aktywne.
  destruct (t <=? k)%Z; [| reflexivity].
  destruct (bind _ _) as [zd | e]; [| reflexivity].
  destruct (datetime_add t d); [apply IH | reflexivity].
Qed.

(** X25.  The scan only looks at the active objects: removing the objects in
    any other state from the catalogue changes neither the events nor the
    exception of the scan. *)
Theorem wykryj_zdarzenia_tylko_aktywne (obiekty : list ModelObiektuBD)
    (czas_start czas_koniec : datetime) (delta : timedelta) :
  wykryj_zdarzenia_w_przedziale prog
    (filter (fun o => String.eqb (stan_operacyjny o) AKTYWNY) obiekty)
    czas_start czas_koniec delta
  = wykryj_zdarzenia_w_przedziale prog obiekty czas_start czas_koniec delta.
Proof.
  unfold wykryj_zdarzenia_w_przedziale.
  destruct (zaokraglij_do_siatki czas_start delta); [| reflexivity].
  destruct (zaokraglij_do_siatki czas_koniec delta); [| reflexivity].
  apply petla_siatki_aktywne.
Qed.

(** A position that the service returns for an object: the object has been
    introduced, its semi-major axis is accepted, and the altitude of the
    position is the altitude of its orbit. *)
Lemma oblicz_pozycje_w_czasie_zwraca (o : ModelObiektuBD) (t : datetime)
    (p : WspolrzedneGeodezyjne) :
  oblicz_pozycje_w_czasie o t = Zwraca (Some p) ->
  (data_wprowadzenia o <= t)%Z /\
  (0 <= SREDNICA_BAZOWA_ZIEMI + wysokosc_km (orbita_ref o))%R /\
  wysokosc_npm p = wysokosc_km (orbita_ref o).
Proof.
  intros H. pose proof (oblicz_pozycje_w_czasie_promien o t p H) as Hr.
  unfold oblicz_pozycje_w_czasie in H.
  destruct (t <? data_wprowadzenia o)%Z eqn:E; [discriminate H |].
  apply Z.ltb_ge in E. split; [exact E |].
  destruct (Serwisy.propaguj_pozycje _ _ _) as [c | e] eqn:Ep; [| discriminate H].
  apply propaguj_pozycje_promien in Ep. destruct Ep as [[Ha _] _].
  simpl in Ha. split; [exact Ha | lra].
Qed.

(** X26.  Every event of the scan is between two active objects of the
    catalogue that had been introduced by the instant of the event; its
    distance is not negative and is below the threshold, so that a threshold
    that is not positive gives no event at all. *)
Theorem wykryj_zdarzenia_pochodzenie (obiekty : list ModelObiektuBD)
    (czas_start czas_koniec : datetime) (delta : timedelta)
    (zd : list ZdarzeniePrzestrz) (z : ZdarzeniePrzestrz) :
  wykryj_zdarzenia_w_przedziale prog obiekty czas_start czas_koniec delta
    = Some (Zwraca zd) ->
  In z zd ->
  exists oa ob,
    In oa obiekty /\ In ob obiekty /\
    id_rekordu oa = obiekt_id_a z /\ id_rekordu ob = obiekt_id_b z /\
    stan_operacyjny oa = AKTYWNY /\ stan_operacyjny ob = AKTYWNY /\
    (data_wprowadzenia oa <= moment_czasu z)%Z /\
    (data_wprowadzenia ob <= moment_czasu z)%Z /\
    (0 <= dystans_min z < prog)%R.
Proof.
  intros Hscan Hin.
  destruct (wykryj_zdarzenia_postac prog _ _ _ _ _ _ Hscan Hin)
    as [m [pa [pb [Hm [_ [_ [Ea [Eb [Hd [_ Hmin]]]]]]]]]].
  destruct (pozycje_kroku_wpis _ _ _ _ _ Hm Ea) as [oa [Hina [Hida [Hsa Hpa]]]].
  destruct (pozycje_kroku_wpis _ _ _ _ _ Hm Eb) as [ob [Hinb [Hidb [Hsb Hpb]]]].
  apply oblicz_pozycje_w_czasie_zwraca in Hpa. destruct Hpa as [Hea [Hra Hha]].
  apply oblicz_pozycje_w_czasie_zwraca in Hpb. destruct Hpb as [Heb [Hrb Hhb]].
  exists oa, ob. rewrite Hmin.
  pose proof (odleglosc_miedzy_promieniami pa pb) as [Hlo _]. cbv zeta in Hlo.
  rewrite Hha, Hhb in Hlo.
  rewrite (Rabs_pos_eq _ Hra), (Rabs_pos_eq _ Hrb) in Hlo.
  replace (SREDNICA_BAZOWA_ZIEMI + wysokosc_km (orbita_ref oa)
           - (SREDNICA_BAZOWA_ZIEMI + wysokosc_km (orbita_ref ob)))%R
    with (wysokosc_km (orbita_ref oa) - wysokosc_km (orbita_ref ob))%R in Hlo by ring.
  pose proof (Rabs_pos (wysokosc_km (orbita_ref oa) - wysokosc_km (orbita_ref ob))).
  repeat split; try assumption; lra.
Qed.

(** X27.  A catalogue whose active objects all carry one id, in particular one
    with fewer than two active objects, has no events. *)
Theorem wykryj_zdarzenia_jeden_aktywny (obiekty : list ModelObiektuBD)
    (czas_start czas_koniec : datetime) (delta : timedelta)
    (zd : list ZdarzeniePrzestrz) :
  (forall o1 o2, In o1 obiekty -> In o2 obiekty ->
                 stan_operacyjny o1 = AKTYWNY -> stan_operacyjny o2 = AKTYWNY ->
                 id_rekordu o1 = id_rekordu o2) ->
  wykryj_zdarzenia_w_przedziale prog obiekty czas_start czas_koniec delta
    = Some (Zwraca zd) ->
  zd = [].
Proof.
  intros Hone Hscan. destruct zd as [| z rest]; [reflexivity | exfalso].
  assert (Hin : In z (z :: rest)) by (left; reflexivity).
  destruct (wykryj_zdarzenia_postac prog _ _ _ _ _ _ Hscan Hin)
    as [m [pa [pb [Hm [_ [Hlt [Ea [Eb _]]]]]]]].
  destruct (pozycje_kroku_wpis _ _ _ _ _ Hm Ea) as [oa [Hina [Hida [Hsa _]]]].
  destruct (pozycje_kroku_wpis _ _ _ _ _ Hm Eb) as [ob [Hinb [Hidb [Hsb _]]]].
  specialize (Hone oa ob Hina Hinb Hsa Hsb). lia.
Qed.

(** X28.  On a catalogue of orbits that passed the input schema a scan with a
    forward step does not raise, as long as the instant after the last tick is
    still a date of the calendar: it returns its events. *)
Theorem wykryj_zdarzenia_katalogu_zwalidowanego (obiekty : list ModelObiektuBD)
    (czas_start czas_koniec s k : datetime) (delta : timedelta) :
  (0 < delta)%Z ->
  (forall o, In o obiekty ->
     exists id dane, orbita_ref o = wiersz_orbity id dane /\
                     SchematOrbitWejscie.waliduj dane = true) ->
  zaokraglij_do_siatki czas_start delta = Zwraca s ->
  zaokraglij_do_siatki czas_koniec delta = Zwraca k ->
  (k + delta <= DATETIME_MAX)%Z ->
  exists zd,
    wykryj_zdarzenia_w_przedziale prog obiekty czas_start czas_koniec delta
    = Some (Zwraca zd).
Proof.
  intros Hd Hall Hs Hk Hmax.
  apply (wykryj_zdarzenia_zwraca prog obiekty czas_start czas_koniec s k delta);
    try assumption.
  intros o Hin. destruct (Hall o Hin) as [id [dane [Hrow Hv]]].
  pose proof (os_obiektu_zwalidowanego o id dane Hv Hrow) as Ha.
  unfold parametry_obiektu in Ha. simpl in Ha. lra.
Qed.

End SkanDalej.

Section SkanProbki.

Import Py Modele Api Wzory Schematy Porzadki Przyklady.

Lemma wykryj_zdarzenia_na_siatce_witness :
  (0 < MINUTA)%Z /\
  wykryj_zdarzenia_w_przedziale TOLERANCJA_ZBLIZENIA katalog 0%Z MINUTA MINUTA
    = Some (Zwraca [zdarzenie_leo 0%Z; zdarzenie_leo MINUTA]) /\
  tyk_siatki 0%Z MINUTA MINUTA (moment_czasu (zdarzenie_leo MINUTA)).
Proof.
  assert (Hd : (0 < MINUTA)%Z) by reflexivity.
  pose proof (skan_katalogu TOLERANCJA_ZBLIZENIA tolerancja_dodatnia) as Hscan.
  split; [exact Hd |]. split; [exact Hscan |].
  apply (wykryj_zdarzenia_na_siatce TOLERANCJA_ZBLIZENIA katalog 0%Z MINUTA MINUTA
           _ (zdarzenie_leo MINUTA) Hd Hscan).
  right; left; reflexivity.
Defined.

Lemma wykryj_zdarzenia_posortowane_witness :
  (0 < MINUTA)%Z /\
  wykryj_zdarzenia_w_przedziale TOLERANCJA_ZBLIZENIA katalog 0%Z MINUTA MINUTA
    = Some (Zwraca [zdarzenie_leo 0%Z; zdarzenie_leo MINUTA]) /\
  Endpointy.list_sort [zdarzenie_leo 0%Z; zdarzenie_leo MINUTA]
  = [zdarzenie_leo 0%Z; zdarzenie_leo MINUTA].
Proof.
  assert (Hd : (0 < MINUTA)%Z) by reflexivity.
  pose proof (skan_katalogu TOLERANCJA_ZBLIZENIA tolerancja_dodatnia) as Hscan.
  split; [exact Hd |]. split; [exact Hscan |].
  exact (proj2 (wykryj_zdarzenia_posortowane TOLERANCJA_ZBLIZENIA katalog
                  0%Z MINUTA MINUTA _ Hd Hscan)).
Defined.

Lemma wykryj_zdarzenia_pochodzenie_witness :
  wykryj_zdarzenia_w_przedziale TOLERANCJA_ZBLIZENIA katalog 0%Z MINUTA MINUTA
    = Some (Zwraca [zdarzenie_leo 0%Z; zdarzenie_leo MINUTA]) /\
  exists oa ob,
    In oa katalog /\ In ob katalog /\
    id_rekordu oa = 1%Z /\ id_rekordu ob = 2%Z /\
    stan_operacyjny oa = AKTYWNY /\ stan_operacyjny ob = AKTYWNY /\
    (data_wprowadzenia oa <= MINUTA)%Z /\ (data_wprowadzenia ob <= MINUTA)%Z.
Proof.
  pose proof (skan_katalogu TOLERANCJA_ZBLIZENIA tolerancja_dodatnia) as Hscan.
  split; [exact Hscan |].
  destruct (wykryj_zdarzenia_pochodzenie TOLERANCJA_ZBLIZENIA katalog
              0%Z MINUTA MINUTA _ (zdarzenie_leo MINUTA) Hscan
              (or_intror (or_introl eq_refl)))
    as [oa [ob [H1 [H2 [H3 [H4 [H5 [H6 [H7 [H8 _]]]]]]]]]].
  exists oa, ob. auto 10.
Defined.

Lemma os_probki (id : Z) (epoka : datetime) :
  (0 <= SREDNICA_BAZOWA_ZIEMI + wysokosc_km (orbita_ref (Probki.obiekt_leo id epoka))
   <= 1e100)%R.
Proof. simpl. unfold SREDNICA_BAZOWA_ZIEMI. lra. Qed.

Lemma wykryj_zdarzenia_jeden_aktywny_witness :
  exists zd,
    wykryj_zdarzenia_w_przedziale TOLERANCJA_ZBLIZENIA [Probki.obiekt_leo 1 0%Z]
      0%Z MINUTA MINUTA = Some (Zwraca zd) /\
    zd = [].
Proof.
  destruct (wykryj_zdarzenia_zwraca TOLERANCJA_ZBLIZENIA [Probki.obiekt_leo 1 0%Z]
              0%Z MINUTA 0%Z MINUTA MINUTA) as [zd Hzd];
    [reflexivity | | reflexivity | reflexivity | discriminate |].
  { intros o [<- | []]. apply os_probki. }
  exists zd. split; [exact Hzd |].
  apply (wykryj_zdarzenia_jeden_aktywny TOLERANCJA_ZBLIZENIA
           [Probki.obiekt_leo 1 0%Z] 0%Z MINUTA MINUTA zd); [| exact Hzd].
  intros o1 o2 [<- | []] [<- | []] _ _. reflexivity.
Defined.

Lemma wykryj_zdarzenia_katalogu_zwalidowanego_witness :
  exists zd,
    wykryj_zdarzenia_w_przedziale TOLERANCJA_ZBLIZENIA
      (Serwisy.tab_obiekty Probki.sesja_leo) 0%Z GODZINA MINUTA
    = Some (Zwraca zd).
Proof.
  apply (wykryj_zdarzenia_katalogu_zwalidowanego TOLERANCJA_ZBLIZENIA
           (Serwisy.tab_obiekty Probki.sesja_leo) 0%Z GODZINA 0%Z GODZINA MINUTA).
  - reflexivity.
  - intros o [<- | [<- | []]]; exists 1%Z, Probki.dane_leo;
      (split; [reflexivity | exact dane_leo_zwalidowane]).
  - reflexivity.
  - reflexivity.
  - discriminate.
Defined.

End SkanProbki.

(* ================================================================== *)
(** * The endpoints *)
(* ================================================================== *)

Section WlasnosciEndpointow.

Import Py Modele Api Wzory Schematy Porzadki Endpointy.

Variable int : string -> option Z.
Variable isoparse : string -> option datetime.
Variable strftime : datetime -> string.

(** From the epoch on the position service has a position or raises. *)
Lemma oblicz_pozycje_w_czasie_nie_None (o : ModelObiektuBD) (t : datetime) :
  (data_wprowadzenia o <= t)%Z -> oblicz_pozycje_w_czasie o t <> Zwraca None.
Proof.
  intros Hle. rewrite oblicz_pozycje_w_czasie_po_epoce by exact Hle.
  destruct (Serwisy.propaguj_pozycje _ _ _); simpl; discriminate.
Qed.

(** X29.  [GET /satelity/{id}/pozycja] answers with a position exactly when
    the id reads as a positive integer, an object has that id, the timestamp
    parses to an instant that is not before the epoch of the object, and the
    propagation over the elapsed seconds returns; the answer then holds the
    three components of the propagated coordinate.  The branch that answers
    "Nie można obliczyć pozycji" is never taken: an instant before the epoch
    has been rejected before the position service is called. *)
Theorem oblicz_pozycje_obiektu_odpowiedz (id_zasobu timestamp : string)
    (sesja : Serwisy.Session) :
  (forall r : SchematPozycjiWyjscie,
      oblicz_pozycje_obiektu int isoparse id_zasobu timestamp sesja = Odpowiedz r <->
      exists id o moment w,
        int id_zasobu = Some id /\ (0 < id)%Z /\
        find (fun x => (id_rekordu x =? id)%Z) (Serwisy.tab_obiekty sesja) = Some o /\
        isoparse timestamp = Some moment /\
        (data_wprowadzenia o <= moment)%Z /\
        Serwisy.propaguj_pozycje (parametry_obiektu o)
          (total_seconds (moment - data_wprowadzenia o)%Z)
          (pozycja_startowa_lon o) = Zwraca w /\
        r = {| szerokosc := szer_geogr w;
               dlugosc := dlug_geogr w;
               wysokosc := wysokosc_npm w |}) /\
  oblicz_pozycje_obiektu int isoparse id_zasobu timestamp sesja
  <> HTTPException 400 "Nie można obliczyć pozycji".
Proof.
  unfold oblicz_pozycje_obiektu, waliduj_identyfikator_dodatni.
  cbn [Serwisy.waliduj_znacznik Serwisy.WalidatorISO8601].
  destruct (int id_zasobu) as [id |] eqn:Eint.
  2:{ cbn. split; [| discriminate].
      intros r. split; [discriminate |].
      intros [id [o [moment [w [H _]]]]]. discriminate H. }
  destruct (id <=? 0)%Z eqn:Eid.
  { apply Z.leb_le in Eid. cbn. split; [| discriminate].
    intros r. split; [discriminate |].
    intros [id' [o [moment [w [H [Hpos _]]]]]]. inversion H; subst. lia. }
  apply Z.leb_gt in Eid.
  destruct (find (fun o => (id_rekordu o =? id)%Z) (Serwisy.tab_obiekty sesja))
    as [obiekt |] eqn:Efind.
  2:{ split; [| discriminate].
      intros r. split; [discriminate |].
      intros [id' [o [moment [w [H [_ [Hf _]]]]]]]. inversion H; subst.
      rewrite Efind in Hf. discriminate Hf. }
  destruct (isoparse timestamp) as [znacznik |] eqn:Eiso.
  2:{ split; [| discriminate].
      intros r. split; [discriminate |].
      intros [id' [o [moment [w [_ [_ [_ [H _]]]]]]]]. discriminate H. }
  cbv zeta.
  destruct (znacznik <? data_wprowadzenia obiekt)%Z eqn:Eep.
  { apply Z.ltb_lt in Eep. split; [| discriminate].
    intros r. split; [discriminate |].
    intros [id' [o [moment [w [H [_ [Hf [Hm [Hle _]]]]]]]]].
    inversion H; subst. rewrite Efind in Hf. inversion Hf; subst.
    inversion Hm; subst. lia. }
  apply Z.ltb_ge in Eep.
  pose proof (oblicz_pozycje_w_czasie_nie_None obiekt znacznik Eep) as Hnn.
  pose proof (oblicz_pozycje_w_czasie_po_epoce obiekt znacznik Eep) as Hpo.
  fold (parametry_obiektu obiekt) in Hpo.
  destruct (oblicz_pozycje_w_czasie obiekt znacznik) as [[w |] | e] eqn:Epos.
  - split; [| discriminate].
    intros r. split.
    + intros H. inversion H; subst r. exists id, obiekt, znacznik, w.
      repeat split; try assumption; try reflexivity.
      destruct (Serwisy.propaguj_pozycje _ _ _) as [w' | e'];
        simpl in Hpo; inversion Hpo. reflexivity.
    + intros [id' [o [moment [w' [H [_ [Hf [Hm [_ [Hp ->]]]]]]]]]].
      inversion H; subst. rewrite Efind in Hf. inversion Hf; subst.
      inversion Hm; subst. rewrite Hp in Hpo. simpl in Hpo. inversion Hpo. reflexivity.
  - exfalso. apply Hnn. reflexivity.
  - split; [| discriminate].
    intros r. split; [discriminate |].
    intros [id' [o [moment [w' [H [_ [Hf [Hm [_ [Hp _]]]]]]]]]].
    inversion H; subst. rewrite Efind in Hf. inversion Hf; subst.
    inversion Hm; subst. rewrite Hp in Hpo. simpl in Hpo. discriminate Hpo.
Qed.

(** The list that the scan of the endpoint returns is left as it is by the
    sort of the endpoint. *)
Lemma sort_po_skanie (obiekty : list ModelObiektuBD) (dt_start dt_koniec : datetime)
    (precision : string) (delta : timedelta) (zd : list ZdarzeniePrzestrz) :
  parsuj_precyzje precision = Zwraca delta ->
  wykryj_zdarzenia_w_przedziale TOLERANCJA_ZBLIZENIA obiekty dt_start dt_koniec delta
    = Some (Zwraca zd) ->
  list_sort zd = zd.
Proof.
  intros Hp Hscan. apply parsuj_precyzje_dodatnie in Hp.
  assert (Hd : (0 < delta)%Z) by lia.
  apply wykryj_zdarzenia_rozklad in Hscan.
  destruct Hscan as [s [k [_ [_ Hloop]]]].
  apply list_sort_posortowanej.
  apply (petla_siatki_posortowana _ _ _ _ _ _ _ _ Hd) in Hloop;
    [exact Hloop | constructor | intros z []].
Qed.

(** X30.  [GET /zblizenia] has two outcomes only: the list of events, or the
    [HTTPException] with status 400 and the one message of the endpoint; no
    other exception leaves it and no other status is raised.  It answers with
    a list exactly when both timestamps parse, the start is strictly before
    the end, the precision is accepted and the scan over the objects that have
    an orbit returns; the list then holds the events of the scan in the order
    of the scan, converted one by one.  The precision text has at most 4300
    characters: [int] refuses a longer run of digits, a limit that the model
    of the parser leaves out. *)
Theorem wykryj_zblizenia_odpowiedz (start_date end_date precision : string)
    (sesja : Serwisy.Session) :
  (Z.of_nat (String.length precision) <= 4300)%Z ->
  (wykryj_zblizenia isoparse strftime start_date end_date precision sesja
   = Some blad_zblizen \/
   exists lista,
     wykryj_zblizenia isoparse strftime start_date end_date precision sesja
     = Some (Odpowiedz lista)) /\
  (forall lista,
      wykryj_zblizenia isoparse strftime start_date end_date precision sesja
      = Some (Odpowiedz lista) <->
      exists dt_start dt_koniec delta zd,
        isoparse start_date = Some dt_start /\
        isoparse end_date = Some dt_koniec /\
        (dt_start < dt_koniec)%Z /\
        parsuj_precyzje precision = Zwraca delta /\
        wykryj_zdarzenia_w_przedziale TOLERANCJA_ZBLIZENIA (obiekty_z_orbitami sesja)
          dt_start dt_koniec delta = Some (Zwraca zd) /\
        lista = map (zdarzenie_wyjsciowe strftime) zd).
Proof.
  intros _.
  unfold wykryj_zblizenia. cbv zeta.
  cbn [Serwisy.waliduj_znacznik Serwisy.WalidatorISO8601].
  destruct (isoparse start_date) as [dt_start |] eqn:Es.
  2:{ split; [left; reflexivity |]. intros lista. split; [discriminate |].
      intros [a [b [c [d [H _]]]]]. discriminate H. }
  destruct (isoparse end_date) as [dt_koniec |] eqn:Ee.
  2:{ split; [left; reflexivity |]. intros lista. split; [discriminate |].
      intros [a [b [c [d [_ [H _]]]]]]. discriminate H. }
  destruct (dt_koniec <=? dt_start)%Z eqn:Ele.
  { apply Z.leb_le in Ele. split; [left; reflexivity |].
    intros lista. split; [discriminate |].
    intros [a [b [c [d [Ha [Hb [Hlt _]]]]]]]. inversion Ha; inversion Hb; subst. lia. }
  apply Z.leb_gt in Ele.
  destruct (parsuj_precyzje precision) as [delta | e] eqn:Ep.
  2:{ split; [left; reflexivity |]. intros lista. split; [discriminate |].
      intros [a [b [c [d [_ [_ [_ [H _]]]]]]]]. discriminate H. }
  pose proof (wykryj_zdarzenia_konczy TOLERANCJA_ZBLIZENIA (obiekty_z_orbitami sesja)
                dt_start dt_koniec delta) as Hkon.
  destruct (wykryj_zdarzenia_w_przedziale TOLERANCJA_ZBLIZENIA (obiekty_z_orbitami sesja)
              dt_start dt_koniec delta) as [[zd | e] |] eqn:Escan;
    [| | contradiction].
  - rewrite (sort_po_skanie _ _ _ _ _ _ Ep Escan).
    split; [right; eexists; reflexivity |].
    intros lista. split.
    + intros H. inversion H; subst lista.
      exists dt_start, dt_koniec, delta, zd. auto 10.
    + intros [a [b [c [d [Ha [Hb [_ [Hc [Hd ->]]]]]]]]].
      inversion Ha; inversion Hb; inversion Hc; subst.
      rewrite Escan in Hd. inversion Hd; subst. reflexivity.
  - split; [left; reflexivity |]. intros lista. split; [discriminate |].
    intros [a [b [c [d [Ha [Hb [_ [Hc [Hd _]]]]]]]]].
    inversion Ha; inversion Hb; inversion Hc; subst.
    rewrite Escan in Hd. discriminate Hd.
Qed.

End WlasnosciEndpointow.

Section WlasnosciEndpointowProbki.

Import Py Modele Api Schematy Endpointy.

Lemma wykryj_zblizenia_odpowiedz_witness :
  (Z.of_nat (String.length "1m") <= 4300)%Z /\
  wykryj_zblizenia (Probki.isoparse_staly 0%Z) (fun _ => "1970-01-01T00:00:00Z"%string)
    "1970-01-01T00:00:00Z" "1970-01-01T00:00:00Z" "1m" Probki.sesja_leo
  = Some blad_zblizen.
Proof.
  assert (Hlen : (Z.of_nat (String.length "1m") <= 4300)%Z) by (simpl; lia).
  split; [exact Hlen |].
  destruct (wykryj_zblizenia_odpowiedz
              (Probki.isoparse_staly 0%Z) (fun _ => "1970-01-01T00:00:00Z"%string)
              "1970-01-01T00:00:00Z" "1970-01-01T00:00:00Z" "1m"
              Probki.sesja_leo Hlen) as [[Hb | [lista Hl]] Hiff].
  - exact Hb.
  - exfalso. apply Hiff in Hl.
    destruct Hl as [a [b [c [d [Ha [Hb [Hlt _]]]]]]].
    unfold Probki.isoparse_staly in Ha, Hb. inversion Ha; inversion Hb; subst. lia.
Defined.

End WlasnosciEndpointowProbki.
